(** * Innie: marking PCI storage controllers as built-in

    A shallow embedding of [Innie/Innie.cpp] (an IOKit driver) and the
    properties its specification states about it.

    The driver works on the IOKit registry, which the rest of the kernel
    changes while the driver runs.  The model therefore has

    - a [Registry]: the registry entries by identity, each with its name, its
      property table and its children in the device-tree plane and in the
      service plane, together with the store of the objects the property
      tables point to (so that a dictionary has an identity, and copying it is
      different from changing it);
    - a [World]: the registry, a millisecond clock, the number of allocations
      attempted so far and the trace of what the driver did ([IOSleep] calls
      and [setProperty] calls);
    - the kernel around the driver as parameters: [external] is what the
      rest of the kernel does to the registry while the driver sleeps,
      [allocFails] says which allocation attempts return a null pointer, and
      [classCode] holds the four constants of [Innie.hpp].

    What the model leaves out or fixes:

    - [DBGLOG] (a macro of [Innie.hpp]) only prints and is left out.
    - [Innie::free] and [Innie::stop] only call [IOService] and are left
      out.
    - Reference counts are not modelled: an object that the driver releases
      stays in the object store, unreachable.
    - The rest of the kernel acts on the registry during [IOSleep] only; the
      driver's own steps between two sleeps are not interleaved with it.
    - The values inside a dictionary are kept by value.  The driver never
      changes an object that is inside a dictionary, so sharing them between
      a dictionary and its copy cannot be observed.
    - [setProperty] and [setObject] always succeed; the source ignores what
      they return.
    - Loops the source bounds itself ([timeout], [pass]) are total functions.
      The loops and the recursion it does not bound take [fuel], and have no
      result ([None]) when [fuel] runs out. *)

From Stdlib Require Import ZArith NArith List String Ascii Bool Lia.
From Stdlib.Strings Require Import Byte.
From stdpp Require Import gmap strings list fin_maps.

#[local] Set Warnings "-register-all,-clear-no-such-hyp".
Import ListNotations.

Local Open Scope string_scope.
Local Open Scope list_scope.

(** ** Objects *)

(** The kinds of [OSObject] a property can hold.  A dictionary is kept with
    its entries in insertion order, as [OSDictionary] keeps them. *)
Inductive OSObject : Type :=
| OSBoolean (b : bool)
| OSNumber (n : Z)
| OSString (s : string)
| OSData (bytes : list byte)
| OSDictionary (dict : list (string * OSObject)).

(** [OSDictionary::setObject]: the value of an existing key is replaced where
    it stands, a new key is added at the end. *)
Fixpoint setObject (key : string) (value : OSObject)
    (dict : list (string * OSObject)) : list (string * OSObject) :=
  match dict with
  | [] => [(key, value)]
  | (k, x) :: rest =>
      if String.eqb k key then (k, value) :: rest
      else (k, x) :: setObject key value rest
  end.

(** [OSDictionary::getObject]. *)
Fixpoint getObject (key : string) (dict : list (string * OSObject))
    : option OSObject :=
  match dict with
  | [] => None
  | (k, x) :: rest => if String.eqb k key then Some x else getObject key rest
  end.

(** ** The registry *)

Inductive IORegistryPlane : Type := gIODTPlane | gIOServicePlane.

Record IORegistryEntry : Type := {
  getName : option string;
  propertyTable : gmap string nat;
  childrenDT : list nat;
  childrenService : list nat
}.

Record Registry : Type := {
  entries : gmap nat IORegistryEntry;
  objects : gmap nat OSObject;
  deviceTreeRoot : option nat
}.

Inductive Event : Type :=
| Slept (ms : N)
| PropertySet (entry : nat) (key : string) (object : nat)
| ServiceRegistered.

Record World : Type := {
  registry : Registry;
  now : N;
  allocs : nat;
  trace : list Event
}.

Definition withRegistry (r : Registry) (w : World) : World :=
  {| registry := r; now := now w; allocs := allocs w; trace := trace w |}.

Definition record (ev : Event) (w : World) : World :=
  {| registry := registry w; now := now w; allocs := allocs w;
     trace := trace w ++ [ev] |}.

(** The four constants of [enum classCode] in [Innie.hpp]. *)
Record classCode : Type := {
  SATADevice : Z;
  NVMeDevice : Z;
  RAIDDevice : Z;
  PCIBridge : Z
}.

(** ** Registry accessors *)

(** [entry->getProperty(key)]: the address of the property's object. *)
Definition getProperty (entry : nat) (key : string) (w : World) : option nat :=
  match entries (registry w) !! entry with
  | Some e => propertyTable e !! key
  | None => None
  end.

(** The object an address holds. *)
Definition objectAt (w : World) (address : nat) : option OSObject :=
  objects (registry w) !! address.

(** [OSDynamicCast(T, p)] for the three classes the driver casts to: the
    object at [p] when it is of class [T], a null pointer otherwise. *)
Definition castOSBoolean (w : World) (p : option nat) : option bool :=
  match p with
  | Some a => match objectAt w a with Some (OSBoolean b) => Some b | _ => None end
  | None => None
  end.

Definition castOSData (w : World) (p : option nat) : option (list byte) :=
  match p with
  | Some a => match objectAt w a with Some (OSData bs) => Some bs | _ => None end
  | None => None
  end.

Definition castOSDictionary (w : World) (p : option nat)
    : option (list (string * OSObject)) :=
  match p with
  | Some a => match objectAt w a with Some (OSDictionary d) => Some d | _ => None end
  | None => None
  end.

(** [OSDynamicCast(OSBoolean, entry->getProperty(key)) == kOSBooleanTrue]. *)
Definition propertyIsTrue (entry : nat) (key : string) (w : World) : bool :=
  match castOSBoolean w (getProperty entry key w) with
  | Some true => true
  | _ => false
  end.

(** [entry->setProperty(key, object)]: the property table now points to
    [object]; whatever it pointed to before is left as it is. *)
Definition setProperty (entry : nat) (key : string) (object : nat) (w : World)
    : World :=
  let r := registry w in
  let update (e : IORegistryEntry) :=
    {| getName := getName e;
       propertyTable := <[key := object]> (propertyTable e);
       childrenDT := childrenDT e;
       childrenService := childrenService e |} in
  record (PropertySet entry key object)
    (withRegistry
       {| entries := alter update entry (entries r);
          objects := objects r;
          deviceTreeRoot := deviceTreeRoot r |} w).

(** [entry->getChildIterator(plane)]: the iterator walks the children the
    entry has when the iterator is made. *)
Definition getChildIterator (entry : nat) (plane : IORegistryPlane) (w : World)
    : list nat :=
  match entries (registry w) !! entry with
  | Some e =>
      match plane with
      | gIODTPlane => childrenDT e
      | gIOServicePlane => childrenService e
      end
  | None => []
  end.

(** The object at [address] is (now) [o]. *)
Definition store (address : nat) (o : OSObject) (w : World) : World :=
  let r := registry w in
  withRegistry
    {| entries := entries r;
       objects := <[address := o]> (objects r);
       deviceTreeRoot := deviceTreeRoot r |} w.

(** [dict->setObject(key, value)] on the dictionary at [address]: that object
    is changed where it is; [value] is the address of the object to put in. *)
Definition dictSetObject (address : nat) (key : string) (value : nat) (w : World)
    : World :=
  match objectAt w address, objectAt w value with
  | Some (OSDictionary d), Some v =>
      store address (OSDictionary (setObject key v d)) w
  | _, _ => w
  end.

(** One more allocation attempt has been made. *)
Definition counted (w : World) : World :=
  {| registry := registry w; now := now w; allocs := S (allocs w);
     trace := trace w |}.

(** ** What a registry says *)

(** The properties of an entry by value. *)
Definition propertyValues (w : World) (e : IORegistryEntry)
    : gmap string OSObject :=
  omap (objectAt w) (propertyTable e).

(** The property state of the registry: the properties of every entry, by
    value. *)
Definition propertyState (w : World) : gmap nat (gmap string OSObject) :=
  propertyValues w <$> entries (registry w).

(** No property table points to an address that holds no object. *)
Definition wellFormed (w : World) : Prop :=
  map_Forall
    (fun _ e => map_Forall (fun _ a => is_Some (objectAt w a)) (propertyTable e))
    (entries (registry w)).

#[global] Instance wellFormed_dec (w : World) : Decision (wellFormed w).
Proof. unfold wellFormed. apply _. Defined.

(** The value of one property of an entry. *)
Definition propertyValue (entry : nat) (key : string) (w : World)
    : option OSObject :=
  match getProperty entry key w with
  | Some a => objectAt w a
  | None => None
  end.

(** No property table points to [a]. *)
Definition unreferenced (a : nat) (w : World) : Prop :=
  forall e ent k,
    entries (registry w) !! e = Some ent -> propertyTable ent !! k <> Some a.

(** Every object of [w] is in [w'], unchanged. *)
Definition objectsKept (w w' : World) : Prop :=
  forall a o, objectAt w a = Some o -> objectAt w' a = Some o.

(** What [Innie::updateOtherProperties] is to do to the properties of an
    entry, on the properties by value and without the object store: the
    interconnect location is set; an icon dictionary gets the resource file;
    a protocol characteristics dictionary gets the interconnect location,
    one is made when the property is not there, and a property that is not
    a dictionary stays; [built-in] is set. *)
Definition annotateIcon (m : gmap string OSObject) : gmap string OSObject :=
  match m !! "IOMediaIcon" with
  | Some (OSDictionary d) =>
      <["IOMediaIcon" :=
          OSDictionary (setObject "IOBundleResourceFile" (OSString "Internal.icns") d)]> m
  | _ => m
  end.

Definition annotateProtocol (m : gmap string OSObject) : gmap string OSObject :=
  match m !! "Protocol Characteristics" with
  | Some (OSDictionary d) =>
      <["Protocol Characteristics" :=
          OSDictionary (setObject "Physical Interconnect Location" (OSString "Internal") d)]> m
  | Some _ => m
  | None =>
      <["Protocol Characteristics" :=
          OSDictionary [("Physical Interconnect Location", OSString "Internal")]]> m
  end.

Definition annotateBuiltIn (m : gmap string OSObject) : gmap string OSObject :=
  <["built-in" := OSData [x01]]> m.

Definition annotate (m : gmap string OSObject) : gmap string OSObject :=
  annotateBuiltIn
    (annotateProtocol
       (annotateIcon (<["Physical Interconnect Location" := OSString "Internal"]> m))).

(** Whether a property is the boolean true, read from the property state. *)
Definition stateIsTrue (state : gmap nat (gmap string OSObject)) (entry : nat)
    (key : string) : bool :=
  match state !! entry ≫= (fun m => m !! key) with
  | Some (OSBoolean true) => true
  | _ => false
  end.

(** One pass of the annotation on the property state: the update on the
    node, then on each entry of [drivers] that is not the node. *)
Definition annotatePass (entry : nat) (drivers : list nat)
    (state : gmap nat (gmap string OSObject)) : gmap nat (gmap string OSObject) :=
  fold_left
    (fun state d => if Nat.eqb d entry then state else alter annotate d state)
    drivers (alter annotate entry state).

(** The annotation sequence on the property state: [built-in] at once, and
    three passes when the node is resourced. *)
Definition annotateDevice (entry : nat) (drivers : list nat)
    (state : gmap nat (gmap string OSObject)) : gmap nat (gmap string OSObject) :=
  let state1 := alter annotateBuiltIn entry state in
  if stateIsTrue state1 entry "IOPCIResourced" then
    annotatePass entry drivers
      (annotatePass entry drivers (annotatePass entry drivers state1))
  else state1.

(** Names and links of the entries: the registry without the properties. *)
Definition topology (w : World)
    : gmap nat (option string * list nat * list nat) :=
  (fun e => (getName e, childrenDT e, childrenService e)) <$> entries (registry w).

(** From [w] to [w'] the driver has called [setProperty] on [entry] and has
    neither slept nor called it on another entry. *)
Definition writesTo (entry : nat) (w w' : World) : Prop :=
  exists t,
    trace w' = trace w ++ t /\
    Forall (fun ev => exists key a, ev = PropertySet entry key a) t.

(** [d] is below [e] in [plane]. *)
Inductive descendant (plane : IORegistryPlane) (w : World) : nat -> nat -> Prop :=
| descendant_child e d :
    In d (getChildIterator e plane w) -> descendant plane w e d
| descendant_below e c d :
    In c (getChildIterator e plane w) -> descendant plane w c d ->
    descendant plane w e d.

(** What the recursive iterator has done when it has walked [level] from
    the set [done] of entered entries and has yielded [out] and entered
    [done']: the entries yielded are entered, every entry of [level] is
    yielded, every child of a newly entered entry is entered, and whatever
    is yielded is an entry of [level] or below one. *)
Definition iteratorSpec (plane : IORegistryPlane) (w : World) (done : gset nat)
    (level out : list nat) (done' : gset nat) : Prop :=
  done' = done ∪ list_to_set out /\
  (forall x, x ∈ level -> x ∈ out) /\
  (forall x, x ∈ done' -> x ∉ done ->
             forall c, c ∈ getChildIterator x plane w -> c ∈ done') /\
  (forall y, y ∈ out -> exists l, l ∈ level /\ (y = l \/ descendant plane w l y)).

(** [w'] is a registry without dangling property, with the links of [w] and
    with the property state that [f] makes of the property state of [w]. *)
Definition refines (f : gmap nat (gmap string OSObject) -> gmap nat (gmap string OSObject))
    (w w' : World) : Prop :=
  wellFormed w' /\ propertyState w' = f (propertyState w) /\ topology w' = topology w.

Section Driver.

(** What the rest of the kernel (bus enumeration, driver matching) does to
    the registry during a sleep that starts at time [t] and lasts [ms]. *)
Variable external : N -> N -> Registry -> Registry.

(** Whether the [n]-th allocation attempt (counted from 0) fails. *)
Variable allocFails : nat -> bool.

Variable codes : classCode.

(** [IOSleep(ms)]. *)
Definition IOSleep (ms : N) (w : World) : World :=
  {| registry := external (now w) ms (registry w);
     now := (now w + ms)%N;
     allocs := allocs w;
     trace := trace w ++ [Slept ms] |}.

(** The constructors [OSString::withCString], [OSData::withBytes],
    [OSDictionary::withDictionary] and [OSDictionary::withCapacity]: a new
    object at an address not in use, or a null pointer. *)
Definition allocate (o : OSObject) (w : World) : option nat * World :=
  if allocFails (allocs w) then (None, counted w)
  else
    let a := fresh (dom (objects (registry w))) in
    (Some a, store a o (counted w)).

(** ** [Innie::setBuiltIn] *)

Definition setBuiltIn (entry : option nat) (w : World) : World :=
  match entry with
  | Some entry =>
      match allocate (OSData [x01]) w with
      | (Some builtInData, w1) => setProperty entry "built-in" builtInData w1
      | (None, w1) => w1
      end
  | None => w
  end.

(** ** [Innie::updateOtherProperties] *)

Definition updateIcon (entry internalIcon : nat) (w : World) : World :=
  match getProperty entry "IOMediaIcon" w with
  | Some icon =>
      match castOSDictionary w (Some icon) with
      | Some dict =>
          match allocate (OSDictionary dict) w with
          | (Some dict', w1) =>
              setProperty entry "IOMediaIcon" dict'
                (dictSetObject dict' "IOBundleResourceFile" internalIcon w1)
          | (None, w1) => w1
          end
      | None => w
      end
  | None => w
  end.

Definition updateProtocol (entry internal : nat) (w : World) : World :=
  match getProperty entry "Protocol Characteristics" w with
  | Some proto =>
      match castOSDictionary w (Some proto) with
      | Some dict =>
          match allocate (OSDictionary dict) w with
          | (Some dict', w1) =>
              setProperty entry "Protocol Characteristics" dict'
                (dictSetObject dict' "Physical Interconnect Location" internal w1)
          | (None, w1) => w1
          end
      | None => w
      end
  | None =>
      match allocate (OSDictionary []) w with
      | (Some newDict, w1) =>
          setProperty entry "Protocol Characteristics" newDict
            (dictSetObject newDict "Physical Interconnect Location" internal w1)
      | (None, w1) => w1
      end
  end.

Definition updateOtherProperties (entry : option nat) (w : World) : World :=
  match entry with
  | None => w
  | Some e =>
      let (internal, w1) := allocate (OSString "Internal") w in
      let (internalIcon, w2) := allocate (OSString "Internal.icns") w1 in
      match internal, internalIcon with
      | Some internal, Some internalIcon =>
          let w3 := setProperty e "Physical Interconnect Location" internal w2 in
          let w4 := updateIcon e internalIcon w3 in
          let w5 := updateProtocol e internal w4 in
          setBuiltIn entry w5
      | _, _ => w2
      end
  end.

(** ** The timed waits *)

(** [int timeout = n; while (!flag && timeout-- > 0) IOSleep(10);] for the
    flag [key] of [entry]; the result is the final value of [timeout].  The
    counter is a [nat] while the loop runs: [timeout-- > 0] on a counter
    [S t] holds and leaves [t]; on [0] it fails and leaves [-1]. *)
Fixpoint waitForFlag (key : string) (entry : nat) (timeout : nat) (w : World)
    : Z * World :=
  if propertyIsTrue entry key w then (Z.of_nat timeout, w)
  else
    match timeout with
    | O => ((-1)%Z, w)
    | S timeout' => waitForFlag key entry timeout' (IOSleep 10 w)
    end.

(** [while (!configured) IOSleep(10);] has no bound of its own: [None] when
    the flag is not seen within [fuel] polls. *)
Fixpoint waitConfigured (fuel : nat) (entry : nat) (w : World) : option World :=
  if propertyIsTrue entry "IOPCIConfigured" w then Some w
  else
    match fuel with
    | O => None
    | S fuel' => waitConfigured fuel' entry (IOSleep 10 w)
    end.

(** The world after [n] rounds of a wait loop. *)
Fixpoint afterSleeps (n : nat) (w : World) : World :=
  match n with
  | O => w
  | S n' => afterSleeps n' (IOSleep 10 w)
  end.

(** The flag [key] of [entry] is not true at any of the first [n] checks of
    a wait loop that starts in [w]. *)
Fixpoint unseenFor (key : string) (entry : nat) (n : nat) (w : World) : bool :=
  match n with
  | O => true
  | S n' =>
      negb (propertyIsTrue entry key w) && unseenFor key entry n' (IOSleep 10 w)
  end.

(** ** [IORegistryIterator] with [kIORegistryIterateRecursively] *)

(** The entries below [level], depth first, parents before children.  An
    entry is yielded each time it is met and entered the first time only
    ([done] is the iterator's set of entered entries).  [depth] bounds how
    deep the iterator goes. *)
Fixpoint iterateRecursively (plane : IORegistryPlane) (w : World) (depth : nat)
    {struct depth} : gset nat -> list nat -> list nat * gset nat :=
  fix siblings (done : gset nat) (level : list nat) {struct level}
      : list nat * gset nat :=
    match level with
    | [] => ([], done)
    | next :: rest =>
        if decide (next ∈ done) then
          let (after, done') := siblings done rest in
          (next :: after, done')
        else
          let (below, done1) :=
            match depth with
            | O => ([], {[next]} ∪ done)
            | S depth' =>
                iterateRecursively plane w depth' ({[next]} ∪ done)
                  (getChildIterator next plane w)
            end in
          let (after, done2) := siblings done1 rest in
          (next :: below ++ after, done2)
    end.

(** [IORegistryIterator::iterateOver(entry, plane, kIORegistryIterateRecursively)]
    read to its end.  [entry] itself is where the iterator starts and is not
    in its set of entered entries.  No chain of entered entries is longer
    than the number of entries of the registry. *)
Definition iterateOver (entry : nat) (plane : IORegistryPlane) (w : World)
    : list nat :=
  fst (iterateRecursively plane w (size (entries (registry w))) ∅
         (getChildIterator entry plane w)).

(** ** [Innie::internalizeDevice] *)

(** The loop over the driver entries of one pass.  The source reads the
    iterator while it updates the entries; the updates change no link of the
    registry, so here the iterator is read to its end first. *)
Definition updateDriverEntries (entry : nat) (w : World) : World :=
  fold_left
    (fun w driverEntry =>
       if Nat.eqb driverEntry entry then w
       else updateOtherProperties (Some driverEntry) w)
    (iterateOver entry gIOServicePlane w) w.

(** [for (int pass = ...; pass < 3; pass++)], from the value [pass]; [n]
    bounds the number of passes still to make. *)
Fixpoint updatePasses (entry : nat) (n : nat) (pass : Z) (w : World) : World :=
  match n with
  | O => w
  | S n' =>
      if (pass <? 3)%Z then
        let w1 := updateOtherProperties (Some entry) w in
        let w2 := updateDriverEntries entry w1 in
        let w3 := if (pass <? 2)%Z then IOSleep 100 w2 else w2 in
        updatePasses entry n' (pass + 1)%Z w3
      else w
  end.

Definition internalizeDevice (entry : nat) (w : World) : World :=
  let w1 := setBuiltIn (Some entry) w in
  let (timeout, w2) := waitForFlag "IOPCIResourced" entry 2000 w1 in
  if (timeout <=? 0)%Z then w2
  else updatePasses entry 3 0%Z w2.

(** One pass as the specification words it: the update on the node, then
    on every entry the recursive iterator of the service plane yields below
    the node, the node itself left out. *)
Definition passTargets (entry : nat) (w : World) : list nat :=
  List.filter (fun d => negb (Nat.eqb d entry))
    (iterateOver entry gIOServicePlane (updateOtherProperties (Some entry) w)).

Definition onePass (entry : nat) (w : World) : World :=
  fold_left (fun w d => updateOtherProperties (Some d) w)
    (passTargets entry w) (updateOtherProperties (Some entry) w).

(** ** [Innie::recurseBridge] *)

Definition byteValue (b : byte) : Z := Z.of_N (Byte.to_N b).

(** [*(uint32_t * )codeData->getBytesNoCopy()] on a little-endian machine.
    With fewer than four bytes the source reads past the end of the data:
    no value. *)
Definition readUInt32 (bytes : list byte) : option Z :=
  match bytes with
  | b0 :: b1 :: b2 :: b3 :: _ =>
      Some (Z.lor (byteValue b0)
             (Z.lor (Z.shiftl (byteValue b1) 8)
                (Z.lor (Z.shiftl (byteValue b2) 16)
                       (Z.shiftl (byteValue b3) 24))))
  | _ => None
  end.

(** [code == classCode::SATADevice || ...]: [code] is a [uint32_t]; the
    constants are compared as the integers they are. *)
Definition isStorageCode (code : Z) : bool :=
  (code =? SATADevice codes)%Z || (code =? NVMeDevice codes)%Z
  || (code =? RAIDDevice codes)%Z.

(** The body of the loop over the children of a bridge; [recurse] is the
    recursive call.  [None]: no result ([recurse] gave none, or the class
    code was read past the end of its data). *)
Definition visitChild (recurse : nat -> World -> option World)
    (childEntry : nat) (w : World) : option World :=
  match getProperty childEntry "class-code" w with
  | Some class_code =>
      match castOSData w (Some class_code) with
      | Some codeData =>
          match readUInt32 codeData with
          | Some code =>
              if isStorageCode code then Some (internalizeDevice childEntry w)
              else if (code =? PCIBridge codes)%Z then
                let (timeout, w1) :=
                  waitForFlag "IOPCIConfigured" childEntry 1000 w in
                if (timeout >? 0)%Z then recurse childEntry w1 else Some w1
              else Some w
          | None => None
          end
      | None => Some w
      end
  | None => Some w
  end.

(** [while ((e = iterator->getNextObject()) != nullptr) body]. *)
Fixpoint forEachEntry (body : nat -> World -> option World)
    (iterator : list nat) (w : World) : option World :=
  match iterator with
  | [] => Some w
  | e :: rest =>
      match body e w with
      | Some w' => forEachEntry body rest w'
      | None => None
      end
  end.

(** The class code the walker reads from [entry], when [entry] has a
    [class-code] property that is an [OSData] of four bytes or more. *)
Definition classCodeOf (entry : nat) (w : World) : option Z :=
  match castOSData w (getProperty entry "class-code" w) with
  | Some codeData => readUInt32 codeData
  | None => None
  end.

(** A recursive call that is refused, with no result, on a bridge whose
    [IOPCIConfigured] is not true when the call is made. *)
Definition whenConfigured (recurse : nat -> World -> option World)
    (entry : nat) (w : World) : option World :=
  if propertyIsTrue entry "IOPCIConfigured" w then recurse entry w else None.

(** [fuel] bounds the depth of the recursion and, in [Innie::processRoot],
    the number of rounds of the loops that have no bound of their own. *)
Fixpoint recurseBridge (fuel : nat) (entry : nat) (w : World) : option World :=
  match fuel with
  | O => None
  | S fuel' =>
      forEachEntry (visitChild (recurseBridge fuel'))
        (getChildIterator entry gIODTPlane w) w
  end.

(** The walker as the specification words its invariant: the same walk, in
    which every recursive call, at every depth, is refused on a bridge whose
    [IOPCIConfigured] is not true when the call is made. *)
Fixpoint recurseBridgeWhenConfigured (fuel : nat) (entry : nat) (w : World)
    : option World :=
  match fuel with
  | O => None
  | S fuel' =>
      forEachEntry (visitChild (whenConfigured (recurseBridgeWhenConfigured fuel')))
        (getChildIterator entry gIODTPlane w) w
  end.

(** ** [Innie::processRoot] *)

(** [strncmp(s1, s2, n)]. *)
Fixpoint strncmp (s1 s2 : string) (n : nat) : Z :=
  match n with
  | O => 0%Z
  | S n' =>
      match s1, s2 with
      | EmptyString, EmptyString => 0%Z
      | EmptyString, String c2 _ => (- Z.of_nat (nat_of_ascii c2))%Z
      | String c1 _, EmptyString => Z.of_nat (nat_of_ascii c1)
      | String c1 r1, String c2 r2 =>
          if Ascii.eqb c1 c2 then strncmp r1 r2 n'
          else (Z.of_nat (nat_of_ascii c1) - Z.of_nat (nat_of_ascii c2))%Z
      end
  end.

(** [name && !strncmp("PC", name, 2)] for [name = pciRoot->getName()]. *)
Definition isPCIRoot (pciRoot : nat) (w : World) : bool :=
  match entries (registry w) !! pciRoot with
  | Some e =>
      match getName e with
      | Some name => (strncmp "PC" name 2 =? 0)%Z
      | None => false
      end
  | None => false
  end.

(** The inner [while] over the children of the root, from the values
    [ready] and [found]; the result has their values when the loop is left,
    by [break] or at the end of the iterator. *)
Fixpoint scanRoots (fuel : nat) (iterator : list nat) (ready found : bool)
    (w : World) : option (bool * bool * World) :=
  match iterator with
  | [] => Some (ready, found, w)
  | pciRoot :: rest =>
      if isPCIRoot pciRoot w then
        if ready then
          match waitConfigured fuel pciRoot w with
          | Some w1 =>
              match recurseBridge fuel pciRoot w1 with
              | Some w2 => scanRoots fuel rest ready true w2
              | None => None
              end
          | None => None
          end
        else Some (true, found, IOSleep 1000 w)
      else scanRoots fuel rest ready found w
  end.

(** The [do ... while (repeat++ < 0x10000000 && !found)] loop; the result
    has the final value of [found]. *)
Fixpoint rootLoop (fuel : nat) (entry : nat) (ready found : bool) (repeat : N)
    (w : World) : option (bool * World) :=
  match fuel with
  | O => None
  | S fuel' =>
      match scanRoots fuel' (getChildIterator entry gIODTPlane w) ready found w with
      | Some (ready', found', w') =>
          if (repeat <? 0x10000000)%N && negb found' then
            rootLoop fuel' entry ready' found' (repeat + 1)%N w'
          else Some (found', w')
      | None => None
      end
  end.

(** [IORegistryEntry::fromPath("/", gIODTPlane)] is the root of the device
    tree, if there is one. *)
Definition processRoot (fuel : nat) (w : World) : option World :=
  match deviceTreeRoot (registry w) with
  | Some entry =>
      match rootLoop fuel entry false false 0%N w with
      | Some (_, w') => Some w'
      | None => None
      end
  | None => Some w
  end.

(** ** [Innie::start] *)

(** [superStart] is what [IOService::start(provider)] returns. *)
Definition start (superStart : bool) (fuel : nat) (w : World)
    : option (bool * World) :=
  if negb superStart then Some (false, w)
  else
    match processRoot fuel w with
    | Some w1 => Some (true, record ServiceRegistered w1)
    | None => None
    end.

(** ** [Innie::init] and [Innie::probe] *)

(** [superInit] is what [IOService::init()] returns; the dictionary the
    function is given is not looked at. *)
Definition init (superInit : bool) : bool :=
  if negb superInit then false else true.

(** [superProbe] is what [IOService::probe(provider, score)] returns, [this]
    the driver itself; the score is not changed. *)
Definition probe (superProbe : option nat) (this : nat) : option nat :=
  match superProbe with
  | None => None
  | Some _ => Some this
  end.

End Driver.



(** ** Concrete registries *)

(** No interference and no allocation failure. *)
Definition quiet : N -> N -> Registry -> Registry := fun _ _ r => r.
Definition neverFails : nat -> bool := fun _ => false.

(** The PCI class codes (base class, sub-class, interface) of the four
    device classes. *)
Definition pciCodes : classCode :=
  {| SATADevice := 0x010601; NVMeDevice := 0x010802;
     RAIDDevice := 0x010400; PCIBridge := 0x060400 |}.

Definition mkEntry (name : string) (properties : list (string * nat))
    (dt service : list nat) : IORegistryEntry :=
  {| getName := Some name;
     propertyTable := list_to_map properties;
     childrenDT := dt;
     childrenService := service |}.

Definition mkWorld (es : list (nat * IORegistryEntry))
    (os : list (nat * OSObject)) (root : option nat) : World :=
  {| registry := {| entries := list_to_map es;
                    objects := list_to_map os;
                    deviceTreeRoot := root |};
     now := 0; allocs := 0; trace := [] |}.

(** Objects shared by the examples: the two booleans and the class codes. *)
Definition sharedObjects : list (nat * OSObject) :=
  [ (0, OSBoolean false); (1, OSBoolean true);
    (2, OSData [x02; x08; x01; x00]);     (* NVMe *)
    (3, OSData [x01; x06; x01; x00]);     (* SATA *)
    (4, OSData [x00; x04; x06; x00]);     (* PCI-to-PCI bridge *)
    (5, OSData [x00; x04; x01; x00]);     (* RAID *)
    (6, OSData [x00; x00; x03; x00]) ].   (* a display controller *)

(** The registry of the specification's end-to-end scenario: two bus roots;
    the second has an NVMe controller and a bridge with a SATA controller
    behind it.  The NVMe controller has a driver attached in the service
    plane. *)
Definition scenario : World :=
  mkWorld
    [ (100, mkEntry "device-tree" [] [10; 11] []);
      (10, mkEntry "PC00" [("IOPCIConfigured", 1)] [] []);
      (11, mkEntry "PC01" [("IOPCIConfigured", 1)] [20; 21] []);
      (20, mkEntry "NVME" [("class-code", 2); ("IOPCIResourced", 1)] [] [30]);
      (21, mkEntry "BRG0" [("class-code", 4); ("IOPCIConfigured", 1)] [22] []);
      (22, mkEntry "SATA" [("class-code", 3); ("IOPCIResourced", 1)] [] []);
      (30, mkEntry "IONVMeController" [] [] []) ]
    sharedObjects (Some 100).



(** A bridge (21) with a SATA controller (22) behind it, an NVMe controller
    (20), a display controller (23) and an entry whose [class-code] is a
    boolean (24), all children of the bus root 11; neither the bridge nor the
    NVMe controller is ready. *)
Definition pending : World :=
  mkWorld
    [ (100, mkEntry "device-tree" [] [10; 11] []);
      (10, mkEntry "PC00" [("IOPCIConfigured", 1)] [] []);
      (11, mkEntry "PC01" [("IOPCIConfigured", 1)] [21; 20; 23; 24] []);
      (20, mkEntry "NVME" [("class-code", 2); ("IOPCIResourced", 0)] [] [30]);
      (21, mkEntry "BRG0" [("class-code", 4)] [22] []);
      (22, mkEntry "SATA" [("class-code", 3); ("IOPCIResourced", 1)] [] []);
      (23, mkEntry "GFX0" [("class-code", 6)] [] []);
      (24, mkEntry "ODD0" [("class-code", 1)] [] []);
      (30, mkEntry "IONVMeController" [] [] []) ]
    sharedObjects (Some 100).



(** No bus root. *)
Definition noRoots : World :=
  mkWorld
    [ (100, mkEntry "device-tree" [] [12; 13] []);
      (12, mkEntry "cpus" [] [] []);
      (13, mkEntry "P" [] [] []) ]
    sharedObjects (Some 100).

(** A disk with an icon and protocol characteristics that say external. *)
Definition labelledEntry : IORegistryEntry :=
  mkEntry "disk" [("IOMediaIcon", 50); ("Protocol Characteristics", 51)] [] [].

Definition labelled : World :=
  mkWorld [ (40, labelledEntry) ]
    [ (50, OSDictionary
             [("CFBundleIdentifier", OSString "com.apple.iokit.IOStorageFamily");
              ("IOBundleResourceFile", OSString "External.icns")]);
      (51, OSDictionary
             [("Physical Interconnect", OSString "PCI-Express");
              ("Physical Interconnect Location", OSString "External")]) ]
    None.

(** A disk whose protocol characteristics are a string. *)
Definition mislabelledEntry : IORegistryEntry :=
  mkEntry "disk" [("Protocol Characteristics", 51)] [] [].

Definition mislabelled : World :=
  mkWorld [ (40, mislabelledEntry) ] [ (51, OSString "PCI-Express") ] None.

(** The second allocation attempt fails, and no other. *)
Definition secondFails : nat -> bool := fun n => Nat.eqb n 1.

(** Two disks that share one icon dictionary. *)
Definition sharedIcon : World :=
  mkWorld
    [ (40, mkEntry "disk0" [("IOMediaIcon", 50)] [] []);
      (41, mkEntry "disk1" [("IOMediaIcon", 50)] [] []) ]
    [ (50, OSDictionary [("IOBundleResourceFile", OSString "External.icns")]) ]
    None.

(** A bridge (21) with a display controller (23), an entry whose
    [class-code] is a boolean (24) and an entry without class code (25). *)
Definition displayOnly : World :=
  mkWorld
    [ (21, mkEntry "BRG0" [("class-code", 4)] [23; 24; 25] []);
      (23, mkEntry "GFX0" [("class-code", 6)] [] []);
      (24, mkEntry "ODD0" [("class-code", 0)] [] []);
      (25, mkEntry "PWRB" [] [] []) ]
    sharedObjects None.

(** ** What the driver may do *)

(** The property keys the driver writes. *)
Definition annotationKeys : list string :=
  ["built-in"; "Physical Interconnect Location"; "IOMediaIcon";
   "Protocol Characteristics"].

Definition isAnnotationKey (key : string) : bool :=
  existsb (String.eqb key) annotationKeys.

(** The events of a traversal: a sleep of one of the three lengths the
    source has, or a write to one of the four keys. *)
Definition annotationEvent (ev : Event) : bool :=
  match ev with
  | Slept ms => (ms =? 10)%N || (ms =? 100)%N || (ms =? 1000)%N
  | PropertySet _ key _ => isAnnotationKey key
  | ServiceRegistered => false
  end.

(** A write to one of the four keys. *)
Definition writeEvent (ev : Event) : bool :=
  match ev with
  | PropertySet _ key _ => isAnnotationKey key
  | _ => false
  end.

(** The time the sleeps of a trace take. *)
Definition slept (t : list Event) : N :=
  fold_right
    (fun ev total => match ev with Slept ms => (ms + total)%N | _ => total end)
    0%N t.

(** From [w] to [w'] the driver has done events that [allowed] accepts and
    nothing else, and the clock has advanced by the sleeps among them. *)
Definition steps (allowed : Event -> bool) (w w' : World) : Prop :=
  exists t,
    trace w' = trace w ++ t /\ forallb allowed t = true /\
    now w' = (now w + slept t)%N.

(** From [w] to [w'] the driver has done nothing but events of a traversal. *)
Definition onlyAnnotates (w w' : World) : Prop := steps annotationEvent w w'.

(** The bytes read as a number, the low byte first. *)
Definition littleEndian (bytes : list byte) : Z :=
  fold_right (fun b rest => (Z.of_N (Byte.to_N b) + 256 * rest)%Z) 0%Z bytes.

(** From [w] to [w'] the registry is kept in order: no property dangles,
    names and links are as they were, every object is kept, and every
    property under a key that is not one of the four has its value. *)
Definition keepsRegistry (w w' : World) : Prop :=
  wellFormed w' /\ topology w' = topology w /\ objectsKept w w' /\
  forall e k,
    isAnnotationKey k = false -> propertyValue e k w' = propertyValue e k w.

(** The same, of a registry without dangling property. *)
Definition keptInOrder (w w' : World) : Prop := wellFormed w -> keepsRegistry w w'.

(** No entry is more than [n] links below [entry] in [plane]. *)
Fixpoint heightAtMost (plane : IORegistryPlane) (w : World) (n : nat)
    (entry : nat) : bool :=
  match n with
  | O => match getChildIterator entry plane w with [] => true | _ => false end
  | S n' => forallb (heightAtMost plane w n') (getChildIterator entry plane w)
  end.

(** A [class-code] of the entry that is data has the four bytes the walker
    reads. *)
Definition codeReadable (w : World) (e : IORegistryEntry) : bool :=
  match propertyTable e !! "class-code" ≫= objectAt w with
  | Some (OSData bytes) => (4 <=? length bytes)%nat
  | _ => true
  end.

Definition codesReadable (w : World) : Prop :=
  map_Forall (fun _ e => codeReadable w e = true) (entries (registry w)).

#[global] Instance codesReadable_dec (w : World) : Decision (codesReadable w).
Proof. unfold codesReadable. apply _. Defined.

(** [d] is a storage controller that the walker comes to from [bridge]
    when the registry stays as it is: a child of [bridge] with one of the
    three storage class codes, or such a controller behind a child that has
    the class code of a bridge and is configured. *)
Inductive walked (codes : classCode) (w : World) : nat -> nat -> Prop :=
| walked_storage bridge d code :
    In d (getChildIterator bridge gIODTPlane w) ->
    classCodeOf d w = Some code ->
    isStorageCode codes code = true ->
    walked codes w bridge d
| walked_bridge bridge c d :
    In c (getChildIterator bridge gIODTPlane w) ->
    classCodeOf c w = Some (PCIBridge codes) ->
    isStorageCode codes (PCIBridge codes) = false ->
    propertyIsTrue c "IOPCIConfigured" w = true ->
    walked codes w c d ->
    walked codes w bridge d.

(** From [w] to [w'] every entry has the properties it had, or these with
    [built-in], or these annotated. *)
Definition annotatedOrKept (w w' : World) : Prop :=
  forall x,
    propertyState w' !! x = propertyState w !! x \/
    propertyState w' !! x = annotateBuiltIn <$> propertyState w !! x \/
    propertyState w' !! x = annotate <$> propertyState w !! x.

(** Both, of a registry without dangling property. *)
Definition annotatedInOrder (w w' : World) : Prop :=
  wellFormed w -> keepsRegistry w w' /\ annotatedOrKept w w'.

(** The scenario when the traversal is over. *)
Definition scenarioDone : World :=
  default scenario (processRoot quiet neverFails pciCodes 5 scenario).

(** A bus root that is never configured. *)
Definition stalled : World :=
  mkWorld
    [ (100, mkEntry "device-tree" [] [12; 10] []);
      (12, mkEntry "cpus" [] [] []);
      (10, mkEntry "PC00" [("IOPCIConfigured", 0)] [20] []);
      (20, mkEntry "NVME" [("class-code", 2); ("IOPCIResourced", 1)] [] []) ]
    sharedObjects (Some 100).

(** The kernel attaches the driver [child] to [parent] in the service plane
    at time [t0]. *)
Definition attachesAt (t0 : N) (parent child : nat)
    : N -> N -> Registry -> Registry :=
  fun t ms r =>
    if (t0 <=? t + ms)%N then
      {| entries :=
           alter (fun e => {| getName := getName e;
                              propertyTable := propertyTable e;
                              childrenDT := childrenDT e;
                              childrenService := [child] |})
             parent (entries r);
         objects := objects r;
         deviceTreeRoot := deviceTreeRoot r |}
    else r.

(** An NVMe controller (20) that is resourced, and the driver (30) that is
    not attached to it yet. *)
Definition unattached : World :=
  mkWorld
    [ (20, mkEntry "NVME" [("class-code", 2); ("IOPCIResourced", 1)] [] []);
      (30, mkEntry "IONVMeController" [] [] []) ]
    sharedObjects None.

(** * Properties *)

Section Properties.

Variable external : N -> N -> Registry -> Registry.
Variable allocFails : nat -> bool.
Variable codes : classCode.

Local Abbreviation IOSleep := (IOSleep external).
Local Abbreviation afterSleeps := (afterSleeps external).
Local Abbreviation unseenFor := (unseenFor external).
Local Abbreviation waitForFlag := (waitForFlag external).
Local Abbreviation waitConfigured := (waitConfigured external).
Local Abbreviation allocate := (allocate allocFails).
Local Abbreviation setBuiltIn := (setBuiltIn allocFails).
Local Abbreviation updateIcon := (updateIcon allocFails).
Local Abbreviation updateProtocol := (updateProtocol allocFails).
Local Abbreviation updateOtherProperties := (updateOtherProperties allocFails).
Local Abbreviation updateDriverEntries := (updateDriverEntries allocFails).
Local Abbreviation passTargets := (passTargets allocFails).
Local Abbreviation onePass := (onePass allocFails).
Local Abbreviation updatePasses := (updatePasses external allocFails).
Local Abbreviation internalizeDevice := (internalizeDevice external allocFails).
Local Abbreviation isStorageCode := (isStorageCode codes).
Local Abbreviation visitChild := (visitChild external allocFails codes).
Local Abbreviation recurseBridge := (recurseBridge external allocFails codes).
Local Abbreviation recurseBridgeWhenConfigured :=
  (recurseBridgeWhenConfigured external allocFails codes).
Local Abbreviation scanRoots := (scanRoots external allocFails codes).
Local Abbreviation rootLoop := (rootLoop external allocFails codes).
Local Abbreviation processRoot := (processRoot external allocFails codes).
Local Abbreviation start := (start external allocFails codes).

(** ** The timed waits *)

Lemma waitForFlag_unseen key entry n w :
  unseenFor key entry n w = true ->
  snd (waitForFlag key entry n w) = afterSleeps n w /\
  (fst (waitForFlag key entry n w) <= 0)%Z.
Proof.
  revert w. induction n as [|n IH]; intros w H; simpl in *.
  - destruct (propertyIsTrue entry key w); simpl; split; auto; lia.
  - apply andb_prop in H as [Hf Hrest].
    apply negb_true_iff in Hf. rewrite Hf. auto.
Qed.

Lemma waitForFlag_seen key entry n w :
  unseenFor key entry n w = false ->
  (0 < fst (waitForFlag key entry n w))%Z /\
  propertyIsTrue entry key (snd (waitForFlag key entry n w)) = true.
Proof.
  revert w. induction n as [|n IH]; intros w H; simpl in *; [discriminate|].
  destruct (propertyIsTrue entry key w) eqn:Hf; simpl in *.
  - split; [lia | exact Hf].
  - auto.
Qed.

Lemma waitForFlag_positive key entry n w :
  (fst (waitForFlag key entry n w) >? 0)%Z = negb (unseenFor key entry n w).
Proof.
  destruct (unseenFor key entry n w) eqn:H; simpl.
  - apply waitForFlag_unseen in H as [_ H]. lia.
  - apply waitForFlag_seen in H as [H _]. lia.
Qed.

Lemma waitForFlag_nonpositive key entry n w :
  (fst (waitForFlag key entry n w) <=? 0)%Z = unseenFor key entry n w.
Proof.
  pose proof (waitForFlag_positive key entry n w) as H.
  destruct (unseenFor key entry n w); simpl in H; lia.
Qed.

Lemma afterSleeps_trace n w :
  trace (afterSleeps n w) = trace w ++ repeat (Slept 10) n.
Proof.
  revert w. induction n as [|n IH]; intros w; simpl.
  - rewrite app_nil_r. reflexivity.
  - rewrite IH. simpl. rewrite <- app_assoc. reflexivity.
Qed.

(** ** The object store and the property tables *)

Lemma objectAt_store a o w b :
  objectAt (store a o w) b = if decide (a = b) then Some o else objectAt w b.
Proof. unfold objectAt, store. simpl. apply lookup_insert. Qed.

Lemma objectAt_setProperty e k a w b :
  objectAt (setProperty e k a w) b = objectAt w b.
Proof. reflexivity. Qed.

Lemma objectsKept_refl w : objectsKept w w.
Proof. intros a o H. exact H. Qed.

Lemma objectsKept_trans w1 w2 w3 :
  objectsKept w1 w2 -> objectsKept w2 w3 -> objectsKept w1 w3.
Proof. intros H12 H23 a o H. auto. Qed.

Lemma objectsKept_store a o w :
  objectAt w a = None -> objectsKept w (store a o w).
Proof.
  intros Hnew b x Hb. rewrite objectAt_store.
  destruct (decide (a = b)) as [->|]; [congruence|exact Hb].
Qed.

Lemma wellFormed_unreferenced w a :
  wellFormed w -> objectAt w a = None -> unreferenced a w.
Proof.
  intros Hwf Hnone e ent k He Hk.
  destruct (Hwf e ent He k a Hk) as [o Ho]. congruence.
Qed.

Lemma propertyValues_store a o w ent :
  (forall k, propertyTable ent !! k <> Some a) ->
  propertyValues (store a o w) ent = propertyValues w ent.
Proof.
  intros Hun. unfold propertyValues. apply map_eq. intros k.
  rewrite !lookup_omap. destruct (propertyTable ent !! k) as [b|] eqn:Hk; simpl.
  - rewrite objectAt_store. destruct (decide (a = b)) as [->|]; [|reflexivity].
    exfalso. exact (Hun k Hk).
  - reflexivity.
Qed.

Lemma propertyState_store a o w :
  unreferenced a w -> propertyState (store a o w) = propertyState w.
Proof.
  intros Hun. unfold propertyState. apply map_eq. intros e.
  change (entries (registry (store a o w))) with (entries (registry w)).
  rewrite !lookup_fmap. destruct (entries (registry w) !! e) as [ent|] eqn:He; simpl.
  - f_equal. apply propertyValues_store. intros k. exact (Hun e ent k He).
  - reflexivity.
Qed.

Lemma wellFormed_store a o w : wellFormed w -> wellFormed (store a o w).
Proof.
  intros Hwf e ent He k b Hk. rewrite objectAt_store.
  destruct (decide (a = b)); [eauto|]. exact (Hwf e ent He k b Hk).
Qed.

Lemma propertyValues_insert k a o w ent :
  objectAt w a = Some o ->
  propertyValues w
    {| getName := getName ent;
       propertyTable := <[k := a]> (propertyTable ent);
       childrenDT := childrenDT ent;
       childrenService := childrenService ent |} =
  <[k := o]> (propertyValues w ent).
Proof. intros Ho. unfold propertyValues. simpl. apply omap_insert_Some. exact Ho. Qed.

Lemma propertyState_setProperty e k a o w :
  objectAt w a = Some o ->
  propertyState (setProperty e k a w) = alter (insert k o) e (propertyState w).
Proof.
  intros Ho. unfold propertyState, setProperty. simpl.
  apply fmap_alter. intros ent _.
  apply (propertyValues_insert k a o w ent Ho).
Qed.

Lemma wellFormed_setProperty e k a w :
  wellFormed w -> is_Some (objectAt w a) -> wellFormed (setProperty e k a w).
Proof.
  intros Hwf Ha e' ent' He' k' b Hk'.
  rewrite objectAt_setProperty.
  unfold setProperty in He'. simpl in He'.
  apply lookup_alter_Some in He' as [(-> & ent & He & ->)|[_ He']].
  - simpl in Hk'. apply lookup_insert_Some in Hk' as [[_ <-]|[_ Hk']]; [exact Ha|].
    exact (Hwf e' ent He k' b Hk').
  - exact (Hwf e' ent' He' k' b Hk').
Qed.

Lemma propertyValue_state e k w :
  propertyValue e k w = propertyState w !! e ≫= (fun m => m !! k).
Proof.
  unfold propertyValue, getProperty, propertyState.
  rewrite lookup_fmap.
  destruct (entries (registry w) !! e) as [ent|]; simpl; [|reflexivity].
  unfold propertyValues. rewrite lookup_omap.
  destruct (propertyTable ent !! k); reflexivity.
Qed.

Lemma getProperty_setProperty e k a w e' k' :
  getProperty e' k' (setProperty e k a w) =
  if decide (e = e' /\ k = k') then
    match entries (registry w) !! e with Some _ => Some a | None => None end
  else getProperty e' k' w.
Proof.
  unfold getProperty, setProperty. simpl. rewrite lookup_alter.
  destruct (decide (e = e')) as [<-|Hne].
  - destruct (entries (registry w) !! e) as [ent|]; simpl.
    + rewrite lookup_insert.
      destruct (decide (k = k')) as [<-|Hk].
      * rewrite decide_True by auto. reflexivity.
      * rewrite decide_False by (intros [_ ?]; contradiction). reflexivity.
    + destruct (decide (e = e /\ k = k')); reflexivity.
  - rewrite decide_False by (intros [? _]; contradiction). reflexivity.
Qed.

Lemma objectAt_fresh w : objectAt w (fresh (dom (objects (registry w)))) = None.
Proof. unfold objectAt. apply not_elem_of_dom. apply is_fresh. Qed.

Lemma propertyState_alter_id (f : gmap string OSObject -> gmap string OSObject) e w :
  (forall ent, entries (registry w) !! e = Some ent ->
               f (propertyValues w ent) = propertyValues w ent) ->
  propertyState w = alter f e (propertyState w).
Proof.
  intros H. symmetry. apply alter_id. intros m Hm.
  unfold propertyState in Hm. rewrite lookup_fmap in Hm.
  destruct (entries (registry w) !! e) as [ent|]; simpl in Hm; [|discriminate].
  injection Hm as <-. auto.
Qed.

Lemma propertyValues_lookup w ent k :
  propertyValues w ent !! k = propertyTable ent !! k ≫= objectAt w.
Proof. unfold propertyValues. apply lookup_omap. Qed.

Lemma getProperty_lookup e k w ent :
  entries (registry w) !! e = Some ent -> getProperty e k w = propertyTable ent !! k.
Proof. unfold getProperty. intros ->. reflexivity. Qed.

(** *** Which property table entries a function leaves alone *)

Lemma getProperty_dictSetObject a key value w e k :
  getProperty e k (dictSetObject a key value w) = getProperty e k w.
Proof.
  unfold dictSetObject.
  destruct (objectAt w a) as [[| | | |d]|]; try reflexivity.
  destruct (objectAt w value); reflexivity.
Qed.

Lemma entries_dictSetObject a key value w :
  entries (registry (dictSetObject a key value w)) = entries (registry w).
Proof.
  unfold dictSetObject.
  destruct (objectAt w a) as [[| | | |d]|]; try reflexivity.
  destruct (objectAt w value); reflexivity.
Qed.

Lemma getProperty_allocate o w e k :
  getProperty e k (snd (allocate o w)) = getProperty e k w.
Proof. unfold allocate. destruct (allocFails (allocs w)); reflexivity. Qed.

Lemma getProperty_setBuiltIn entry w e k :
  k <> "built-in" -> getProperty e k (setBuiltIn entry w) = getProperty e k w.
Proof.
  intros Hk. unfold setBuiltIn. destruct entry as [e'|]; [|reflexivity].
  pose proof (getProperty_allocate (OSData [x01]) w e k) as Ha.
  destruct (allocate (OSData [x01]) w) as [[a|] w1]; simpl in Ha; [|exact Ha].
  rewrite getProperty_setProperty, decide_False by (intros [_ ?]; congruence).
  exact Ha.
Qed.

Lemma getProperty_updateProtocol e' internal w e k :
  k <> "Protocol Characteristics" ->
  getProperty e k (updateProtocol e' internal w) = getProperty e k w.
Proof.
  intros Hk. unfold updateProtocol.
  destruct (getProperty e' "Protocol Characteristics" w) as [proto|].
  - destruct (castOSDictionary w (Some proto)) as [d|]; [|reflexivity].
    pose proof (getProperty_allocate (OSDictionary d) w e k) as Ha.
    destruct (allocate (OSDictionary d) w) as [[a|] w1]; simpl in Ha; [|exact Ha].
    rewrite getProperty_setProperty, decide_False by (intros [_ ?]; congruence).
    rewrite getProperty_dictSetObject. exact Ha.
  - pose proof (getProperty_allocate (OSDictionary []) w e k) as Ha.
    destruct (allocate (OSDictionary []) w) as [[a|] w1]; simpl in Ha; [|exact Ha].
    rewrite getProperty_setProperty, decide_False by (intros [_ ?]; congruence).
    rewrite getProperty_dictSetObject. exact Ha.
Qed.

Lemma getProperty_updateIcon e' internalIcon w e k :
  k <> "IOMediaIcon" ->
  getProperty e k (updateIcon e' internalIcon w) = getProperty e k w.
Proof.
  intros Hk. unfold updateIcon.
  destruct (getProperty e' "IOMediaIcon" w) as [icon|]; [|reflexivity].
  destruct (castOSDictionary w (Some icon)) as [d|]; [|reflexivity].
  pose proof (getProperty_allocate (OSDictionary d) w e k) as Ha.
  destruct (allocate (OSDictionary d) w) as [[a|] w1]; simpl in Ha; [|exact Ha].
  rewrite getProperty_setProperty, decide_False by (intros [_ ?]; congruence).
  rewrite getProperty_dictSetObject. exact Ha.
Qed.

(** *** Dictionaries *)

(** [setObject] is a shallow merge: the key is there afterwards with the new
    value, and every other key has the value it had. *)
Lemma getObject_setObject key value dict :
  getObject key (setObject key value dict) = Some value.
Proof.
  induction dict as [|[k x] rest IH]; simpl.
  - rewrite String.eqb_refl. reflexivity.
  - destruct (String.eqb k key) eqn:Hk; simpl; rewrite Hk; [reflexivity|exact IH].
Qed.

Lemma getObject_setObject_other key value dict k :
  k <> key -> getObject k (setObject key value dict) = getObject k dict.
Proof.
  intros Hne. assert (Hkey : String.eqb key k = false).
  { apply String.eqb_neq. congruence. }
  induction dict as [|[k' x] rest IH]; simpl.
  - rewrite Hkey. reflexivity.
  - destruct (String.eqb k' key) eqn:Hk; simpl.
    + apply String.eqb_eq in Hk. subst k'. rewrite Hkey. reflexivity.
    + rewrite IH. reflexivity.
Qed.

(** *** [annotate], key by key *)

Lemma annotateProtocol_other m k :
  k <> "Protocol Characteristics" -> annotateProtocol m !! k = m !! k.
Proof.
  intros Hk. unfold annotateProtocol.
  destruct (m !! "Protocol Characteristics") as [[| | | |d]|];
    rewrite ?lookup_insert_ne by congruence; reflexivity.
Qed.

Lemma annotateIcon_other m k :
  k <> "IOMediaIcon" -> annotateIcon m !! k = m !! k.
Proof.
  intros Hk. unfold annotateIcon.
  destruct (m !! "IOMediaIcon") as [[| | | |d]|];
    rewrite ?lookup_insert_ne by congruence; reflexivity.
Qed.

Lemma annotate_location m :
  annotate m !! "Physical Interconnect Location" = Some (OSString "Internal").
Proof.
  unfold annotate, annotateBuiltIn.
  rewrite lookup_insert_ne by discriminate.
  rewrite annotateProtocol_other by discriminate.
  rewrite annotateIcon_other by discriminate.
  apply lookup_insert_eq.
Qed.

Lemma annotate_builtIn m : annotate m !! "built-in" = Some (OSData [x01]).
Proof. unfold annotate, annotateBuiltIn. apply lookup_insert_eq. Qed.

Lemma annotate_icon m :
  annotate m !! "IOMediaIcon" =
  match m !! "IOMediaIcon" with
  | Some (OSDictionary d) =>
      Some (OSDictionary
              (setObject "IOBundleResourceFile" (OSString "Internal.icns") d))
  | other => other
  end.
Proof.
  unfold annotate, annotateBuiltIn.
  rewrite lookup_insert_ne by discriminate.
  rewrite annotateProtocol_other by discriminate.
  unfold annotateIcon. rewrite lookup_insert_ne by discriminate.
  destruct (m !! "IOMediaIcon") as [[| | | |d]|] eqn:Hm;
    rewrite ?lookup_insert_eq, ?lookup_insert_ne by discriminate; auto.
Qed.

Lemma annotate_protocol m :
  annotate m !! "Protocol Characteristics" =
  match m !! "Protocol Characteristics" with
  | Some (OSDictionary d) =>
      Some (OSDictionary
              (setObject "Physical Interconnect Location" (OSString "Internal") d))
  | Some other => Some other
  | None =>
      Some (OSDictionary [("Physical Interconnect Location", OSString "Internal")])
  end.
Proof.
  unfold annotate, annotateBuiltIn.
  rewrite lookup_insert_ne by discriminate.
  unfold annotateProtocol. rewrite annotateIcon_other by discriminate.
  rewrite lookup_insert_ne by discriminate.
  destruct (m !! "Protocol Characteristics") as [[| | | |d]|] eqn:Hm;
    rewrite ?lookup_insert_eq; rewrite ?annotateIcon_other by discriminate;
    rewrite ?lookup_insert_ne by discriminate; auto.
Qed.

Lemma annotate_other m k :
  k <> "Physical Interconnect Location" -> k <> "IOMediaIcon" ->
  k <> "Protocol Characteristics" -> k <> "built-in" ->
  annotate m !! k = m !! k.
Proof.
  intros H1 H2 H3 H4. unfold annotate, annotateBuiltIn.
  rewrite lookup_insert_ne by congruence.
  rewrite annotateProtocol_other, annotateIcon_other by assumption.
  apply lookup_insert_ne. congruence.
Qed.

(** *** The annotation on the property state is idempotent *)

Lemma setObject_idempotent key value dict :
  setObject key value (setObject key value dict) = setObject key value dict.
Proof.
  induction dict as [|[k x] rest IH]; simpl.
  - rewrite String.eqb_refl. reflexivity.
  - destruct (String.eqb k key) eqn:Hk; simpl; rewrite Hk; [reflexivity|].
    rewrite IH. reflexivity.
Qed.

Lemma annotate_idempotent m : annotate (annotate m) = annotate m.
Proof.
  apply map_eq. intros k.
  destruct (decide (k = "Physical Interconnect Location")) as [->|H1].
  { rewrite !annotate_location. reflexivity. }
  destruct (decide (k = "built-in")) as [->|H2].
  { rewrite !annotate_builtIn. reflexivity. }
  destruct (decide (k = "IOMediaIcon")) as [->|H3].
  { rewrite annotate_icon. rewrite annotate_icon.
    destruct (m !! "IOMediaIcon") as [[| | | |d]|]; try reflexivity.
    rewrite setObject_idempotent. reflexivity. }
  destruct (decide (k = "Protocol Characteristics")) as [->|H4].
  { rewrite annotate_protocol. rewrite annotate_protocol.
    destruct (m !! "Protocol Characteristics") as [[| | | |d]|]; try reflexivity.
    rewrite setObject_idempotent. reflexivity. }
  rewrite !annotate_other by assumption. reflexivity.
Qed.

Lemma annotateBuiltIn_annotate m : annotateBuiltIn (annotate m) = annotate m.
Proof. unfold annotateBuiltIn. apply insert_id. apply annotate_builtIn. Qed.

(** The targets of a pass. *)
Lemma annotatePass_lookup entry drivers state x :
  annotatePass entry drivers state !! x =
  if decide (x = entry \/ x ∈ drivers) then annotate <$> state !! x else state !! x.
Proof.
  unfold annotatePass.
  assert (Hfold : forall state0 : gmap nat (gmap string OSObject),
    fold_left (fun st d => if Nat.eqb d entry then st else alter annotate d st)
      drivers state0 !! x =
    if decide (x <> entry /\ x ∈ drivers) then annotate <$> state0 !! x
    else state0 !! x).
  { induction drivers as [|d rest IH]; intros state0; simpl.
    - rewrite decide_False; [reflexivity|]. intros [_ H]. inversion H.
    - rewrite IH. destruct (Nat.eqb_spec d entry) as [->|Hd].
      + destruct (decide (x <> entry /\ x ∈ rest)) as [[Hx Hin]|Hno].
        * rewrite decide_True; [reflexivity|]. split; [exact Hx|]. right. exact Hin.
        * rewrite decide_False; [reflexivity|]. intros [Hx Hin].
          apply Hno. split; [exact Hx|]. inversion Hin; subst; [contradiction|assumption].
      + rewrite lookup_alter.
        destruct (decide (d = x)) as [->|Hdx].
        * rewrite (decide_True (P := x <> entry /\ x ∈ x :: rest));
            [|split; [exact Hd|left]].
          destruct (decide (x <> entry /\ x ∈ rest)); [|reflexivity].
          destruct (state0 !! x); simpl; [|reflexivity].
          rewrite annotate_idempotent. reflexivity.
        * destruct (decide (x <> entry /\ x ∈ rest)) as [[Hx Hin]|Hno].
          -- rewrite decide_True; [reflexivity|]. split; [exact Hx|]. right. exact Hin.
          -- rewrite decide_False; [reflexivity|]. intros [Hx Hin].
             apply Hno. split; [exact Hx|].
             inversion Hin; subst; [contradiction|assumption]. }
  rewrite Hfold, lookup_alter.
  destruct (decide (entry = x)) as [->|Hne].
  - rewrite (decide_True (P := x = x \/ x ∈ drivers)) by (left; reflexivity).
    destruct (decide (x <> x /\ x ∈ drivers)) as [[Hx _]|_]; [contradiction|reflexivity].
  - destruct (decide (x <> entry /\ x ∈ drivers)) as [[Hx Hin]|Hno].
    + rewrite decide_True by (right; exact Hin). reflexivity.
    + rewrite decide_False; [reflexivity|]. intros [->|Hin]; [contradiction|].
      apply Hno. split; [congruence|exact Hin].
Qed.

Lemma annotatePass_idempotent entry drivers state :
  annotatePass entry drivers (annotatePass entry drivers state) =
  annotatePass entry drivers state.
Proof.
  apply map_eq. intros x. rewrite !annotatePass_lookup.
  destruct (decide (x = entry \/ x ∈ drivers)); [|reflexivity].
  destruct (state !! x); simpl; [|reflexivity].
  rewrite annotate_idempotent. reflexivity.
Qed.

Lemma stateIsTrue_alter f entry state x key :
  (forall m, f m !! key = m !! key) ->
  stateIsTrue (alter f entry state) x key = stateIsTrue state x key.
Proof.
  intros Hf. unfold stateIsTrue. rewrite lookup_alter.
  destruct (decide (entry = x)) as [->|]; [|reflexivity].
  destruct (state !! x); simpl; [|reflexivity]. rewrite Hf. reflexivity.
Qed.

Lemma stateIsTrue_annotatePass entry drivers state x key :
  (forall m, annotate m !! key = m !! key) ->
  stateIsTrue (annotatePass entry drivers state) x key = stateIsTrue state x key.
Proof.
  intros Hf. unfold stateIsTrue. rewrite annotatePass_lookup.
  destruct (decide (x = entry \/ x ∈ drivers)); [|reflexivity].
  destruct (state !! x); simpl; [|reflexivity]. rewrite Hf. reflexivity.
Qed.

Lemma annotateDevice_idempotent entry drivers state :
  annotateDevice entry drivers (annotateDevice entry drivers state) =
  annotateDevice entry drivers state.
Proof.
  assert (Hb : forall m, annotateBuiltIn m !! "IOPCIResourced" = m !! "IOPCIResourced").
  { intros m. unfold annotateBuiltIn. apply lookup_insert_ne. discriminate. }
  assert (Ha : forall m, annotate m !! "IOPCIResourced" = m !! "IOPCIResourced").
  { intros m. apply annotate_other; discriminate. }
  unfold annotateDevice. rewrite !annotatePass_idempotent.
  destruct (stateIsTrue (alter annotateBuiltIn entry state) entry "IOPCIResourced")
    eqn:Hflag.
  - rewrite (stateIsTrue_alter _ _ _ _ _ Hb).
    rewrite (stateIsTrue_annotatePass _ _ _ _ _ Ha), Hflag.
    apply map_eq. intros x.
    repeat first [rewrite annotatePass_lookup | rewrite lookup_alter].
    repeat case_decide; subst;
      try match goal with |- context [state !! ?y] => destruct (state !! y) end;
      simpl; rewrite ?annotateBuiltIn_annotate, ?annotate_idempotent;
      try reflexivity; exfalso; intuition congruence.
  - rewrite (stateIsTrue_alter _ _ _ _ _ Hb), Hflag.
    rewrite alter_alter_eq. apply alter_ext. intros m _.
    unfold annotateBuiltIn. simpl. apply insert_insert_eq.
Qed.

(** *** The driver changes no object that exists already *)

Lemma objectsKept_allocate o w : objectsKept w (snd (allocate o w)).
Proof.
  unfold allocate. destruct (allocFails (allocs w)); simpl.
  - exact (objectsKept_refl w).
  - intros b x Hb.
    apply (objectsKept_store _ o (counted w)); [exact (objectAt_fresh w)|exact Hb].
Qed.

Lemma allocate_cases o w :
  allocate o w = (None, counted w) \/
  exists a, objectAt w a = None /\ allocate o w = (Some a, store a o (counted w)).
Proof.
  unfold allocate. destruct (allocFails (allocs w)); [left; reflexivity|].
  right. eexists. split; [apply objectAt_fresh|reflexivity].
Qed.

Lemma objectsKept_copy a o key value w :
  objectAt w a = None ->
  objectsKept w (dictSetObject a key value (store a o (counted w))).
Proof.
  intros Hnew b x Hb.
  assert (a <> b) by congruence.
  unfold dictSetObject.
  destruct (objectAt (store a o (counted w)) a) as [[| | | |d]|];
    try (rewrite objectAt_store, decide_False by assumption; exact Hb).
  destruct (objectAt (store a o (counted w)) value);
    rewrite ?objectAt_store, !decide_False by assumption; exact Hb.
Qed.

Lemma objectsKept_setBuiltIn entry w : objectsKept w (setBuiltIn entry w).
Proof.
  unfold setBuiltIn. destruct entry as [e|]; [|apply objectsKept_refl].
  destruct (allocate_cases (OSData [x01]) w) as [->|(a & Ha & ->)].
  - exact (objectsKept_refl w).
  - intros b x Hb. rewrite objectAt_setProperty.
    apply (objectsKept_store a _ (counted w) Ha). exact Hb.
Qed.

Lemma objectsKept_updateIcon e internalIcon w :
  objectsKept w (updateIcon e internalIcon w).
Proof.
  unfold updateIcon.
  destruct (getProperty e "IOMediaIcon" w) as [icon|]; [|apply objectsKept_refl].
  destruct (castOSDictionary w (Some icon)) as [d|]; [|apply objectsKept_refl].
  destruct (allocate_cases (OSDictionary d) w) as [->|(a & Ha & ->)].
  - exact (objectsKept_refl w).
  - intros b x Hb. rewrite objectAt_setProperty.
    apply objectsKept_copy; assumption.
Qed.

Lemma objectsKept_updateProtocol e internal w :
  objectsKept w (updateProtocol e internal w).
Proof.
  unfold updateProtocol.
  destruct (getProperty e "Protocol Characteristics" w) as [proto|].
  - destruct (castOSDictionary w (Some proto)) as [d|]; [|apply objectsKept_refl].
    destruct (allocate_cases (OSDictionary d) w) as [->|(a & Ha & ->)].
    + exact (objectsKept_refl w).
    + intros b x Hb. rewrite objectAt_setProperty.
      apply objectsKept_copy; assumption.
  - destruct (allocate_cases (OSDictionary []) w) as [->|(a & Ha & ->)].
    + exact (objectsKept_refl w).
    + intros b x Hb. rewrite objectAt_setProperty.
      apply objectsKept_copy; assumption.
Qed.

Lemma objectsKept_updateOtherProperties entry w :
  objectsKept w (updateOtherProperties entry w).
Proof.
  unfold updateOtherProperties. destruct entry as [e|]; [|apply objectsKept_refl].
  pose proof (objectsKept_allocate (OSString "Internal") w) as H1.
  destruct (allocate (OSString "Internal") w) as [internal w1]. simpl in H1.
  pose proof (objectsKept_allocate (OSString "Internal.icns") w1) as H2.
  destruct (allocate (OSString "Internal.icns") w1) as [internalIcon w2].
  simpl in H2.
  pose proof (objectsKept_trans _ _ _ H1 H2) as H12.
  destruct internal as [internal|]; [|exact H12].
  destruct internalIcon as [internalIcon|]; [|exact H12].
  eapply objectsKept_trans; [|apply objectsKept_setBuiltIn].
  eapply objectsKept_trans; [|apply objectsKept_updateProtocol].
  eapply objectsKept_trans; [|apply objectsKept_updateIcon].
  exact H12.
Qed.

(** *** What the driver writes *)

Lemma writesTo_refl e w : writesTo e w w.
Proof. exists []. split; [symmetry; apply app_nil_r|constructor]. Qed.

Lemma writesTo_trans e w1 w2 w3 :
  writesTo e w1 w2 -> writesTo e w2 w3 -> writesTo e w1 w3.
Proof.
  intros (t1 & H1 & F1) (t2 & H2 & F2). exists (t1 ++ t2). split.
  - rewrite H2, H1, app_assoc. reflexivity.
  - apply Forall_app. split; assumption.
Qed.

Lemma writesTo_setProperty e k a w : writesTo e w (setProperty e k a w).
Proof. exists [PropertySet e k a]. split; [reflexivity|]. repeat constructor. eauto. Qed.

Lemma writesTo_same_trace e w w' : trace w' = trace w -> writesTo e w w'.
Proof. intros H. exists []. split; [rewrite H, app_nil_r; reflexivity|constructor]. Qed.

Lemma trace_dictSetObject a key value w : trace (dictSetObject a key value w) = trace w.
Proof.
  unfold dictSetObject.
  destruct (objectAt w a) as [[| | | |d]|]; try reflexivity.
  destruct (objectAt w value); reflexivity.
Qed.

Lemma trace_allocate o w : trace (snd (allocate o w)) = trace w.
Proof. unfold allocate. destruct (allocFails (allocs w)); reflexivity. Qed.

Lemma writesTo_setBuiltIn e w : writesTo e w (setBuiltIn (Some e) w).
Proof.
  unfold setBuiltIn.
  destruct (allocate_cases (OSData [x01]) w) as [->|(a & _ & ->)].
  - apply writesTo_same_trace. reflexivity.
  - apply (writesTo_trans e w (store a (OSData [x01]) (counted w)));
      [apply writesTo_same_trace; reflexivity|apply writesTo_setProperty].
Qed.

Lemma writesTo_updateIcon e internalIcon w : writesTo e w (updateIcon e internalIcon w).
Proof.
  unfold updateIcon.
  destruct (getProperty e "IOMediaIcon" w) as [icon|]; [|apply writesTo_refl].
  destruct (castOSDictionary w (Some icon)) as [d|]; [|apply writesTo_refl].
  destruct (allocate_cases (OSDictionary d) w) as [->|(a & _ & ->)].
  - apply writesTo_same_trace. reflexivity.
  - eapply writesTo_trans; [|apply writesTo_setProperty].
    apply writesTo_same_trace. rewrite trace_dictSetObject. reflexivity.
Qed.

Lemma writesTo_updateProtocol e internal w :
  writesTo e w (updateProtocol e internal w).
Proof.
  unfold updateProtocol.
  destruct (getProperty e "Protocol Characteristics" w) as [proto|].
  - destruct (castOSDictionary w (Some proto)) as [d|]; [|apply writesTo_refl].
    destruct (allocate_cases (OSDictionary d) w) as [->|(a & _ & ->)].
    + apply writesTo_same_trace. reflexivity.
    + eapply writesTo_trans; [|apply writesTo_setProperty].
      apply writesTo_same_trace. rewrite trace_dictSetObject. reflexivity.
  - destruct (allocate_cases (OSDictionary []) w) as [->|(a & _ & ->)].
    + apply writesTo_same_trace. reflexivity.
    + eapply writesTo_trans; [|apply writesTo_setProperty].
      apply writesTo_same_trace. rewrite trace_dictSetObject. reflexivity.
Qed.

Lemma writesTo_updateOtherProperties e w :
  writesTo e w (updateOtherProperties (Some e) w).
Proof.
  unfold updateOtherProperties.
  pose proof (trace_allocate (OSString "Internal") w) as H1.
  destruct (allocate (OSString "Internal") w) as [internal w1]. simpl in H1.
  pose proof (trace_allocate (OSString "Internal.icns") w1) as H2.
  destruct (allocate (OSString "Internal.icns") w1) as [internalIcon w2].
  simpl in H2.
  assert (H12 : writesTo e w w2) by (apply writesTo_same_trace; congruence).
  destruct internal as [internal|]; [|exact H12].
  destruct internalIcon as [internalIcon|]; [|exact H12].
  eapply writesTo_trans; [|apply writesTo_setBuiltIn].
  eapply writesTo_trans; [|apply writesTo_updateProtocol].
  eapply writesTo_trans; [|apply writesTo_updateIcon].
  eapply writesTo_trans; [exact H12|apply writesTo_setProperty].
Qed.

(** *** The driver changes no link *)

Lemma topology_setProperty e k a w : topology (setProperty e k a w) = topology w.
Proof.
  unfold topology, setProperty. simpl.
  rewrite (fmap_alter _ _ id); [apply alter_id; reflexivity|].
  intros ent _. reflexivity.
Qed.

Lemma topology_dictSetObject a key value w :
  topology (dictSetObject a key value w) = topology w.
Proof. unfold topology. rewrite entries_dictSetObject. reflexivity. Qed.

Lemma topology_lookup w w' x :
  topology w' = topology w ->
  (fun e => (getName e, childrenDT e, childrenService e)) <$> entries (registry w') !! x =
  (fun e => (getName e, childrenDT e, childrenService e)) <$> entries (registry w) !! x.
Proof. intros H. rewrite <- !lookup_fmap. unfold topology in H. rewrite H. reflexivity. Qed.

Lemma getChildIterator_topology w w' x plane :
  topology w' = topology w ->
  getChildIterator x plane w' = getChildIterator x plane w.
Proof.
  intros H. apply (topology_lookup w w' x) in H. unfold getChildIterator.
  destruct (entries (registry w') !! x) as [e'|],
           (entries (registry w) !! x) as [e|]; simpl in H; try discriminate.
  - injection H as _ Hdt Hsvc. destruct plane; assumption.
  - reflexivity.
Qed.

Lemma iterateRecursively_cons plane w depth done next rest :
  iterateRecursively plane w depth done (next :: rest) =
  if decide (next ∈ done) then
    let (after, done') := iterateRecursively plane w depth done rest in
    (next :: after, done')
  else
    let (below, done1) :=
      match depth with
      | O => ([], {[next]} ∪ done)
      | S depth' =>
          iterateRecursively plane w depth' ({[next]} ∪ done)
            (getChildIterator next plane w)
      end in
    let (after, done2) := iterateRecursively plane w depth done1 rest in
    (next :: below ++ after, done2).
Proof. destruct depth; reflexivity. Qed.

Lemma iterateRecursively_nil plane w depth done :
  iterateRecursively plane w depth done [] = ([], done).
Proof. destruct depth; reflexivity. Qed.

Lemma iterateRecursively_topology plane w w' depth done level :
  topology w' = topology w ->
  iterateRecursively plane w' depth done level =
  iterateRecursively plane w depth done level.
Proof.
  intros H. revert done level.
  induction depth as [|depth IHd]; intros done level; revert done;
    induction level as [|next rest IHl]; intros done;
    rewrite ?iterateRecursively_nil, ?iterateRecursively_cons; try reflexivity.
  destruct (decide (next ∈ done)); [rewrite IHl; reflexivity|].
  rewrite IHd, (getChildIterator_topology w w' next plane H).
  destruct (iterateRecursively plane w depth _ _) as [below done1].
  rewrite IHl. reflexivity.
Qed.

Lemma iterateOver_topology w w' e plane :
  topology w' = topology w -> iterateOver e plane w' = iterateOver e plane w.
Proof.
  intros H. unfold iterateOver.
  rewrite (iterateRecursively_topology plane w w' _ _ _ H).
  rewrite (getChildIterator_topology w w' e plane H).
  assert (Hsize : size (entries (registry w')) = size (entries (registry w))).
  { rewrite <- (map_size_fmap (fun e => (getName e, childrenDT e, childrenService e))
                  (entries (registry w'))).
    rewrite <- (map_size_fmap (fun e => (getName e, childrenDT e, childrenService e))
                  (entries (registry w))).
    unfold topology in H. rewrite H. reflexivity. }
  rewrite Hsize. reflexivity.
Qed.

(** *** What the recursive iterator yields *)

Lemma getChildIterator_absent x plane w :
  x ∉ dom (entries (registry w)) -> getChildIterator x plane w = [].
Proof.
  intros H. apply not_elem_of_dom in H. unfold getChildIterator. rewrite H.
  reflexivity.
Qed.

Lemma iterateRecursively_spec plane w depth done level out done' :
  size (dom (entries (registry w)) ∖ done) <= depth ->
  iterateRecursively plane w depth done level = (out, done') ->
  iteratorSpec plane w done level out done'.
Proof.
  revert done level out done'.
  induction depth as [|depth IHd]; intros done level; revert done;
    induction level as [|next rest IHl]; intros done out done' Hsize;
    rewrite ?iterateRecursively_nil, ?iterateRecursively_cons.
  1, 3: intros [= <- <-]; repeat split;
        [set_solver | intros x Hx; inversion Hx | set_solver
        | intros y Hy; inversion Hy].
  (* depth 0 *)
  - destruct (decide (next ∈ done)) as [Hin|Hnot].
    + destruct (iterateRecursively plane w 0 done rest) as [after d'] eqn:Hrest.
      intros [= <- <-].
      destruct (IHl done after d' Hsize Hrest) as (Hd & Hl & Hc & Hs).
      repeat split.
      * rewrite Hd. set_solver.
      * intros x Hx. apply elem_of_cons in Hx as [->|Hx]; [left|right; auto].
      * exact Hc.
      * intros y Hy. apply elem_of_cons in Hy as [->|Hy].
        -- exists next. split; [left|left; reflexivity].
        -- destruct (Hs y Hy) as (l & Hl' & Hyl). exists l. split; [right|]; auto.
    + assert (Hdom : next ∉ dom (entries (registry w))).
      { intros Hd. assert (Hne : next ∈ dom (entries (registry w)) ∖ done) by set_solver.
        assert (size (dom (entries (registry w)) ∖ done) <> 0).
        { apply size_non_empty_iff. intros He. rewrite He in Hne. set_solver. }
        lia. }
      destruct (iterateRecursively plane w 0 ({[next]} ∪ done) rest)
        as [after d2] eqn:Hrest.
      intros [= <- <-].
      assert (Hsize1 : size (dom (entries (registry w)) ∖ ({[next]} ∪ done)) <= 0).
      { etransitivity; [|exact Hsize]. apply subseteq_size. set_solver. }
      destruct (IHl _ after d2 Hsize1 Hrest) as (Hd & Hl & Hc & Hs).
      repeat split.
      * rewrite Hd. set_solver.
      * intros x Hx. apply elem_of_cons in Hx as [->|Hx]; [left|right; auto].
      * intros x Hx Hxd c Hcx.
        destruct (decide (x = next)) as [->|Hxn].
        -- rewrite (getChildIterator_absent _ _ _ Hdom) in Hcx. inversion Hcx.
        -- apply (Hc x Hx); [set_solver|exact Hcx].
      * intros y Hy. apply elem_of_cons in Hy as [->|Hy].
        -- exists next. split; [left|left; reflexivity].
        -- destruct (Hs y Hy) as (l & Hl' & Hyl). exists l. split; [right|]; auto.
  (* depth S *)
  - destruct (decide (next ∈ done)) as [Hin|Hnot].
    + destruct (iterateRecursively plane w (S depth) done rest) as [after d'] eqn:Hrest.
      intros [= <- <-].
      destruct (IHl done after d' Hsize Hrest) as (Hd & Hl & Hc & Hs).
      repeat split.
      * rewrite Hd. set_solver.
      * intros x Hx. apply elem_of_cons in Hx as [->|Hx]; [left|right; auto].
      * exact Hc.
      * intros y Hy. apply elem_of_cons in Hy as [->|Hy].
        -- exists next. split; [left|left; reflexivity].
        -- destruct (Hs y Hy) as (l & Hl' & Hyl). exists l. split; [right|]; auto.
    + destruct (iterateRecursively plane w depth ({[next]} ∪ done)
                  (getChildIterator next plane w)) as [below d1] eqn:Hbelow.
      assert (Hspec1 : iteratorSpec plane w ({[next]} ∪ done)
                         (getChildIterator next plane w) below d1).
      { destruct (decide (next ∈ dom (entries (registry w)))) as [Hd|Hd].
        - apply IHd; [|exact Hbelow].
          assert (dom (entries (registry w)) ∖ ({[next]} ∪ done) ⊂
                  dom (entries (registry w)) ∖ done) as Hsub by set_solver.
          apply subset_size in Hsub. lia.
        - rewrite (getChildIterator_absent _ _ _ Hd) in *.
          rewrite iterateRecursively_nil in Hbelow. injection Hbelow as <- <-.
          repeat split;
            [set_solver | intros x Hx; inversion Hx | set_solver
            | intros y Hy; inversion Hy]. }
      destruct Hspec1 as (Hd1 & Hl1 & Hc1 & Hs1).
      destruct (iterateRecursively plane w (S depth) d1 rest) as [after d2] eqn:Hrest.
      intros [= <- <-].
      assert (Hsize1 : size (dom (entries (registry w)) ∖ d1) <= S depth).
      { etransitivity; [|exact Hsize]. apply subseteq_size. set_solver. }
      destruct (IHl _ after d2 Hsize1 Hrest) as (Hd & Hl & Hc & Hs).
      repeat split.
      * rewrite Hd, Hd1. set_solver.
      * intros x Hx. apply elem_of_cons in Hx as [->|Hx]; [left|].
        right. apply elem_of_app. right. auto.
      * intros x Hx Hxd c Hcx.
        destruct (decide (x ∈ d1)) as [Hx1|Hx1]; [|exact (Hc x Hx Hx1 c Hcx)].
        assert (Hsub : d1 ⊆ d2) by (rewrite Hd; set_solver).
        apply Hsub.
        destruct (decide (x = next)) as [->|Hxn].
        -- rewrite Hd1. apply Hl1 in Hcx. set_solver.
        -- apply (Hc1 x Hx1); [set_solver|exact Hcx].
      * intros y Hy. apply elem_of_cons in Hy as [->|Hy].
        -- exists next. split; [left|left; reflexivity].
        -- apply elem_of_app in Hy as [Hy|Hy].
           ++ destruct (Hs1 y Hy) as (c & Hc' & Hyc). exists next. split; [left|].
              right. apply list_elem_of_In in Hc'.
              destruct Hyc as [->|Hyc];
                [apply descendant_child|eapply descendant_below]; eauto.
           ++ destruct (Hs y Hy) as (l & Hl' & Hyl). exists l. split; [right|]; auto.
Qed.

(** The recursive iterator yields the entries below [e] and no other. *)
Lemma iterateOver_descendants e plane w d :
  In d (iterateOver e plane w) <-> descendant plane w e d.
Proof.
  unfold iterateOver.
  destruct (iterateRecursively plane w (size (entries (registry w))) ∅
              (getChildIterator e plane w)) as [out done'] eqn:Hrun.
  apply iterateRecursively_spec in Hrun as (Hd & Hl & Hc & Hs).
  2: { rewrite difference_empty_L, size_dom. reflexivity. }
  simpl. split.
  - intros Hin. apply list_elem_of_In, Hs in Hin as (l & Hl' & Hyl).
    apply list_elem_of_In in Hl'.
    destruct Hyl as [->|Hyl];
      [apply descendant_child|eapply descendant_below]; eauto.
  - intros Hdesc.
    assert (Hclosed : forall x y, descendant plane w x y -> x ∈ done' -> y ∈ done').
    { intros x y H. induction H as [x y Hy|x c y Hcx _ IH]; intros Hx.
      - apply (Hc x Hx); [set_solver|]. apply list_elem_of_In. exact Hy.
      - apply IH. apply (Hc x Hx); [set_solver|]. apply list_elem_of_In. exact Hcx. }
    assert (Hdone : d ∈ done').
    { destruct Hdesc as [e d Hy|e c d Hce Hcd].
      - rewrite Hd. apply list_elem_of_In, Hl in Hy. set_solver.
      - apply (Hclosed c d Hcd). rewrite Hd.
        apply list_elem_of_In, Hl in Hce. set_solver. }
    rewrite Hd in Hdone. apply list_elem_of_In. set_solver.
Qed.

Lemma descendant_topology plane w w' e d :
  topology w' = topology w -> descendant plane w' e d -> descendant plane w e d.
Proof.
  intros Htop H. induction H as [e d Hd|e c d Hc _ IH].
  - apply descendant_child.
    rewrite <- (getChildIterator_topology w w' e plane Htop). exact Hd.
  - apply (descendant_below plane w e c d); [|exact IH].
    rewrite <- (getChildIterator_topology w w' e plane Htop). exact Hc.
Qed.

Lemma topology_setBuiltIn entry w : topology (setBuiltIn entry w) = topology w.
Proof.
  unfold setBuiltIn. destruct entry as [e|]; [|reflexivity].
  destruct (allocate_cases (OSData [x01]) w) as [->|(a & _ & ->)]; [reflexivity|].
  rewrite topology_setProperty. reflexivity.
Qed.

Lemma topology_updateIcon e internalIcon w :
  topology (updateIcon e internalIcon w) = topology w.
Proof.
  unfold updateIcon.
  destruct (getProperty e "IOMediaIcon" w) as [icon|]; [|reflexivity].
  destruct (castOSDictionary w (Some icon)) as [d|]; [|reflexivity].
  destruct (allocate_cases (OSDictionary d) w) as [->|(a & _ & ->)]; [reflexivity|].
  rewrite topology_setProperty, topology_dictSetObject. reflexivity.
Qed.

Lemma topology_updateProtocol e internal w :
  topology (updateProtocol e internal w) = topology w.
Proof.
  unfold updateProtocol.
  destruct (getProperty e "Protocol Characteristics" w) as [proto|].
  - destruct (castOSDictionary w (Some proto)) as [d|]; [|reflexivity].
    destruct (allocate_cases (OSDictionary d) w) as [->|(a & _ & ->)]; [reflexivity|].
    rewrite topology_setProperty, topology_dictSetObject. reflexivity.
  - destruct (allocate_cases (OSDictionary []) w) as [->|(a & _ & ->)]; [reflexivity|].
    rewrite topology_setProperty, topology_dictSetObject. reflexivity.
Qed.

Lemma topology_updateOtherProperties entry w :
  topology (updateOtherProperties entry w) = topology w.
Proof.
  unfold updateOtherProperties. destruct entry as [e|]; [|reflexivity].
  destruct (allocate_cases (OSString "Internal") w) as [->|(a1 & _ & ->)].
  - destruct (allocate (OSString "Internal.icns") (counted w)) as [i2 w2] eqn:H2.
    destruct (allocate_cases (OSString "Internal.icns") (counted w))
      as [H|(a2 & _ & H)]; rewrite H in H2; injection H2 as <- <-; reflexivity.
  - destruct (allocate_cases (OSString "Internal.icns")
                (store a1 (OSString "Internal") (counted w))) as [->|(a2 & _ & ->)];
      [reflexivity|].
    rewrite topology_setBuiltIn, topology_updateProtocol, topology_updateIcon,
      topology_setProperty. reflexivity.
Qed.

Section NoAllocationFailure.

Hypothesis neverFail : forall n, allocFails n = false.

Lemma allocate_new o w :
  allocate o w =
  (Some (fresh (dom (objects (registry w)))),
   store (fresh (dom (objects (registry w)))) o (counted w)).
Proof. unfold allocate. rewrite neverFail. reflexivity. Qed.

(** What an allocation followed by [setProperty] does to the property
    state. *)
Lemma allocate_setProperty_state e k o w :
  wellFormed w ->
  let a := fresh (dom (objects (registry w))) in
  propertyState (setProperty e k a (store a o (counted w))) =
    alter (insert k o) e (propertyState w) /\
  wellFormed (setProperty e k a (store a o (counted w))).
Proof.
  intros Hwf a.
  assert (Ha : objectAt (store a o (counted w)) a = Some o).
  { rewrite objectAt_store, decide_True by reflexivity. reflexivity. }
  split.
  - rewrite (propertyState_setProperty _ _ _ o) by exact Ha.
    rewrite propertyState_store; [reflexivity|].
    apply (wellFormed_unreferenced w a Hwf), objectAt_fresh.
  - apply wellFormed_setProperty; [|eauto].
    apply wellFormed_store. exact Hwf.
Qed.

Lemma setBuiltIn_state e w :
  wellFormed w ->
  propertyState (setBuiltIn (Some e) w) = alter annotateBuiltIn e (propertyState w) /\
  wellFormed (setBuiltIn (Some e) w).
Proof.
  intros Hwf. unfold setBuiltIn. rewrite allocate_new.
  apply allocate_setProperty_state. exact Hwf.
Qed.

(** A dictionary is copied, the copy gets one more entry, and the copy is
    stored back. *)
Lemma copy_setObject_state e k d key value v w :
  wellFormed w ->
  objectAt w value = Some v ->
  let a := fresh (dom (objects (registry w))) in
  propertyState
    (setProperty e k a (dictSetObject a key value (store a (OSDictionary d) (counted w)))) =
    alter (insert k (OSDictionary (setObject key v d))) e (propertyState w) /\
  wellFormed
    (setProperty e k a (dictSetObject a key value (store a (OSDictionary d) (counted w)))).
Proof.
  intros Hwf Hv a.
  assert (Hnew : objectAt w a = None) by apply objectAt_fresh.
  assert (Hne : a <> value) by congruence.
  assert (Hun : unreferenced a w) by exact (wellFormed_unreferenced w a Hwf Hnew).
  unfold dictSetObject.
  rewrite !objectAt_store, decide_True, decide_False by auto.
  change (objectAt (counted w) value) with (objectAt w value). rewrite Hv.
  set (w1 := store a (OSDictionary (setObject key v d))
               (store a (OSDictionary d) (counted w))).
  assert (Ha : objectAt w1 a = Some (OSDictionary (setObject key v d))).
  { unfold w1. rewrite objectAt_store, decide_True by reflexivity. reflexivity. }
  split.
  - rewrite (propertyState_setProperty _ _ _ _ _ Ha). unfold w1.
    rewrite propertyState_store by exact Hun.
    rewrite propertyState_store by exact Hun. reflexivity.
  - apply wellFormed_setProperty; [|eauto].
    unfold w1. do 2 apply wellFormed_store. exact Hwf.
Qed.

Lemma propertyState_lookup e w m :
  propertyState w !! e = Some m ->
  exists ent, entries (registry w) !! e = Some ent /\ m = propertyValues w ent.
Proof.
  unfold propertyState. rewrite lookup_fmap.
  destruct (entries (registry w) !! e) as [ent|]; simpl; [|discriminate].
  intros [= <-]. eauto.
Qed.

Lemma updateIcon_state e internalIcon w :
  wellFormed w ->
  objectAt w internalIcon = Some (OSString "Internal.icns") ->
  propertyState (updateIcon e internalIcon w) = alter annotateIcon e (propertyState w) /\
  wellFormed (updateIcon e internalIcon w).
Proof.
  intros Hwf Hicon. unfold updateIcon.
  destruct (getProperty e "IOMediaIcon" w) as [a|] eqn:Hget.
  - unfold getProperty in Hget.
    destruct (entries (registry w) !! e) as [ent|] eqn:He; [|discriminate].
    destruct (Hwf e ent He _ a Hget) as [o Ho].
    unfold castOSDictionary. rewrite Ho.
    assert (Hm : propertyValues w ent !! "IOMediaIcon" = Some o).
    { rewrite propertyValues_lookup, Hget. exact Ho. }
    destruct o as [b|n|str|bytes|d];
      try (split; [|exact Hwf]; apply propertyState_alter_id;
           intros ent' He'; assert (ent' = ent) as -> by congruence;
           unfold annotateIcon; rewrite Hm; reflexivity).
    rewrite allocate_new.
    destruct (copy_setObject_state e "IOMediaIcon" d "IOBundleResourceFile"
                internalIcon _ w Hwf Hicon) as [Hstate Hwf'].
    split; [|exact Hwf']. rewrite Hstate. apply alter_ext.
    intros m Hlook. apply propertyState_lookup in Hlook as (ent' & He' & ->).
    assert (ent' = ent) as -> by congruence.
    unfold annotateIcon. rewrite Hm. reflexivity.
  - split; [|exact Hwf]. apply propertyState_alter_id. intros ent He.
    unfold annotateIcon. rewrite propertyValues_lookup.
    rewrite <- (getProperty_lookup e _ w ent He), Hget. reflexivity.
Qed.

Lemma updateProtocol_state e internal w :
  wellFormed w ->
  objectAt w internal = Some (OSString "Internal") ->
  propertyState (updateProtocol e internal w) =
    alter annotateProtocol e (propertyState w) /\
  wellFormed (updateProtocol e internal w).
Proof.
  intros Hwf Hint. unfold updateProtocol.
  destruct (getProperty e "Protocol Characteristics" w) as [a|] eqn:Hget.
  - unfold getProperty in Hget.
    destruct (entries (registry w) !! e) as [ent|] eqn:He; [|discriminate].
    destruct (Hwf e ent He _ a Hget) as [o Ho].
    unfold castOSDictionary. rewrite Ho.
    assert (Hm : propertyValues w ent !! "Protocol Characteristics" = Some o).
    { rewrite propertyValues_lookup, Hget. exact Ho. }
    destruct o as [b|n|str|bytes|d];
      try (split; [|exact Hwf]; apply propertyState_alter_id;
           intros ent' He'; assert (ent' = ent) as -> by congruence;
           unfold annotateProtocol; rewrite Hm; reflexivity).
    rewrite allocate_new.
    destruct (copy_setObject_state e "Protocol Characteristics" d
                "Physical Interconnect Location" internal _ w Hwf Hint)
      as [Hstate Hwf'].
    split; [|exact Hwf']. rewrite Hstate. apply alter_ext.
    intros m Hlook. apply propertyState_lookup in Hlook as (ent' & He' & ->).
    assert (ent' = ent) as -> by congruence.
    unfold annotateProtocol. rewrite Hm. reflexivity.
  - rewrite allocate_new.
    destruct (copy_setObject_state e "Protocol Characteristics" []
                "Physical Interconnect Location" internal _ w Hwf Hint)
      as [Hstate Hwf'].
    split; [|exact Hwf']. rewrite Hstate. apply alter_ext.
    intros m Hlook. apply propertyState_lookup in Hlook as (ent & He & ->).
    unfold annotateProtocol. rewrite propertyValues_lookup.
    rewrite <- (getProperty_lookup e _ w ent He), Hget. reflexivity.
Qed.

(** [updateOtherProperties] does to the property state of the registry what
    [annotate] says, on the entry it is given and on no other. *)
Lemma updateOtherProperties_state e w :
  wellFormed w ->
  propertyState (updateOtherProperties (Some e) w) = alter annotate e (propertyState w) /\
  wellFormed (updateOtherProperties (Some e) w).
Proof.
  intros Hwf. unfold updateOtherProperties.
  rewrite allocate_new.
  set (internal := fresh (dom (objects (registry w)))).
  set (w1 := store internal (OSString "Internal") (counted w)).
  rewrite allocate_new.
  set (internalIcon := fresh (dom (objects (registry w1)))).
  set (w2 := store internalIcon (OSString "Internal.icns") (counted w1)).
  assert (Hnew1 : objectAt w internal = None) by apply objectAt_fresh.
  assert (Hnew2 : objectAt w1 internalIcon = None) by apply objectAt_fresh.
  assert (Hwf1 : wellFormed w1) by (apply wellFormed_store; exact Hwf).
  assert (Hwf2 : wellFormed w2) by (apply wellFormed_store; exact Hwf1).
  assert (Hs1 : propertyState w1 = propertyState w).
  { unfold w1. rewrite propertyState_store; [reflexivity|].
    exact (wellFormed_unreferenced w _ Hwf Hnew1). }
  assert (Hs2 : propertyState w2 = propertyState w).
  { rewrite <- Hs1. unfold w2. rewrite propertyState_store; [reflexivity|].
    exact (wellFormed_unreferenced w1 _ Hwf1 Hnew2). }
  assert (Hint1 : objectAt w1 internal = Some (OSString "Internal")).
  { unfold w1. rewrite objectAt_store, decide_True by reflexivity. reflexivity. }
  assert (Hne : internalIcon <> internal) by congruence.
  assert (Hint2 : objectAt w2 internal = Some (OSString "Internal")).
  { unfold w2. rewrite objectAt_store, decide_False by exact Hne. exact Hint1. }
  assert (Hicon2 : objectAt w2 internalIcon = Some (OSString "Internal.icns")).
  { unfold w2. rewrite objectAt_store, decide_True by reflexivity. reflexivity. }
  set (w3 := setProperty e "Physical Interconnect Location" internal w2).
  assert (Hs3 : propertyState w3 =
                alter (insert "Physical Interconnect Location" (OSString "Internal")) e
                  (propertyState w)).
  { unfold w3. rewrite (propertyState_setProperty _ _ _ _ _ Hint2), Hs2. reflexivity. }
  assert (Hwf3 : wellFormed w3) by (apply wellFormed_setProperty; eauto).
  destruct (updateIcon_state e internalIcon w3 Hwf3 Hicon2) as [Hs4 Hwf4].
  destruct (updateProtocol_state e internal (updateIcon e internalIcon w3) Hwf4)
    as [Hs5 Hwf5].
  { apply objectsKept_updateIcon. exact Hint2. }
  destruct (setBuiltIn_state e _ Hwf5) as [Hs6 Hwf6].
  split; [|exact Hwf6].
  rewrite Hs6, Hs5, Hs4, Hs3. rewrite !alter_alter_eq. reflexivity.
Qed.

Lemma not_objectAt_before w w' a :
  objectsKept w w' -> objectAt w' a = None -> objectAt w a = None.
Proof.
  intros Hkept Hnone. destruct (objectAt w a) as [o|] eqn:Ho; [|reflexivity].
  apply Hkept in Ho. congruence.
Qed.

Lemma updateIcon_copy e internalIcon w a d :
  getProperty e "IOMediaIcon" w = Some a ->
  objectAt w a = Some (OSDictionary d) ->
  getProperty e "IOMediaIcon" (updateIcon e internalIcon w) =
  Some (fresh (dom (objects (registry w)))).
Proof.
  intros Hget Ho. unfold updateIcon, castOSDictionary.
  rewrite Hget, Ho, allocate_new.
  rewrite getProperty_setProperty, decide_True by auto.
  unfold getProperty in Hget.
  destruct (entries (registry w) !! e) as [ent|] eqn:He; [|discriminate].
  rewrite entries_dictSetObject. simpl. rewrite He. reflexivity.
Qed.

Lemma updateProtocol_copy e internal w :
  is_Some (entries (registry w) !! e) ->
  (getProperty e "Protocol Characteristics" w = None \/
   exists a d, getProperty e "Protocol Characteristics" w = Some a /\
               objectAt w a = Some (OSDictionary d)) ->
  getProperty e "Protocol Characteristics" (updateProtocol e internal w) =
  Some (fresh (dom (objects (registry w)))).
Proof.
  intros [ent He] Hcase. unfold updateProtocol, castOSDictionary.
  assert (Hstored : forall d,
    getProperty e "Protocol Characteristics"
      (setProperty e "Protocol Characteristics" (fresh (dom (objects (registry w))))
         (dictSetObject (fresh (dom (objects (registry w))))
            "Physical Interconnect Location" internal
            (store (fresh (dom (objects (registry w)))) (OSDictionary d) (counted w)))) =
    Some (fresh (dom (objects (registry w))))).
  { intros d. rewrite getProperty_setProperty, decide_True by auto.
    rewrite entries_dictSetObject. simpl. rewrite He. reflexivity. }
  destruct Hcase as [->|(a & d & -> & ->)]; rewrite allocate_new; apply Hstored.
Qed.

(** C7, as the code has it.  When no allocation fails, after
    [updateOtherProperties] on an entry: [Physical Interconnect Location] is
    the string [Internal]; an [IOMediaIcon] that was a dictionary is now a
    new dictionary object, the old entries with [IOBundleResourceFile] set
    to [Internal.icns], and the old dictionary object is as it was; the
    same holds for [Protocol Characteristics] and the key
    [Physical Interconnect Location]; when there was no
    [Protocol Characteristics] there now is a new dictionary with that one
    entry, and a [Protocol Characteristics] that was there and was not a
    dictionary is still there, untouched; [built-in] is the one byte 1; no
    object that existed before has changed.  Nothing of this depends on
    what the other properties were before.  (The registry is taken to have
    no property that points to no object.) *)
Theorem property_update_postcondition e ent w :
  wellFormed w ->
  entries (registry w) !! e = Some ent ->
  let w' := updateOtherProperties (Some e) w in
  propertyValue e "Physical Interconnect Location" w' = Some (OSString "Internal") /\
  (forall a d,
      getProperty e "IOMediaIcon" w = Some a ->
      objectAt w a = Some (OSDictionary d) ->
      exists a',
        getProperty e "IOMediaIcon" w' = Some a' /\
        objectAt w a' = None /\
        objectAt w' a' =
          Some (OSDictionary
                  (setObject "IOBundleResourceFile" (OSString "Internal.icns") d)) /\
        objectAt w' a = Some (OSDictionary d)) /\
  (forall a d,
      getProperty e "Protocol Characteristics" w = Some a ->
      objectAt w a = Some (OSDictionary d) ->
      exists a',
        getProperty e "Protocol Characteristics" w' = Some a' /\
        objectAt w a' = None /\
        objectAt w' a' =
          Some (OSDictionary
                  (setObject "Physical Interconnect Location" (OSString "Internal") d)) /\
        objectAt w' a = Some (OSDictionary d)) /\
  (getProperty e "Protocol Characteristics" w = None ->
   exists a',
     getProperty e "Protocol Characteristics" w' = Some a' /\
     objectAt w a' = None /\
     objectAt w' a' =
       Some (OSDictionary [("Physical Interconnect Location", OSString "Internal")])) /\
  (forall a,
      getProperty e "Protocol Characteristics" w = Some a ->
      castOSDictionary w (Some a) = None ->
      getProperty e "Protocol Characteristics" w' = Some a /\
      objectAt w' a = objectAt w a) /\
  propertyValue e "built-in" w' = Some (OSData [x01]) /\
  objectsKept w w'.
Proof.
  intros Hwf He w'.
  destruct (updateOtherProperties_state e w Hwf) as [Hstate _].
  fold w' in Hstate.
  assert (Hvalue : forall k,
             propertyValue e k w' = annotate (propertyValues w ent) !! k).
  { intros k. rewrite propertyValue_state, Hstate, lookup_alter_eq.
    unfold propertyState. rewrite lookup_fmap, He. reflexivity. }
  assert (Hbefore : forall k, propertyValues w ent !! k = getProperty e k w ≫= objectAt w).
  { intros k. rewrite propertyValues_lookup, (getProperty_lookup e k w ent He).
    reflexivity. }
  assert (Hkept : objectsKept w w') by apply objectsKept_updateOtherProperties.
  (* the steps of the function *)
  set (internal := fresh (dom (objects (registry w)))).
  set (w1 := store internal (OSString "Internal") (counted w)).
  set (internalIcon := fresh (dom (objects (registry w1)))).
  set (w2 := store internalIcon (OSString "Internal.icns") (counted w1)).
  set (w3 := setProperty e "Physical Interconnect Location" internal w2).
  set (w4 := updateIcon e internalIcon w3).
  set (w5 := updateProtocol e internal w4).
  assert (Hw' : w' = setBuiltIn (Some e) w5).
  { unfold w', updateOtherProperties. rewrite !allocate_new. reflexivity. }
  assert (Hkept3 : objectsKept w w3).
  { intros b x Hb. unfold w3. rewrite objectAt_setProperty.
    apply (objectsKept_store internalIcon _ (counted w1) (objectAt_fresh w1)).
    apply (objectsKept_store internal _ (counted w) (objectAt_fresh w)).
    exact Hb. }
  assert (Hkept4 : objectsKept w w4).
  { eapply objectsKept_trans; [exact Hkept3|apply objectsKept_updateIcon]. }
  assert (Hget3 : forall k, k <> "Physical Interconnect Location" ->
                            getProperty e k w3 = getProperty e k w).
  { intros k Hk. unfold w3.
    rewrite getProperty_setProperty, decide_False by (intros [_ ?]; congruence).
    reflexivity. }
  assert (He4 : is_Some (entries (registry w4) !! e)).
  { destruct (getProperty e "Physical Interconnect Location" w4) eqn:Hg.
    - unfold getProperty in Hg. destruct (entries (registry w4) !! e); [eauto|discriminate].
    - unfold w4 in Hg. rewrite getProperty_updateIcon in Hg by discriminate.
      unfold w3 in Hg. rewrite getProperty_setProperty, decide_True in Hg by auto.
      change (entries (registry w2)) with (entries (registry w)) in Hg.
      rewrite He in Hg. discriminate. }
  repeat split.
  - rewrite Hvalue. apply annotate_location.
  - intros a d Hget Ho.
    exists (fresh (dom (objects (registry w3)))).
    assert (Hnow : getProperty e "IOMediaIcon" w' =
                   Some (fresh (dom (objects (registry w3))))).
    { rewrite Hw', getProperty_setBuiltIn by discriminate.
      unfold w5. rewrite getProperty_updateProtocol by discriminate.
      apply (updateIcon_copy e internalIcon w3 a d).
      - rewrite Hget3 by discriminate. exact Hget.
      - apply Hkept3. exact Ho. }
    repeat split.
    + exact Hnow.
    + apply (not_objectAt_before w w3 _ Hkept3), objectAt_fresh.
    + pose proof (Hvalue "IOMediaIcon") as Hv.
      unfold propertyValue in Hv. rewrite Hnow in Hv. rewrite Hv.
      rewrite annotate_icon, Hbefore, Hget. simpl. rewrite Ho. reflexivity.
    + apply Hkept. exact Ho.
  - intros a d Hget Ho.
    exists (fresh (dom (objects (registry w4)))).
    assert (Hnow : getProperty e "Protocol Characteristics" w' =
                   Some (fresh (dom (objects (registry w4))))).
    { rewrite Hw', getProperty_setBuiltIn by discriminate.
      apply (updateProtocol_copy e internal w4 He4).
      right. exists a, d. split.
      - unfold w4. rewrite getProperty_updateIcon by discriminate.
        rewrite Hget3 by discriminate. exact Hget.
      - apply Hkept4. exact Ho. }
    repeat split.
    + exact Hnow.
    + apply (not_objectAt_before w w4 _ Hkept4), objectAt_fresh.
    + pose proof (Hvalue "Protocol Characteristics") as Hv.
      unfold propertyValue in Hv. rewrite Hnow in Hv. rewrite Hv.
      rewrite annotate_protocol, Hbefore, Hget. simpl. rewrite Ho. reflexivity.
    + apply Hkept. exact Ho.
  - intros Hget.
    exists (fresh (dom (objects (registry w4)))).
    assert (Hnow : getProperty e "Protocol Characteristics" w' =
                   Some (fresh (dom (objects (registry w4))))).
    { rewrite Hw', getProperty_setBuiltIn by discriminate.
      apply (updateProtocol_copy e internal w4 He4).
      left. unfold w4. rewrite getProperty_updateIcon by discriminate.
      rewrite Hget3 by discriminate. exact Hget. }
    repeat split.
    + exact Hnow.
    + apply (not_objectAt_before w w4 _ Hkept4), objectAt_fresh.
    + pose proof (Hvalue "Protocol Characteristics") as Hv.
      unfold propertyValue in Hv. rewrite Hnow in Hv. rewrite Hv.
      rewrite annotate_protocol, Hbefore, Hget. reflexivity.
  - rewrite Hw', getProperty_setBuiltIn by discriminate.
    assert (Hget4 : getProperty e "Protocol Characteristics" w4 = Some a).
    { unfold w4. rewrite getProperty_updateIcon by discriminate.
      rewrite Hget3 by discriminate. assumption. }
    destruct (Hwf e ent He "Protocol Characteristics" a) as [o Ho].
    { rewrite <- (getProperty_lookup e _ w ent He). assumption. }
    assert (Hcast4 : castOSDictionary w4 (Some a) = None).
    { unfold castOSDictionary in *. rewrite (Hkept4 a o Ho).
      rewrite Ho in *. assumption. }
    unfold w5, updateProtocol. rewrite Hget4, Hcast4. exact Hget4.
  - destruct (Hwf e ent He "Protocol Characteristics" a) as [o Ho].
    { rewrite <- (getProperty_lookup e _ w ent He). assumption. }
    rewrite Ho. apply Hkept. exact Ho.
  - rewrite Hvalue. apply annotate_builtIn.
  - exact Hkept.
Qed.

(** *** The annotation sequence on the property state *)

Lemma refines_compose f g w1 w2 w3 :
  refines f w1 w2 -> refines g w2 w3 -> refines (fun state => g (f state)) w1 w3.
Proof.
  intros (_ & Hs1 & Ht1) (Hwf & Hs2 & Ht2). repeat split.
  - exact Hwf.
  - rewrite Hs2, Hs1. reflexivity.
  - rewrite Ht2, Ht1. reflexivity.
Qed.

Lemma refines_ext f g w w' :
  f (propertyState w) = g (propertyState w) -> refines f w w' -> refines g w w'.
Proof. intros Hfg (Hwf & Hs & Ht). repeat split; [exact Hwf|congruence|exact Ht]. Qed.

Lemma refines_wellFormed f w w' : refines f w w' -> wellFormed w'.
Proof. intros (H & _). exact H. Qed.

Lemma refines_updateOtherProperties e w :
  wellFormed w -> refines (alter annotate e) w (updateOtherProperties (Some e) w).
Proof.
  intros Hwf. destruct (updateOtherProperties_state e w Hwf) as [Hs Hwf'].
  repeat split; [exact Hwf'|exact Hs|apply topology_updateOtherProperties].
Qed.

Lemma refines_setBuiltIn e w :
  wellFormed w -> refines (alter annotateBuiltIn e) w (setBuiltIn (Some e) w).
Proof.
  intros Hwf. destruct (setBuiltIn_state e w Hwf) as [Hs Hwf'].
  repeat split; [exact Hwf'|exact Hs|apply topology_setBuiltIn].
Qed.

Lemma refines_driverEntries e drivers w :
  wellFormed w ->
  refines
    (fun state =>
       fold_left (fun st d => if Nat.eqb d e then st else alter annotate d st)
         drivers state)
    w
    (fold_left
       (fun w d => if Nat.eqb d e then w else updateOtherProperties (Some d) w)
       drivers w).
Proof.
  revert w. induction drivers as [|d rest IH]; intros w Hwf; simpl.
  - repeat split. exact Hwf.
  - destruct (Nat.eqb d e).
    + apply IH. exact Hwf.
    + pose proof (refines_updateOtherProperties d w Hwf) as Hd.
      apply (refines_compose _ _ _ _ _ Hd). apply IH.
      exact (refines_wellFormed _ _ _ Hd).
Qed.

Lemma refines_pass e w :
  wellFormed w ->
  refines (annotatePass e (iterateOver e gIOServicePlane w)) w
    (updateDriverEntries e (updateOtherProperties (Some e) w)).
Proof.
  intros Hwf. pose proof (refines_updateOtherProperties e w Hwf) as He.
  unfold updateDriverEntries, annotatePass.
  rewrite (iterateOver_topology w _ e gIOServicePlane
             (topology_updateOtherProperties (Some e) w)).
  apply (refines_compose _ _ _ _ _ He). apply refines_driverEntries.
  exact (refines_wellFormed _ _ _ He).
Qed.

Lemma propertyIsTrue_state e key w :
  propertyIsTrue e key w = stateIsTrue (propertyState w) e key.
Proof.
  unfold stateIsTrue. rewrite <- propertyValue_state.
  unfold propertyIsTrue, castOSBoolean, propertyValue.
  destruct (getProperty e key w) as [a|]; [|reflexivity].
  destruct (objectAt w a) as [[[|]| | | |]|]; reflexivity.
Qed.

Section QuietKernel.

Hypothesis quietKernel : forall t ms r, external t ms r = r.

Lemma registry_IOSleep ms w : registry (IOSleep ms w) = registry w.
Proof. unfold IOSleep. simpl. apply quietKernel. Qed.

Lemma refines_registry f w w1 w2 :
  registry w2 = registry w1 -> refines f w w1 -> refines f w w2.
Proof.
  unfold refines, wellFormed, propertyState, propertyValues, topology, objectAt.
  intros ->. auto.
Qed.

Lemma propertyIsTrue_registry e key w1 w2 :
  registry w2 = registry w1 -> propertyIsTrue e key w2 = propertyIsTrue e key w1.
Proof.
  unfold propertyIsTrue, castOSBoolean, getProperty, objectAt. intros ->. reflexivity.
Qed.

Lemma waitForFlag_quiet key e n w :
  registry (snd (waitForFlag key e n w)) = registry w /\
  (fst (waitForFlag key e (S n) w) <=? 0)%Z = negb (propertyIsTrue e key w).
Proof.
  split.
  - revert w. induction n as [|n IH]; intros w; simpl;
      destruct (propertyIsTrue e key w); try reflexivity.
    rewrite IH. apply registry_IOSleep.
  - revert w. induction n as [|n IH]; intros w.
    + simpl. destruct (propertyIsTrue e key w) eqn:Hf; [reflexivity|].
      rewrite (propertyIsTrue_registry e key w _ (registry_IOSleep 10 w)), Hf.
      reflexivity.
    + change (waitForFlag key e (S (S n)) w) with
        (if propertyIsTrue e key w then (Z.of_nat (S (S n)), w)
         else waitForFlag key e (S n) (IOSleep 10 w)).
      destruct (propertyIsTrue e key w) eqn:Hf.
      * cbn [fst negb]. apply Z.leb_gt. lia.
      * rewrite IH.
        rewrite (propertyIsTrue_registry e key w _ (registry_IOSleep 10 w)), Hf.
        reflexivity.
Qed.

Lemma updatePasses_three e w :
  updatePasses e 3 0%Z w =
  updateDriverEntries e (updateOtherProperties (Some e)
    (IOSleep 100 (updateDriverEntries e (updateOtherProperties (Some e)
      (IOSleep 100 (updateDriverEntries e (updateOtherProperties (Some e) w))))))).
Proof. reflexivity. Qed.

Lemma refines_sleep_pass e w0 f w :
  refines f w0 w ->
  refines (fun state => annotatePass e (iterateOver e gIOServicePlane w0) (f state)) w0
    (updateDriverEntries e (updateOtherProperties (Some e) (IOSleep 100 w))).
Proof.
  intros Hf.
  assert (Hs : refines f w0 (IOSleep 100 w)).
  { apply (refines_registry f w0 w); [apply registry_IOSleep|exact Hf]. }
  pose proof (refines_pass e _ (refines_wellFormed _ _ _ Hs)) as Hp.
  destruct Hs as (Hwf & Hstate & Htop).
  rewrite (iterateOver_topology w0 _ e gIOServicePlane Htop) in Hp.
  exact (refines_compose _ _ _ _ _ (conj Hwf (conj Hstate Htop)) Hp).
Qed.

Lemma refines_internalizeDevice e w :
  wellFormed w ->
  refines (annotateDevice e (iterateOver e gIOServicePlane w)) w (internalizeDevice e w).
Proof.
  intros Hwf.
  pose proof (refines_setBuiltIn e w Hwf) as Hb.
  unfold internalizeDevice, annotateDevice.
  destruct (waitForFlag_quiet "IOPCIResourced" e 1999 (setBuiltIn (Some e) w))
    as [_ Hflag].
  destruct (waitForFlag_quiet "IOPCIResourced" e 2000 (setBuiltIn (Some e) w))
    as [Hreg _].
  change (S 1999) with 2000 in Hflag.
  destruct (waitForFlag "IOPCIResourced" e 2000 (setBuiltIn (Some e) w))
    as [timeout w2].
  cbn [fst snd] in Hflag, Hreg. rewrite Hflag.
  rewrite propertyIsTrue_state.
  destruct Hb as (Hwf1 & Hs1 & Ht1). rewrite Hs1.
  assert (H2 : refines (alter annotateBuiltIn e) w w2).
  { apply (refines_registry _ w (setBuiltIn (Some e) w)); [exact Hreg|].
    repeat split; assumption. }
  destruct (stateIsTrue (alter annotateBuiltIn e (propertyState w)) e "IOPCIResourced")
    eqn:Hcase; cbn [negb].
  - rewrite updatePasses_three.
    assert (Htop2 : topology w2 = topology w) by (destruct H2 as (_ & _ & H); exact H).
    pose proof (refines_pass e w2 (refines_wellFormed _ _ _ H2)) as Hp1.
    rewrite (iterateOver_topology w w2 e gIOServicePlane Htop2) in Hp1.
    pose proof (refines_compose _ _ _ _ _ H2 Hp1) as H3.
    pose proof (refines_sleep_pass e w _ _ H3) as H4.
    pose proof (refines_sleep_pass e w _ _ H4) as H5.
    eapply refines_ext; [|exact H5].
    cbn beta. rewrite Hcase. reflexivity.
  - eapply refines_ext; [|exact H2].
    cbn beta. rewrite Hcase. reflexivity.
Qed.

(** C8. Idempotence.  In a registry that nothing else changes meanwhile,
    and when no allocation fails, running [internalizeDevice] on a node a
    second time leaves the property state of the registry (the properties
    of every entry, by value) as the first run left it, whatever the
    properties were before; the same holds for [updateOtherProperties]. *)
Theorem annotation_idempotent e w :
  wellFormed w ->
  propertyState (internalizeDevice e (internalizeDevice e w)) =
    propertyState (internalizeDevice e w) /\
  propertyState (updateOtherProperties (Some e) (updateOtherProperties (Some e) w)) =
    propertyState (updateOtherProperties (Some e) w).
Proof.
  intros Hwf. split.
  - destruct (refines_internalizeDevice e w Hwf) as (Hwf1 & Hs1 & Ht1).
    destruct (refines_internalizeDevice e _ Hwf1) as (_ & Hs2 & _).
    rewrite Hs2, (iterateOver_topology w _ e gIOServicePlane Ht1), Hs1.
    apply annotateDevice_idempotent.
  - destruct (updateOtherProperties_state e w Hwf) as [Hs1 Hwf1].
    destruct (updateOtherProperties_state e _ Hwf1) as [Hs2 _].
    rewrite Hs2, Hs1, alter_alter_eq. apply alter_ext. intros m _.
    apply annotate_idempotent.
Qed.

End QuietKernel.

End NoAllocationFailure.

(** ** The annotator *)

Lemma updateDriverEntries_onePass entry w :
  updateDriverEntries entry (updateOtherProperties (Some entry) w) = onePass entry w.
Proof.
  unfold updateDriverEntries, onePass, passTargets.
  generalize (iterateOver entry gIOServicePlane (updateOtherProperties (Some entry) w)).
  generalize (updateOtherProperties (Some entry) w).
  intros w0 drivers. revert w0.
  induction drivers as [|d rest IH]; intros w0; simpl; [reflexivity|].
  destruct (Nat.eqb d entry); simpl; apply IH.
Qed.

Lemma internalizeDevice_passes entry w :
  internalizeDevice entry w =
  if unseenFor "IOPCIResourced" entry 2000 (setBuiltIn (Some entry) w)
  then afterSleeps 2000 (setBuiltIn (Some entry) w)
  else
    onePass entry (IOSleep 100 (onePass entry (IOSleep 100 (onePass entry
      (snd (waitForFlag "IOPCIResourced" entry 2000 (setBuiltIn (Some entry) w))))))).
Proof.
  unfold internalizeDevice.
  pose proof (waitForFlag_nonpositive "IOPCIResourced" entry 2000
                (setBuiltIn (Some entry) w)) as Hle.
  destruct (unseenFor "IOPCIResourced" entry 2000 (setBuiltIn (Some entry) w)) eqn:Hu.
  - apply waitForFlag_unseen in Hu as [Hw _].
    destruct (waitForFlag "IOPCIResourced" entry 2000 (setBuiltIn (Some entry) w))
      as [timeout w2].
    cbn [fst snd] in *. rewrite Hle. exact Hw.
  - destruct (waitForFlag "IOPCIResourced" entry 2000 (setBuiltIn (Some entry) w))
      as [timeout w2].
    cbn [fst snd] in *. rewrite Hle.
    change (updatePasses entry 3 0%Z w2) with
      (updateDriverEntries entry (updateOtherProperties (Some entry)
         (IOSleep 100 (updateDriverEntries entry (updateOtherProperties (Some entry)
            (IOSleep 100 (updateDriverEntries entry
               (updateOtherProperties (Some entry) w2)))))))).
    rewrite !updateDriverEntries_onePass. reflexivity.
Qed.

(** C5. The resourcing timeout.  [internalizeDevice] first writes
    [built-in], before any time passes.  When [IOPCIResourced] is not true
    at any of the 2000 checks that precede a 10 ms sleep, the rest of the
    call is the 2000 sleeps and nothing else: none of the updates of the
    passes is made. *)
Theorem resourcing_timeout entry ent w :
  entries (registry w) !! entry = Some ent ->
  allocFails (allocs w) = false ->
  unseenFor "IOPCIResourced" entry 2000 (setBuiltIn (Some entry) w) = true ->
  (exists a,
      trace (setBuiltIn (Some entry) w) = trace w ++ [PropertySet entry "built-in" a] /\
      getProperty entry "built-in" (setBuiltIn (Some entry) w) = Some a /\
      objectAt (setBuiltIn (Some entry) w) a = Some (OSData [x01])) /\
  now (setBuiltIn (Some entry) w) = now w /\
  internalizeDevice entry w = afterSleeps 2000 (setBuiltIn (Some entry) w) /\
  trace (internalizeDevice entry w) =
    trace (setBuiltIn (Some entry) w) ++ repeat (Slept 10) 2000.
Proof.
  intros He Hok Hu.
  assert (Hrun : internalizeDevice entry w = afterSleeps 2000 (setBuiltIn (Some entry) w)).
  { rewrite internalizeDevice_passes, Hu. reflexivity. }
  split; [|split; [|split]].
  - unfold setBuiltIn, allocate. rewrite Hok.
    exists (fresh (dom (objects (registry w)))). split; [reflexivity|]. split.
    + rewrite getProperty_setProperty, decide_True by auto.
      simpl. rewrite He. reflexivity.
    + rewrite objectAt_setProperty, objectAt_store, decide_True by reflexivity.
      reflexivity.
  - unfold setBuiltIn, allocate. rewrite Hok. reflexivity.
  - exact Hrun.
  - rewrite Hrun. apply afterSleeps_trace.
Qed.

(** C6. The three passes.  When [IOPCIResourced] is seen true within the
    budget, [internalizeDevice] goes on with exactly three passes, with a
    sleep of 100 ms after the first and after the second and none after the
    third.  A pass updates the node, which writes to the node only, and then
    updates the entries that the recursive iterator of the service plane
    yields, in its order and leaving out the node itself: these are the
    entries below the node in the service plane. *)
Theorem three_pass_propagation entry w :
  unseenFor "IOPCIResourced" entry 2000 (setBuiltIn (Some entry) w) = false ->
  internalizeDevice entry w =
    onePass entry (IOSleep 100 (onePass entry (IOSleep 100 (onePass entry
      (snd (waitForFlag "IOPCIResourced" entry 2000 (setBuiltIn (Some entry) w))))))) /\
  (forall w0,
      onePass entry w0 =
        fold_left (fun w d => updateOtherProperties (Some d) w)
          (passTargets entry w0) (updateOtherProperties (Some entry) w0) /\
      writesTo entry w0 (updateOtherProperties (Some entry) w0) /\
      (forall d,
          In d (passTargets entry w0) <->
          descendant gIOServicePlane w0 entry d /\ d <> entry)).
Proof.
  intros Hu. split.
  - rewrite internalizeDevice_passes, Hu. reflexivity.
  - intros w0. split; [reflexivity|]. split; [apply writesTo_updateOtherProperties|].
    intros d. unfold passTargets.
    rewrite filter_In, negb_true_iff, Nat.eqb_neq, iterateOver_descendants.
    pose proof (topology_updateOtherProperties (Some entry) w0) as Htop.
    split; intros [Hd Hne]; (split; [|exact Hne]).
    + exact (descendant_topology _ _ _ _ _ Htop Hd).
    + exact (descendant_topology _ _ _ _ _ (eq_sym Htop) Hd).
Qed.

(** C9, as the code has it.  When one of the two strings cannot be built,
    [updateOtherProperties] returns at once: no property of the entry is
    written in this call, also not [Physical Interconnect Location] when its
    own string was built, and not [built-in].  When the [built-in] data, a
    dictionary copy or the new dictionary cannot be built, that one property
    is not written and the others are.  In each case the function returns
    to its caller as it does otherwise. *)
Theorem allocation_failure_is_local e w :
  (allocFails (allocs w) = true \/ allocFails (S (allocs w)) = true ->
   entries (registry (updateOtherProperties (Some e) w)) = entries (registry w) /\
   trace (updateOtherProperties (Some e) w) = trace w) /\
  (allocFails (allocs w) = true -> setBuiltIn (Some e) w = counted w) /\
  (forall internalIcon,
      allocFails (allocs w) = true ->
      updateIcon e internalIcon w = w \/ updateIcon e internalIcon w = counted w) /\
  (forall internal,
      allocFails (allocs w) = true ->
      updateProtocol e internal w = w \/ updateProtocol e internal w = counted w) /\
  (forall internal internalIcon w1 w2,
      allocate (OSString "Internal") w = (Some internal, w1) ->
      allocate (OSString "Internal.icns") w1 = (Some internalIcon, w2) ->
      updateOtherProperties (Some e) w =
      setBuiltIn (Some e)
        (updateProtocol e internal
           (updateIcon e internalIcon
              (setProperty e "Physical Interconnect Location" internal w2)))).
Proof.
  split; [|split; [|split; [|split]]].
  - intros Hfail. unfold updateOtherProperties, allocate.
    destruct (allocFails (allocs w)) eqn:H1; simpl.
    + destruct (allocFails (S (allocs w))); split; reflexivity.
    + destruct Hfail as [Hfail|Hfail]; [discriminate|].
      rewrite Hfail. split; reflexivity.
  - intros Hfail. unfold setBuiltIn, allocate. rewrite Hfail. reflexivity.
  - intros internalIcon Hfail. unfold updateIcon, allocate. rewrite Hfail.
    destruct (getProperty e "IOMediaIcon" w) as [icon|]; [|left; reflexivity].
    destruct (castOSDictionary w (Some icon)); [right|left]; reflexivity.
  - intros internal Hfail. unfold updateProtocol, allocate. rewrite Hfail.
    destruct (getProperty e "Protocol Characteristics" w) as [proto|];
      [|right; reflexivity].
    destruct (castOSDictionary w (Some proto)); [right|left]; reflexivity.
  - intros internal internalIcon w1 w2 H1 H2.
    unfold updateOtherProperties. rewrite H1, H2. reflexivity.
Qed.

(** ** The walker *)

Lemma visitChild_classCode recurse child w code :
  classCodeOf child w = Some code ->
  visitChild recurse child w =
  if isStorageCode code then Some (internalizeDevice child w)
  else if (code =? PCIBridge codes)%Z then
    if unseenFor "IOPCIConfigured" child 1000 w then Some (afterSleeps 1000 w)
    else recurse child (snd (waitForFlag "IOPCIConfigured" child 1000 w))
  else Some w.
Proof.
  unfold classCodeOf, visitChild. intros H.
  destruct (getProperty child "class-code" w) as [a|]; [|discriminate].
  destruct (castOSData w (Some a)) as [bytes|]; [|discriminate].
  rewrite H.
  destruct (isStorageCode code); [reflexivity|].
  destruct (code =? PCIBridge codes)%Z; [|reflexivity].
  pose proof (waitForFlag_positive "IOPCIConfigured" child 1000 w) as Hpos.
  destruct (unseenFor "IOPCIConfigured" child 1000 w) eqn:Hu.
  - apply waitForFlag_unseen in Hu as [Hw _].
    destruct (waitForFlag "IOPCIConfigured" child 1000 w) as [t w1].
    simpl in *. rewrite Hpos. congruence.
  - destruct (waitForFlag "IOPCIConfigured" child 1000 w) as [t w1].
    simpl in *. rewrite Hpos. reflexivity.
Qed.

Lemma visitChild_unclassified recurse child w :
  castOSData w (getProperty child "class-code" w) = None ->
  visitChild recurse child w = Some w.
Proof.
  unfold visitChild. intros H.
  destruct (getProperty child "class-code" w) as [a|]; [|reflexivity].
  rewrite H. reflexivity.
Qed.

Lemma visitChild_whenConfigured recurse child w :
  visitChild recurse child w = visitChild (whenConfigured recurse) child w.
Proof.
  unfold visitChild.
  destruct (getProperty child "class-code" w) as [a|]; [|reflexivity].
  destruct (castOSData w (Some a)) as [bytes|]; [|reflexivity].
  destruct (readUInt32 bytes) as [code|]; [|reflexivity].
  destruct (isStorageCode code); [reflexivity|].
  destruct (code =? PCIBridge codes)%Z; [|reflexivity].
  pose proof (waitForFlag_positive "IOPCIConfigured" child 1000 w) as Hpos.
  destruct (unseenFor "IOPCIConfigured" child 1000 w) eqn:Hu.
  - destruct (waitForFlag "IOPCIConfigured" child 1000 w) as [t w1].
    simpl in *. rewrite Hpos. reflexivity.
  - apply waitForFlag_seen in Hu as [_ Hflag].
    destruct (waitForFlag "IOPCIConfigured" child 1000 w) as [t w1].
    simpl in *. rewrite Hpos. unfold whenConfigured. rewrite Hflag. reflexivity.
Qed.

Lemma forEachEntry_ext body1 body2 iterator w :
  (forall e w', body1 e w' = body2 e w') ->
  forEachEntry body1 iterator w = forEachEntry body2 iterator w.
Proof.
  intros H. revert w. induction iterator as [|e rest IH]; intros w; simpl.
  - reflexivity.
  - rewrite H. destruct (body2 e w); auto.
Qed.

Lemma visitChild_ext recurse1 recurse2 child w :
  (forall e w', recurse1 e w' = recurse2 e w') ->
  visitChild recurse1 child w = visitChild recurse2 child w.
Proof.
  intros H. unfold visitChild.
  destruct (getProperty child "class-code" w) as [a|]; [|reflexivity].
  destruct (castOSData w (Some a)) as [bytes|]; [|reflexivity].
  destruct (readUInt32 bytes) as [code|]; [|reflexivity].
  destruct (isStorageCode code); [reflexivity|].
  destruct (code =? PCIBridge codes)%Z; [|reflexivity].
  destruct (waitForFlag "IOPCIConfigured" child 1000 w) as [timeout w1].
  destruct (timeout >? 0)%Z; [apply H|reflexivity].
Qed.

Lemma forEachEntry_app body pre rest w :
  forEachEntry body (pre ++ rest) w =
  match forEachEntry body pre w with
  | Some w1 => forEachEntry body rest w1
  | None => None
  end.
Proof.
  revert w. induction pre as [|e pre IH]; intros w; simpl; [reflexivity|].
  destruct (body e w) as [w'|]; [apply IH|reflexivity].
Qed.

(** The walker at one child of the bridge: it has visited the children
    before it, visits it, and goes on with the children after it. *)
Lemma recurseBridge_child fuel entry pre child siblings w w1 :
  getChildIterator entry gIODTPlane w = pre ++ child :: siblings ->
  forEachEntry (visitChild (recurseBridge fuel)) pre w = Some w1 ->
  recurseBridge (S fuel) entry w =
  match visitChild (recurseBridge fuel) child w1 with
  | Some w2 => forEachEntry (visitChild (recurseBridge fuel)) siblings w2
  | None => None
  end.
Proof.
  intros Hit Hpre. cbn [recurseBridge].
  rewrite Hit, forEachEntry_app, Hpre. reflexivity.
Qed.

Lemma recurseBridge_whenConfigured fuel entry w :
  recurseBridge fuel entry w = recurseBridgeWhenConfigured fuel entry w.
Proof.
  revert entry w. induction fuel as [|fuel IH]; intros entry w;
    cbn [recurseBridge recurseBridgeWhenConfigured]; [reflexivity|].
  apply forEachEntry_ext. intros e w'.
  rewrite visitChild_whenConfigured. apply visitChild_ext.
  intros e' w''. unfold whenConfigured.
  destruct (propertyIsTrue e' "IOPCIConfigured" w''); [apply IH|reflexivity].
Qed.

(** C3. Classification routing, of the walker itself.  [recurseBridge] on a
    bridge walks the children the bridge has in the device tree, in their
    order.  Let [child] be any of them, and [w1] the world in which the
    walker comes to it, having visited the children before it.  When the
    class code of [child] is one of the three storage codes, the child is
    handed to [internalizeDevice], whatever its properties already are, and
    the walk goes on with its siblings.  When it is the bridge code, the
    child is waited for, and the walker recurses into it only when the wait
    ended with a positive timeout, and then its flag is true; in both cases
    the walk goes on with the siblings.  A child with any other class code,
    a child whose [class-code] is not an [OSData] and a child without
    [class-code] are left alone: the walk goes on with the siblings in the
    same world.  (The bridge code is taken not to be one of the storage
    codes.) *)
Theorem classification_routing fuel entry pre child siblings w w1 :
  isStorageCode (PCIBridge codes) = false ->
  getChildIterator entry gIODTPlane w = pre ++ child :: siblings ->
  forEachEntry (visitChild (recurseBridge fuel)) pre w = Some w1 ->
  (forall code,
      classCodeOf child w1 = Some code -> isStorageCode code = true ->
      recurseBridge (S fuel) entry w =
      forEachEntry (visitChild (recurseBridge fuel)) siblings
        (internalizeDevice child w1)) /\
  (classCodeOf child w1 = Some (PCIBridge codes) ->
   recurseBridge (S fuel) entry w =
     (if (fst (waitForFlag "IOPCIConfigured" child 1000 w1) >? 0)%Z
      then
        match recurseBridge fuel child
                (snd (waitForFlag "IOPCIConfigured" child 1000 w1)) with
        | Some w2 => forEachEntry (visitChild (recurseBridge fuel)) siblings w2
        | None => None
        end
      else
        forEachEntry (visitChild (recurseBridge fuel)) siblings
          (snd (waitForFlag "IOPCIConfigured" child 1000 w1))) /\
   ((fst (waitForFlag "IOPCIConfigured" child 1000 w1) >? 0)%Z = true ->
    propertyIsTrue child "IOPCIConfigured"
      (snd (waitForFlag "IOPCIConfigured" child 1000 w1)) = true)) /\
  (forall code,
      classCodeOf child w1 = Some code -> isStorageCode code = false ->
      code <> PCIBridge codes ->
      recurseBridge (S fuel) entry w =
      forEachEntry (visitChild (recurseBridge fuel)) siblings w1) /\
  (forall address,
      getProperty child "class-code" w1 = Some address ->
      castOSData w1 (Some address) = None ->
      recurseBridge (S fuel) entry w =
      forEachEntry (visitChild (recurseBridge fuel)) siblings w1) /\
  (getProperty child "class-code" w1 = None ->
   recurseBridge (S fuel) entry w =
   forEachEntry (visitChild (recurseBridge fuel)) siblings w1).
Proof.
  intros Hcodes Hit Hpre.
  rewrite (recurseBridge_child _ _ _ _ _ _ _ Hit Hpre).
  split; [|split; [|split; [|split]]].
  - intros code Hc Hs. rewrite (visitChild_classCode _ _ _ _ Hc), Hs. reflexivity.
  - intros Hc. split.
    + rewrite (visitChild_classCode _ _ _ _ Hc), Hcodes, Z.eqb_refl.
      rewrite waitForFlag_positive.
      destruct (unseenFor "IOPCIConfigured" child 1000 w1) eqn:Hu; cbn [negb].
      * apply waitForFlag_unseen in Hu as [-> _]. reflexivity.
      * reflexivity.
    + rewrite waitForFlag_positive. intros Hu.
      apply negb_true_iff in Hu. apply waitForFlag_seen in Hu as [_ Hf]. exact Hf.
  - intros code Hc Hs Hne.
    rewrite (visitChild_classCode _ _ _ _ Hc), Hs.
    destruct (Z.eqb_spec code (PCIBridge codes)); [contradiction|reflexivity].
  - intros a Ha Hcast. rewrite visitChild_unclassified; [reflexivity|].
    rewrite Ha. exact Hcast.
  - intros Hnone. rewrite visitChild_unclassified; [reflexivity|].
    rewrite Hnone. reflexivity.
Qed.

(** C4. Bridge readiness, of the walker itself.  At every depth the
    recursive calls of [recurseBridge] are made only on a bridge whose
    [IOPCIConfigured] is true at the moment of the call: the walk is the
    same as the walk in which every other recursive call is refused.  Let
    [child] be any child of the bridge that has the class code of a bridge,
    and [w1] the world in which the walker comes to it.  When its flag is
    seen at one of the 1000 checks that precede a sleep, the walker
    recurses into it, with the flag true, and then goes on with the
    siblings.  When the flag is not true at any of these checks, the visit
    of that child consists of the 1000 sleeps of 10 ms and nothing else, no
    recursive call and no property written, and the walker goes on with the
    siblings of the bridge. *)
Theorem bridge_readiness fuel entry pre child siblings w w1 :
  isStorageCode (PCIBridge codes) = false ->
  getChildIterator entry gIODTPlane w = pre ++ child :: siblings ->
  forEachEntry (visitChild (recurseBridge fuel)) pre w = Some w1 ->
  classCodeOf child w1 = Some (PCIBridge codes) ->
  (forall fuel' entry' w',
      recurseBridge fuel' entry' w' = recurseBridgeWhenConfigured fuel' entry' w') /\
  (unseenFor "IOPCIConfigured" child 1000 w1 = false ->
   propertyIsTrue child "IOPCIConfigured"
     (snd (waitForFlag "IOPCIConfigured" child 1000 w1)) = true /\
   recurseBridge (S fuel) entry w =
     match recurseBridge fuel child
             (snd (waitForFlag "IOPCIConfigured" child 1000 w1)) with
     | Some w2 => forEachEntry (visitChild (recurseBridge fuel)) siblings w2
     | None => None
     end) /\
  (unseenFor "IOPCIConfigured" child 1000 w1 = true ->
   (forall other, visitChild other child w1 = Some (afterSleeps 1000 w1)) /\
   trace (afterSleeps 1000 w1) = trace w1 ++ repeat (Slept 10) 1000 /\
   recurseBridge (S fuel) entry w =
     forEachEntry (visitChild (recurseBridge fuel)) siblings (afterSleeps 1000 w1)).
Proof.
  intros Hcodes Hit Hpre Hc.
  split; [exact recurseBridge_whenConfigured|].
  rewrite (recurseBridge_child _ _ _ _ _ _ _ Hit Hpre).
  split.
  - intros Hu. split; [exact (proj2 (waitForFlag_seen _ _ _ _ Hu))|].
    rewrite (visitChild_classCode _ _ _ _ Hc), Hcodes, Z.eqb_refl, Hu.
    reflexivity.
  - intros Hu.
    assert (Hv : forall other, visitChild other child w1 = Some (afterSleeps 1000 w1)).
    { intros other.
      rewrite (visitChild_classCode _ _ _ _ Hc), Hcodes, Z.eqb_refl, Hu.
      reflexivity. }
    split; [exact Hv|]. split; [apply afterSleeps_trace|].
    rewrite Hv. reflexivity.
Qed.


(** ** The bus root locator *)

Lemma scanRoots_skip fuel pre rest ready found w :
  forallb (fun x => negb (isPCIRoot x w)) pre = true ->
  scanRoots fuel (pre ++ rest) ready found w = scanRoots fuel rest ready found w.
Proof.
  induction pre as [|x pre IH]; simpl; [reflexivity|].
  intros H. apply andb_prop in H as [Hx Hpre].
  apply negb_true_iff in Hx. rewrite Hx. auto.
Qed.

Lemma scanRoots_none fuel iterator ready found w :
  forallb (fun x => negb (isPCIRoot x w)) iterator = true ->
  scanRoots fuel iterator ready found w = Some (ready, found, w).
Proof.
  intros H. rewrite <- (app_nil_r iterator), (scanRoots_skip _ _ _ _ _ _ H).
  reflexivity.
Qed.

Lemma scanRoots_found fuel iterator ready w ready' found' w' :
  scanRoots fuel iterator ready true w = Some (ready', found', w') -> found' = true.
Proof.
  revert w. induction iterator as [|x rest IH]; intros w; simpl.
  - intros [= _ <- _]. reflexivity.
  - destruct (isPCIRoot x w); [|apply IH].
    destruct ready.
    + destruct (waitConfigured fuel x w) as [w1|]; [|discriminate].
      destruct (recurseBridge fuel x w1) as [w2|]; [|discriminate]. apply IH.
    + intros [= _ <- _]. reflexivity.
Qed.

(** A scan that ends with [found] false has selected nothing: it has done
    nothing at all, or it has made the one pause of 1000 ms. *)
Lemma scanRoots_not_found fuel iterator ready found w ready' w' :
  scanRoots fuel iterator ready found w = Some (ready', false, w') ->
  (ready' = ready /\ w' = w) \/
  (ready = false /\ ready' = true /\ w' = IOSleep 1000 w).
Proof.
  revert w. induction iterator as [|x rest IH]; intros w; simpl.
  - intros [= <- _ <-]. left. split; reflexivity.
  - destruct (isPCIRoot x w); [|apply IH].
    destruct ready.
    + destruct (waitConfigured fuel x w) as [w1|]; [|discriminate].
      destruct (recurseBridge fuel x w1) as [w2|]; [|discriminate].
      intros H. apply scanRoots_found in H. discriminate.
    + intros [= <- _ <-]. right. repeat split.
Qed.

Lemma rootLoop_not_found fuel root ready found repeat w w' :
  rootLoop fuel root ready found repeat w = Some (false, w') ->
  w' = w \/ (ready = false /\ w' = IOSleep 1000 w).
Proof.
  revert ready found repeat w. induction fuel as [|fuel IH];
    intros ready found repeat w; simpl; [discriminate|].
  destruct (scanRoots fuel (getChildIterator root gIODTPlane w) ready found w)
    as [[[ready1 found1] w1]|] eqn:Hscan; [|discriminate].
  destruct ((repeat <? 268435456)%N && negb found1) eqn:Hagain.
  - apply andb_prop in Hagain as [_ Hf]. apply negb_true_iff in Hf. subst found1.
    intros Hloop. apply IH in Hloop.
    apply scanRoots_not_found in Hscan.
    destruct Hscan as [[-> ->]|(-> & -> & ->)].
    + exact Hloop.
    + destruct Hloop as [->|[Hc _]]; [|discriminate]. right. split; reflexivity.
  - intros [= -> <-]. apply scanRoots_not_found in Hscan.
    destruct Hscan as [[_ ->]|(-> & _ & ->)]; [left|right]; auto.
Qed.

(** With no bus root among the children of the root, the loop makes all
    its [0x10000001] rounds and changes nothing. *)
Lemma rootLoop_no_candidate fuel root ready repeat w :
  forallb (fun x => negb (isPCIRoot x w)) (getChildIterator root gIODTPlane w) = true ->
  (repeat <= 0x10000000)%N ->
  N.to_nat (0x10000000 - repeat) < fuel ->
  rootLoop fuel root ready false repeat w = Some (false, w).
Proof.
  intros Hnone. revert repeat. induction fuel as [|fuel IH]; intros repeat Hle Hfuel;
    [lia|].
  cbn [rootLoop]. rewrite (scanRoots_none _ _ _ _ _ Hnone). cbn [negb].
  rewrite andb_true_r.
  destruct (N.ltb_spec repeat 0x10000000) as [Hlt|Hge]; [|reflexivity].
  apply IH; lia.
Qed.


(** C2, as the code has it.  When the loop of the locator ends with nothing
    selected, [processRoot] returns like any other time and [start]
    registers the service and returns [true]: the failure is not reported.
    Nothing has been annotated: the loop has at most made its one pause. *)
Theorem root_not_found_is_not_reported fuel root w w' :
  deviceTreeRoot (registry w) = Some root ->
  rootLoop fuel root false false 0%N w = Some (false, w') ->
  start true fuel w = Some (true, record ServiceRegistered w') /\
  (w' = w \/ w' = IOSleep 1000 w).
Proof.
  intros Hroot Hloop. split.
  - unfold start, processRoot. cbn [negb]. rewrite Hroot, Hloop. reflexivity.
  - apply rootLoop_not_found in Hloop. destruct Hloop as [->|[_ ->]]; auto.
Qed.

(** * More of the driver *)

(** ** Names of bus roots *)

(** X1. A child of the root is taken for a bus root exactly when it is a
    registry entry with a name that begins with the two characters [PC]: a
    shorter name, a name in other case and an entry without a name are not. *)
Theorem isPCIRoot_prefix pciRoot w :
  isPCIRoot pciRoot w = true <->
  exists e rest,
    entries (registry w) !! pciRoot = Some e /\
    getName e = Some (String "P" (String "C" rest)).
Proof.
  assert (Hchar : forall (c : ascii) (k : nat),
             nat_of_ascii c = k -> c = ascii_of_nat k).
  { intros c k <-. symmetry. apply ascii_nat_embedding. }
  assert (Hcmp : forall name,
             (strncmp "PC" name 2 =? 0)%Z = true <->
             exists rest, name = String "P" (String "C" rest)).
  { intros name. rewrite Z.eqb_eq. split.
    - destruct name as [|c1 [|c2 rest]]; cbn [strncmp].
      + intros H. discriminate H.
      + destruct (Ascii.eqb_spec "P" c1) as [<-|Hne]; intros H.
        * discriminate H.
        * exfalso. apply Hne. symmetry. apply (Hchar c1 80). change (nat_of_ascii "P") with 80 in H. lia.
      + destruct (Ascii.eqb_spec "P" c1) as [<-|Hne].
        * destruct (Ascii.eqb_spec "C" c2) as [<-|Hne2]; intros H; [eauto|].
          exfalso. apply Hne2. symmetry. apply (Hchar c2 67).
          change (nat_of_ascii "C") with 67 in H. lia.
        * intros H. exfalso. apply Hne. symmetry. apply (Hchar c1 80).
          change (nat_of_ascii "P") with 80 in H. lia.
    - intros [rest ->]. reflexivity. }
  unfold isPCIRoot. split.
  - destruct (entries (registry w) !! pciRoot) as [e|]; [|discriminate].
    destruct (getName e) as [name|] eqn:Hname; [|discriminate].
    intros H. apply Hcmp in H as [rest ->]. eauto.
  - intros (e & rest & -> & ->). apply Hcmp. eauto.
Qed.

(** ** The class code *)

Lemma byteValue_range b : (0 <= byteValue b < 256)%Z.
Proof. unfold byteValue. pose proof (Byte.to_N_bounded b). lia. Qed.

Lemma lor_disjoint a b n :
  (0 <= n)%Z -> (0 <= a < 2 ^ n)%Z -> (0 <= b)%Z ->
  Z.lor a (b * 2 ^ n) = (a + b * 2 ^ n)%Z.
Proof.
  intros Hn Ha Hb.
  rewrite <- Z.add_lor_land.
  assert (Z.land a (b * 2 ^ n) = 0)%Z as ->; [|lia].
  apply Z.bits_inj'. intros i Hi.
  rewrite Z.land_spec, Z.bits_0.
  destruct (Z.lt_ge_cases i n) as [Hlt|Hge].
  - rewrite Z.mul_pow2_bits_low by exact Hlt. apply andb_false_r.
  - destruct (Z.eq_dec a 0%Z) as [->|Hne]; [rewrite Z.bits_0; reflexivity|].
    rewrite (Z.bits_above_log2 a i); [reflexivity|lia|].
    assert (Z.log2 a < n)%Z by (apply Z.log2_lt_pow2; lia). lia.
Qed.

Lemma readUInt32_value b0 b1 b2 b3 rest :
  readUInt32 (b0 :: b1 :: b2 :: b3 :: rest) =
  Some (byteValue b0 + 2 ^ 8 * byteValue b1 + 2 ^ 16 * byteValue b2
        + 2 ^ 24 * byteValue b3)%Z.
Proof.
  pose proof (byteValue_range b0). pose proof (byteValue_range b1).
  pose proof (byteValue_range b2). pose proof (byteValue_range b3).
  cbn [readUInt32]. f_equal.
  rewrite (Z.shiftl_mul_pow2 _ 8), (Z.shiftl_mul_pow2 _ 16),
    (Z.shiftl_mul_pow2 _ 24) by (clear; lia).
  rewrite (lor_disjoint (byteValue b2 * 2 ^ 16) (byteValue b3) 24) by lia.
  replace (byteValue b2 * 2 ^ 16 + byteValue b3 * 2 ^ 24)%Z
    with ((byteValue b2 + byteValue b3 * 2 ^ 8) * 2 ^ 16)%Z by lia.
  rewrite (lor_disjoint (byteValue b1 * 2 ^ 8) _ 16) by lia.
  replace (byteValue b1 * 2 ^ 8 + (byteValue b2 + byteValue b3 * 2 ^ 8) * 2 ^ 16)%Z
    with ((byteValue b1 + byteValue b2 * 2 ^ 8 + byteValue b3 * 2 ^ 16) * 2 ^ 8)%Z
    by lia.
  rewrite (lor_disjoint (byteValue b0) _ 8) by lia.
  lia.
Qed.

(** X2. The class code the walker reads is the number that the first four
    bytes of the data are with the low byte first, whatever bytes follow
    them; it is a number of 32 bits; data of fewer than four bytes gives no
    code. *)
Theorem readUInt32_little_endian bytes :
  readUInt32 bytes =
    (if (4 <=? length bytes)%nat then Some (littleEndian (firstn 4 bytes))
     else None) /\
  from_option (fun code => (0 <= code < 2 ^ 32)%Z) True (readUInt32 bytes).
Proof.
  destruct bytes as [|b0 [|b1 [|b2 [|b3 rest]]]];
    try (split; [reflexivity|exact I]).
  rewrite readUInt32_value.
  pose proof (byteValue_range b0). pose proof (byteValue_range b1).
  pose proof (byteValue_range b2). pose proof (byteValue_range b3).
  split.
  - change (firstn 4 (b0 :: b1 :: b2 :: b3 :: rest)) with [b0; b1; b2; b3].
    cbn [length Nat.leb littleEndian fold_right]. f_equal.
    unfold byteValue in *. lia.
  - cbn [from_option]. lia.
Qed.

(** ** The clock and the trace *)

Lemma slept_app t1 t2 : slept (t1 ++ t2) = (slept t1 + slept t2)%N.
Proof.
  induction t1 as [|ev t1 IH]; simpl; [reflexivity|].
  destruct ev; rewrite ?IH; lia.
Qed.

Lemma steps_refl allowed w : steps allowed w w.
Proof.
  exists []. split; [symmetry; apply app_nil_r|]. split; [reflexivity|].
  simpl. lia.
Qed.

Lemma steps_trans allowed w1 w2 w3 :
  steps allowed w1 w2 -> steps allowed w2 w3 -> steps allowed w1 w3.
Proof.
  intros (t1 & H1 & F1 & N1) (t2 & H2 & F2 & N2). exists (t1 ++ t2).
  split; [rewrite H2, H1, app_assoc; reflexivity|]. split.
  - rewrite forallb_app, F1, F2. reflexivity.
  - rewrite slept_app. lia.
Qed.

Lemma steps_same allowed w w' :
  trace w' = trace w -> now w' = now w -> steps allowed w w'.
Proof.
  intros Ht Hn. exists []. split; [rewrite Ht, app_nil_r; reflexivity|].
  split; [reflexivity|]. simpl. lia.
Qed.



Lemma slept_writes t : forallb writeEvent t = true -> slept t = 0%N.
Proof.
  induction t as [|ev t IH]; simpl; [reflexivity|].
  intros H. apply andb_prop in H as [Hev Ht].
  destruct ev; simpl in Hev; try discriminate. apply IH, Ht.
Qed.

Lemma steps_write_now w w' : steps writeEvent w w' -> now w' = now w.
Proof. intros (t & _ & Hall & ->). rewrite (slept_writes t Hall). lia. Qed.

Lemma steps_setProperty e k a w :
  isAnnotationKey k = true -> steps writeEvent w (setProperty e k a w).
Proof.
  intros Hk. exists [PropertySet e k a]. split; [reflexivity|]. split.
  - simpl. rewrite Hk. reflexivity.
  - simpl. lia.
Qed.

Lemma steps_IOSleep ms w :
  annotationEvent (Slept ms) = true -> onlyAnnotates w (IOSleep ms w).
Proof.
  intros Hms. exists [Slept ms]. split; [reflexivity|]. split.
  - cbn [forallb]. rewrite Hms. reflexivity.
  - simpl. lia.
Qed.

Lemma now_dictSetObject a key value w : now (dictSetObject a key value w) = now w.
Proof.
  unfold dictSetObject.
  destruct (objectAt w a) as [[| | | |d]|]; try reflexivity.
  destruct (objectAt w value); reflexivity.
Qed.

Lemma steps_allocate allowed o w : steps allowed w (snd (allocate o w)).
Proof.
  apply steps_same; unfold allocate; destruct (allocFails (allocs w)); reflexivity.
Qed.

Lemma steps_copy a o key value e k w :
  isAnnotationKey k = true ->
  steps writeEvent w
    (setProperty e k a (dictSetObject a key value (store a o (counted w)))).
Proof.
  intros Hk. eapply steps_trans; [|apply steps_setProperty, Hk].
  apply steps_same; [rewrite trace_dictSetObject|rewrite now_dictSetObject];
    reflexivity.
Qed.

Lemma steps_setBuiltIn entry w : steps writeEvent w (setBuiltIn entry w).
Proof.
  unfold setBuiltIn. destruct entry as [e|]; [|apply steps_refl].
  destruct (allocate_cases (OSData [x01]) w) as [->|(a & _ & ->)].
  - apply steps_same; reflexivity.
  - eapply steps_trans; [|apply steps_setProperty; reflexivity].
    apply steps_same; reflexivity.
Qed.

Lemma steps_updateIcon e internalIcon w :
  steps writeEvent w (updateIcon e internalIcon w).
Proof.
  unfold updateIcon.
  destruct (getProperty e "IOMediaIcon" w) as [icon|]; [|apply steps_refl].
  destruct (castOSDictionary w (Some icon)) as [d|]; [|apply steps_refl].
  destruct (allocate_cases (OSDictionary d) w) as [->|(a & _ & ->)].
  - apply steps_same; reflexivity.
  - apply steps_copy. reflexivity.
Qed.

Lemma steps_updateProtocol e internal w :
  steps writeEvent w (updateProtocol e internal w).
Proof.
  unfold updateProtocol.
  destruct (getProperty e "Protocol Characteristics" w) as [proto|].
  - destruct (castOSDictionary w (Some proto)) as [d|]; [|apply steps_refl].
    destruct (allocate_cases (OSDictionary d) w) as [->|(a & _ & ->)].
    + apply steps_same; reflexivity.
    + apply steps_copy. reflexivity.
  - destruct (allocate_cases (OSDictionary []) w) as [->|(a & _ & ->)].
    + apply steps_same; reflexivity.
    + apply steps_copy. reflexivity.
Qed.

Lemma steps_updateOtherProperties entry w :
  steps writeEvent w (updateOtherProperties entry w).
Proof.
  unfold updateOtherProperties. destruct entry as [e|]; [|apply steps_refl].
  pose proof (steps_allocate writeEvent (OSString "Internal") w) as H1.
  destruct (allocate (OSString "Internal") w) as [internal w1]. simpl in H1.
  pose proof (steps_allocate writeEvent (OSString "Internal.icns") w1) as H2.
  destruct (allocate (OSString "Internal.icns") w1) as [internalIcon w2].
  simpl in H2.
  pose proof (steps_trans _ _ _ _ H1 H2) as H12.
  destruct internal as [internal|]; [|exact H12].
  destruct internalIcon as [internalIcon|]; [|exact H12].
  eapply steps_trans; [|apply steps_setBuiltIn].
  eapply steps_trans; [|apply steps_updateProtocol].
  eapply steps_trans; [|apply steps_updateIcon].
  eapply steps_trans; [exact H12|apply steps_setProperty; reflexivity].
Qed.

Lemma steps_fold_left {A} allowed (f : World -> A -> World) l w :
  (forall x w0, steps allowed w0 (f w0 x)) ->
  steps allowed w (fold_left f l w).
Proof.
  intros Hf. revert w. induction l as [|x l IH]; intros w; simpl.
  - apply steps_refl.
  - eapply steps_trans; [apply Hf|apply IH].
Qed.

Lemma steps_onePass entry w : steps writeEvent w (onePass entry w).
Proof.
  unfold onePass. eapply steps_trans; [apply steps_updateOtherProperties|].
  apply steps_fold_left. intros x w0. apply steps_updateOtherProperties.
Qed.

Lemma now_afterSleeps n w :
  now (afterSleeps n w) = (now w + 10 * N.of_nat n)%N.
Proof.
  revert w. induction n as [|n IH]; intros w.
  - simpl. lia.
  - cbn [afterSleeps]. rewrite IH. cbn [IOSleep now]. lia.
Qed.

Lemma steps_afterSleeps n w : onlyAnnotates w (afterSleeps n w).
Proof.
  revert w. induction n as [|n IH]; intros w; cbn [afterSleeps].
  - apply steps_refl.
  - eapply steps_trans; [exact (steps_IOSleep 10 w eq_refl)|apply IH].
Qed.

(** ** The timed waits, poll by poll *)

Lemma waitForFlag_polls key entry n w :
  exists polls,
    (polls <= n)%nat /\
    snd (waitForFlag key entry n w) = afterSleeps polls w /\
    unseenFor key entry polls w = true /\
    if propertyIsTrue entry key (afterSleeps polls w)
    then fst (waitForFlag key entry n w) = Z.of_nat (n - polls)
    else polls = n /\ fst (waitForFlag key entry n w) = (-1)%Z.
Proof.
  revert w. induction n as [|n IH]; intros w; cbn [waitForFlag].
  - exists 0%nat. cbn [afterSleeps unseenFor].
    destruct (propertyIsTrue entry key w) eqn:Hf; cbn [fst snd]; rewrite ?Hf; auto.
  - destruct (propertyIsTrue entry key w) eqn:Hf.
    + exists 0%nat. cbn [afterSleeps unseenFor fst snd]. rewrite Hf.
      repeat split; try lia.
    + destruct (IH (IOSleep 10 w)) as (polls & Hle & Hw & Hu & Hend).
      exists (S polls). cbn [afterSleeps unseenFor]. rewrite Hf, Hu.
      split; [lia|]. split; [exact Hw|]. split; [reflexivity|].
      destruct (propertyIsTrue entry key (afterSleeps polls (IOSleep 10 w))).
      * rewrite Hend. reflexivity.
      * destruct Hend as [-> ->]. auto.
Qed.

(** X3. A timed wait, for every kernel: it sleeps 10 ms a number of times
    that is at most the budget and does nothing else, and the flag is not
    true at any check before the last.  When the flag is true at the last
    check, the timeout left is the budget less the number of sleeps, so it
    is 0 when the flag comes at the last moment; when not, the budget is
    used up, 10 ms for each unit of it, and the timeout left is -1. *)
Theorem waitForFlag_accounting key entry n w :
  exists polls,
    (polls <= n)%nat /\
    unseenFor key entry polls w = true /\
    trace (snd (waitForFlag key entry n w)) = trace w ++ repeat (Slept 10) polls /\
    now (snd (waitForFlag key entry n w)) = (now w + 10 * N.of_nat polls)%N /\
    if propertyIsTrue entry key (snd (waitForFlag key entry n w))
    then fst (waitForFlag key entry n w) = Z.of_nat (n - polls)
    else polls = n /\ fst (waitForFlag key entry n w) = (-1)%Z.
Proof.
  destruct (waitForFlag_polls key entry n w) as (polls & Hle & Hw & Hu & Hend).
  exists polls. rewrite Hw.
  split; [exact Hle|]. split; [exact Hu|].
  split; [apply afterSleeps_trace|]. split; [apply now_afterSleeps|exact Hend].
Qed.

(** X4. How long [internalizeDevice] sleeps, for every kernel and every
    allocation outcome.  When [IOPCIResourced] is not seen, the call sleeps
    the 2000 times 10 ms of the wait, 20 s.  When it is seen, the call
    sleeps the rounds of the wait, at most 1999 of them, and the two times
    100 ms between the passes: between 200 ms and 20.19 s, and 200 ms when
    the flag is true from the start. *)
Theorem internalizeDevice_blocks entry w :
  if unseenFor "IOPCIResourced" entry 2000 (setBuiltIn (Some entry) w)
  then now (internalizeDevice entry w) = (now w + 20000)%N
  else
    (now w + 200 <= now (internalizeDevice entry w) <= now w + 20190)%N /\
    (propertyIsTrue entry "IOPCIResourced" (setBuiltIn (Some entry) w) = true ->
     now (internalizeDevice entry w) = (now w + 200)%N).
Proof.
  rewrite internalizeDevice_passes.
  pose proof (steps_write_now _ _ (steps_setBuiltIn (Some entry) w)) as Hb.
  destruct (unseenFor "IOPCIResourced" entry 2000 (setBuiltIn (Some entry) w)) eqn:Hu.
  - rewrite now_afterSleeps, Hb. lia.
  - destruct (waitForFlag_polls "IOPCIResourced" entry 2000 (setBuiltIn (Some entry) w))
      as (polls & Hle & Hw & Hunseen & Hend).
    pose proof (waitForFlag_seen _ _ _ _ Hu) as [Hpos Hflag].
    rewrite Hw in Hflag. rewrite Hflag in Hend.
    assert (Hnow : forall w0,
               now (onePass entry (IOSleep 100 (onePass entry (IOSleep 100
                      (onePass entry w0))))) = (now w0 + 200)%N).
    { intros w0.
      rewrite (steps_write_now _ _ (steps_onePass entry _)). cbn [IOSleep now].
      rewrite (steps_write_now _ _ (steps_onePass entry _)). cbn [IOSleep now].
      rewrite (steps_write_now _ _ (steps_onePass entry _)). lia. }
    rewrite Hnow, Hw, now_afterSleeps, Hb. split; [lia|].
    intros Hfirst. destruct polls as [|polls]; [lia|].
    cbn [unseenFor] in Hunseen. rewrite Hfirst in Hunseen. discriminate.
Qed.

(** ** What a traversal does *)

(** A relation between worlds that is reflexive and transitive and holds
    across a sleep of one of the lengths the source has, across [setBuiltIn]
    and across [updateOtherProperties], holds across a whole traversal. *)
Section Traversal.

Variable R : World -> World -> Prop.
Hypothesis R_refl : forall w, R w w.
Hypothesis R_trans : forall w1 w2 w3, R w1 w2 -> R w2 w3 -> R w1 w3.
Hypothesis R_sleep :
  forall ms w, annotationEvent (Slept ms) = true -> R w (IOSleep ms w).
Hypothesis R_setBuiltIn : forall e w, R w (setBuiltIn (Some e) w).
Hypothesis R_update : forall e w, R w (updateOtherProperties (Some e) w).

Lemma traversal_afterSleeps n w : R w (afterSleeps n w).
Proof.
  revert w. induction n as [|n IH]; intros w; cbn [afterSleeps].
  - apply R_refl.
  - eapply R_trans; [exact (R_sleep 10 w eq_refl)|apply IH].
Qed.

Lemma traversal_waitForFlag key entry n w :
  R w (snd (waitForFlag key entry n w)).
Proof.
  destruct (waitForFlag_polls key entry n w) as (polls & _ & -> & _).
  apply traversal_afterSleeps.
Qed.

Lemma traversal_onePass entry w : R w (onePass entry w).
Proof.
  unfold onePass. eapply R_trans; [exact (R_update entry w)|].
  generalize (passTargets entry w) (updateOtherProperties (Some entry) w).
  intros l. induction l as [|x l IH]; intros w0; simpl.
  - apply R_refl.
  - eapply R_trans; [exact (R_update x w0)|apply IH].
Qed.

Lemma traversal_internalizeDevice entry w : R w (internalizeDevice entry w).
Proof.
  rewrite internalizeDevice_passes.
  destruct (unseenFor "IOPCIResourced" entry 2000 (setBuiltIn (Some entry) w)).
  - eapply R_trans; [exact (R_setBuiltIn entry w)|apply traversal_afterSleeps].
  - eapply R_trans; [|apply traversal_onePass].
    eapply R_trans; [|exact (R_sleep 100 _ eq_refl)].
    eapply R_trans; [|apply traversal_onePass].
    eapply R_trans; [|exact (R_sleep 100 _ eq_refl)].
    eapply R_trans; [|apply traversal_onePass].
    eapply R_trans; [exact (R_setBuiltIn entry w)|apply traversal_waitForFlag].
Qed.

Lemma traversal_visitChild recurse child w w' :
  (forall e w0 w1, recurse e w0 = Some w1 -> R w0 w1) ->
  visitChild recurse child w = Some w' -> R w w'.
Proof.
  intros Hrec. unfold visitChild.
  destruct (getProperty child "class-code" w) as [a|];
    [|intros [= <-]; apply R_refl].
  destruct (castOSData w (Some a)) as [bs|]; [|intros [= <-]; apply R_refl].
  destruct (readUInt32 bs) as [code|]; [|discriminate].
  destruct (isStorageCode code).
  { intros [= <-]. apply traversal_internalizeDevice. }
  destruct (code =? PCIBridge codes)%Z; [|intros [= <-]; apply R_refl].
  pose proof (traversal_waitForFlag "IOPCIConfigured" child 1000 w) as Hwait.
  destruct (waitForFlag "IOPCIConfigured" child 1000 w) as [timeout w1].
  cbn [snd] in Hwait.
  destruct (timeout >? 0)%Z.
  - intros H. eapply R_trans; [exact Hwait|exact (Hrec _ _ _ H)].
  - intros [= <-]. exact Hwait.
Qed.

Lemma traversal_forEachEntry body iterator w w' :
  (forall e w0 w1, body e w0 = Some w1 -> R w0 w1) ->
  forEachEntry body iterator w = Some w' -> R w w'.
Proof.
  intros Hbody. revert w.
  induction iterator as [|e rest IH]; intros w; cbn [forEachEntry].
  - intros [= <-]. apply R_refl.
  - destruct (body e w) as [w1|] eqn:He; [|discriminate].
    intros H. eapply R_trans; [exact (Hbody _ _ _ He)|exact (IH _ H)].
Qed.

Lemma traversal_recurseBridge fuel entry w w' :
  recurseBridge fuel entry w = Some w' -> R w w'.
Proof.
  revert entry w w'. induction fuel as [|fuel IH]; intros entry w w';
    cbn [recurseBridge]; [discriminate|].
  apply traversal_forEachEntry. intros e w0 w1.
  apply traversal_visitChild. exact IH.
Qed.

Lemma traversal_waitConfigured fuel entry w w' :
  waitConfigured fuel entry w = Some w' -> R w w'.
Proof.
  revert w. induction fuel as [|fuel IH]; intros w;
    cbn [waitConfigured];
    destruct (propertyIsTrue entry "IOPCIConfigured" w);
    try (intros [= <-]; apply R_refl); try discriminate.
  intros H. eapply R_trans; [exact (R_sleep 10 w eq_refl)|exact (IH _ H)].
Qed.

Lemma traversal_scanRoots fuel iterator ready found w ready' found' w' :
  scanRoots fuel iterator ready found w = Some (ready', found', w') -> R w w'.
Proof.
  revert ready found w.
  induction iterator as [|pciRoot rest IH]; intros ready found w;
    cbn [scanRoots].
  - intros [= _ _ <-]. apply R_refl.
  - destruct (isPCIRoot pciRoot w); [|apply IH].
    destruct ready; [|intros [= _ _ <-]; exact (R_sleep 1000 w eq_refl)].
    destruct (waitConfigured fuel pciRoot w) as [w1|] eqn:H1; [|discriminate].
    destruct (recurseBridge fuel pciRoot w1) as [w2|] eqn:H2; [|discriminate].
    intros H.
    eapply R_trans; [exact (traversal_waitConfigured _ _ _ _ H1)|].
    eapply R_trans; [exact (traversal_recurseBridge _ _ _ _ H2)|].
    exact (IH _ _ _ H).
Qed.

Lemma traversal_rootLoop fuel entry ready found repeat w found' w' :
  rootLoop fuel entry ready found repeat w = Some (found', w') -> R w w'.
Proof.
  revert ready found repeat w.
  induction fuel as [|fuel IH]; intros ready found repeat w;
    cbn [rootLoop]; [discriminate|].
  destruct (scanRoots fuel (getChildIterator entry gIODTPlane w) ready found w)
    as [[[ready1 found1] w1]|] eqn:Hscan; [|discriminate].
  pose proof (traversal_scanRoots _ _ _ _ _ _ _ _ Hscan) as H1.
  destruct ((repeat <? 0x10000000)%N && negb found1).
  - intros H. eapply R_trans; [exact H1|exact (IH _ _ _ _ H)].
  - intros [= _ <-]. exact H1.
Qed.

Lemma traversal_processRoot fuel w w' :
  processRoot fuel w = Some w' -> R w w'.
Proof.
  unfold processRoot.
  destruct (deviceTreeRoot (registry w)) as [entry|];
    [|intros [= <-]; apply R_refl].
  destruct (rootLoop fuel entry false false 0%N w) as [[found w1]|] eqn:H;
    [|discriminate].
  intros [= <-]. exact (traversal_rootLoop _ _ _ _ _ _ _ _ H).
Qed.

End Traversal.




(** ** What an update leaves alone *)

Lemma annotationKey_neq k key :
  isAnnotationKey k = false -> In key annotationKeys -> k <> key.
Proof.
  intros Hk Hin ->. unfold isAnnotationKey in Hk.
  assert (existsb (String.eqb key) annotationKeys = true); [|congruence].
  apply existsb_exists. exists key. split; [exact Hin|apply String.eqb_refl].
Qed.

Lemma getProperty_setProperty_other e key a w e' k :
  e' <> e \/ k <> key ->
  getProperty e' k (setProperty e key a w) = getProperty e' k w.
Proof.
  intros H. rewrite getProperty_setProperty, decide_False; [reflexivity|].
  intros [-> ->]. destruct H; congruence.
Qed.

Lemma getProperty_copy_other a o key value e k0 w e' k :
  e' <> e \/ k <> k0 ->
  getProperty e' k
    (setProperty e k0 a (dictSetObject a key value (store a o (counted w)))) =
  getProperty e' k w.
Proof.
  intros H. rewrite getProperty_setProperty_other by exact H.
  rewrite getProperty_dictSetObject. reflexivity.
Qed.

Lemma getProperty_setBuiltIn_other e w e' k :
  e' <> e \/ isAnnotationKey k = false ->
  getProperty e' k (setBuiltIn (Some e) w) = getProperty e' k w.
Proof.
  intros H. unfold setBuiltIn.
  destruct (allocate_cases (OSData [x01]) w) as [->|(a & _ & ->)]; [reflexivity|].
  rewrite getProperty_setProperty_other; [reflexivity|].
  destruct H as [H|H]; [left; exact H|right].
  apply (annotationKey_neq _ _ H). simpl. auto.
Qed.

Lemma getProperty_updateIcon_other e internalIcon w e' k :
  e' <> e \/ isAnnotationKey k = false ->
  getProperty e' k (updateIcon e internalIcon w) = getProperty e' k w.
Proof.
  intros H. unfold updateIcon.
  destruct (getProperty e "IOMediaIcon" w) as [icon|]; [|reflexivity].
  destruct (castOSDictionary w (Some icon)) as [d|]; [|reflexivity].
  destruct (allocate_cases (OSDictionary d) w) as [->|(a & _ & ->)]; [reflexivity|].
  apply getProperty_copy_other.
  destruct H as [H|H]; [left; exact H|right].
  apply (annotationKey_neq _ _ H). simpl. auto.
Qed.

Lemma getProperty_updateProtocol_other e internal w e' k :
  e' <> e \/ isAnnotationKey k = false ->
  getProperty e' k (updateProtocol e internal w) = getProperty e' k w.
Proof.
  intros H.
  assert (Hk : e' <> e \/ k <> "Protocol Characteristics").
  { destruct H as [H|H]; [left; exact H|right].
    apply (annotationKey_neq _ _ H). simpl. auto. }
  unfold updateProtocol.
  destruct (getProperty e "Protocol Characteristics" w) as [proto|].
  - destruct (castOSDictionary w (Some proto)) as [d|]; [|reflexivity].
    destruct (allocate_cases (OSDictionary d) w) as [->|(a & _ & ->)];
      [reflexivity|].
    apply getProperty_copy_other, Hk.
  - destruct (allocate_cases (OSDictionary []) w) as [->|(a & _ & ->)];
      [reflexivity|].
    apply getProperty_copy_other, Hk.
Qed.

Lemma getProperty_updateOtherProperties_other e w e' k :
  e' <> e \/ isAnnotationKey k = false ->
  getProperty e' k (updateOtherProperties (Some e) w) = getProperty e' k w.
Proof.
  intros H. unfold updateOtherProperties.
  pose proof (getProperty_allocate (OSString "Internal") w e' k) as H1.
  destruct (allocate (OSString "Internal") w) as [internal w1]. simpl in H1.
  pose proof (getProperty_allocate (OSString "Internal.icns") w1 e' k) as H2.
  destruct (allocate (OSString "Internal.icns") w1) as [internalIcon w2].
  simpl in H2.
  destruct internal as [internal|]; [|congruence].
  destruct internalIcon as [internalIcon|]; [|congruence].
  rewrite getProperty_setBuiltIn_other, getProperty_updateProtocol_other,
    getProperty_updateIcon_other by exact H.
  rewrite getProperty_setProperty_other; [congruence|].
  destruct H as [H|H]; [left; exact H|right].
  apply (annotationKey_neq _ _ H). simpl. auto.
Qed.

Lemma propertyValue_kept e k w w' :
  wellFormed w -> objectsKept w w' ->
  getProperty e k w' = getProperty e k w ->
  propertyValue e k w' = propertyValue e k w.
Proof.
  intros Hwf Hkept Hp. unfold propertyValue. rewrite Hp.
  destruct (getProperty e k w) as [a|] eqn:Ha; [|reflexivity].
  unfold getProperty in Ha.
  destruct (entries (registry w) !! e) as [ent|] eqn:He; [|discriminate].
  destruct (Hwf e ent He k a Ha) as [o Ho].
  rewrite Ho. apply Hkept, Ho.
Qed.

(** X6. What [updateOtherProperties] leaves alone, for every allocation
    outcome.  A property of another entry, and a property of the entry
    itself under a key that is not one of the four, points to the object it
    pointed to; and in a registry without dangling property it has the
    value it had, also when the other entry shares a dictionary with the
    entry that is updated: the dictionaries are changed in copies. *)
Theorem updateOtherProperties_frame e w e' k :
  e' <> e \/ isAnnotationKey k = false ->
  wellFormed w ->
  getProperty e' k (updateOtherProperties (Some e) w) = getProperty e' k w /\
  propertyValue e' k (updateOtherProperties (Some e) w) = propertyValue e' k w.
Proof.
  intros H Hwf.
  pose proof (getProperty_updateOtherProperties_other e w e' k H) as Hp.
  split; [exact Hp|].
  apply propertyValue_kept;
    [exact Hwf|apply objectsKept_updateOtherProperties|exact Hp].
Qed.

(** ** An update keeps the registry in order *)

Lemma wellFormed_dictSetObject a key value w :
  wellFormed w -> wellFormed (dictSetObject a key value w).
Proof.
  intros Hwf. unfold dictSetObject.
  destruct (objectAt w a) as [[| | | |d]|]; try exact Hwf.
  destruct (objectAt w value); [apply wellFormed_store|]; exact Hwf.
Qed.

Lemma is_Some_dictSetObject a key value w b :
  is_Some (objectAt w b) -> is_Some (objectAt (dictSetObject a key value w) b).
Proof.
  intros Hb. unfold dictSetObject.
  destruct (objectAt w a) as [[| | | |d]|]; try exact Hb.
  destruct (objectAt w value); [|exact Hb].
  rewrite objectAt_store. destruct (decide (a = b)); [eauto|exact Hb].
Qed.

Lemma wellFormed_stored a o e k w :
  wellFormed w -> wellFormed (setProperty e k a (store a o (counted w))).
Proof.
  intros Hwf. apply wellFormed_setProperty.
  - apply wellFormed_store. exact Hwf.
  - rewrite objectAt_store, decide_True by reflexivity. eauto.
Qed.

Lemma wellFormed_copy a o key value e k w :
  wellFormed w ->
  wellFormed
    (setProperty e k a (dictSetObject a key value (store a o (counted w)))).
Proof.
  intros Hwf. apply wellFormed_setProperty.
  - apply wellFormed_dictSetObject, wellFormed_store. exact Hwf.
  - apply is_Some_dictSetObject.
    rewrite objectAt_store, decide_True by reflexivity. eauto.
Qed.

Lemma wellFormed_allocate o w :
  wellFormed w ->
  wellFormed (snd (allocate o w)) /\
  forall a, fst (allocate o w) = Some a ->
            is_Some (objectAt (snd (allocate o w)) a).
Proof.
  intros Hwf.
  destruct (allocate_cases o w) as [->|(a & _ & ->)]; cbn [fst snd].
  - split; [exact Hwf|discriminate].
  - split; [apply wellFormed_store; exact Hwf|].
    intros ? [= <-]. rewrite objectAt_store, decide_True by reflexivity. eauto.
Qed.

Lemma wellFormed_setBuiltIn entry w :
  wellFormed w -> wellFormed (setBuiltIn entry w).
Proof.
  intros Hwf. unfold setBuiltIn. destruct entry as [e|]; [|exact Hwf].
  destruct (allocate_cases (OSData [x01]) w) as [->|(a & _ & ->)]; [exact Hwf|].
  apply wellFormed_stored, Hwf.
Qed.

Lemma wellFormed_updateIcon e internalIcon w :
  wellFormed w -> wellFormed (updateIcon e internalIcon w).
Proof.
  intros Hwf. unfold updateIcon.
  destruct (getProperty e "IOMediaIcon" w) as [icon|]; [|exact Hwf].
  destruct (castOSDictionary w (Some icon)) as [d|]; [|exact Hwf].
  destruct (allocate_cases (OSDictionary d) w) as [->|(a & _ & ->)]; [exact Hwf|].
  apply wellFormed_copy, Hwf.
Qed.

Lemma wellFormed_updateProtocol e internal w :
  wellFormed w -> wellFormed (updateProtocol e internal w).
Proof.
  intros Hwf. unfold updateProtocol.
  destruct (getProperty e "Protocol Characteristics" w) as [proto|].
  - destruct (castOSDictionary w (Some proto)) as [d|]; [|exact Hwf].
    destruct (allocate_cases (OSDictionary d) w) as [->|(a & _ & ->)];
      [exact Hwf|].
    apply wellFormed_copy, Hwf.
  - destruct (allocate_cases (OSDictionary []) w) as [->|(a & _ & ->)];
      [exact Hwf|].
    apply wellFormed_copy, Hwf.
Qed.

Lemma objectsKept_is_Some w w' a :
  objectsKept w w' -> is_Some (objectAt w a) -> is_Some (objectAt w' a).
Proof. intros Hkept [o Ho]. exists o. apply Hkept, Ho. Qed.

Lemma wellFormed_updateOtherProperties entry w :
  wellFormed w -> wellFormed (updateOtherProperties entry w).
Proof.
  intros Hwf.
  unfold updateOtherProperties. destruct entry as [e|]; [|exact Hwf].
  destruct (wellFormed_allocate (OSString "Internal") w Hwf) as [Hwf1 Hi1].
  pose proof (objectsKept_allocate (OSString "Internal.icns")
                (snd (allocate (OSString "Internal") w))) as Hkept.
  destruct (allocate (OSString "Internal") w) as [internal w1].
  cbn [fst snd] in Hwf1, Hi1, Hkept.
  destruct (wellFormed_allocate (OSString "Internal.icns") w1 Hwf1) as [Hwf2 _].
  destruct (allocate (OSString "Internal.icns") w1) as [internalIcon w2].
  cbn [fst snd] in Hwf2, Hkept.
  destruct internal as [internal|]; [|exact Hwf2].
  destruct internalIcon as [internalIcon|]; [|exact Hwf2].
  apply wellFormed_setBuiltIn, wellFormed_updateProtocol, wellFormed_updateIcon.
  apply wellFormed_setProperty; [exact Hwf2|].
  apply (objectsKept_is_Some w1 w2 internal Hkept). apply Hi1. reflexivity.
Qed.

(** X7. [updateOtherProperties] keeps the registry in order, for every
    allocation outcome: in a registry without dangling property no property
    dangles afterwards, whichever of the five allocations fail; every
    object that was there is there, unchanged; and names and links of the
    entries are as they were. *)
Theorem updateOtherProperties_invariants entry w :
  wellFormed w ->
  wellFormed (updateOtherProperties entry w) /\
  objectsKept w (updateOtherProperties entry w) /\
  topology (updateOtherProperties entry w) = topology w.
Proof.
  intros Hwf.
  split; [apply wellFormed_updateOtherProperties, Hwf|].
  split; [apply objectsKept_updateOtherProperties
         |apply topology_updateOtherProperties].
Qed.

(** ** A traversal in a quiet kernel *)

Lemma annotate_annotateBuiltIn m : annotate (annotateBuiltIn m) = annotate m.
Proof.
  assert (Hb : forall k, k <> "built-in" -> annotateBuiltIn m !! k = m !! k).
  { intros k Hk. unfold annotateBuiltIn. apply lookup_insert_ne. congruence. }
  apply map_eq. intros k.
  destruct (decide (k = "Physical Interconnect Location")) as [->|H1].
  { rewrite !annotate_location. reflexivity. }
  destruct (decide (k = "built-in")) as [->|H2].
  { rewrite !annotate_builtIn. reflexivity. }
  destruct (decide (k = "IOMediaIcon")) as [->|H3].
  { rewrite !annotate_icon, Hb by discriminate. reflexivity. }
  destruct (decide (k = "Protocol Characteristics")) as [->|H4].
  { rewrite !annotate_protocol, Hb by discriminate. reflexivity. }
  rewrite !annotate_other, Hb by assumption. reflexivity.
Qed.

Lemma annotatedOrKept_trans w1 w2 w3 :
  annotatedOrKept w1 w2 -> annotatedOrKept w2 w3 -> annotatedOrKept w1 w3.
Proof.
  intros H12 H23 x.
  destruct (H12 x) as [E1|[E1|E1]], (H23 x) as [E2|[E2|E2]];
    rewrite E2, E1; auto;
    destruct (propertyState w1 !! x) as [m|]; simpl; auto.
  - right. left. unfold annotateBuiltIn. rewrite insert_insert_eq. reflexivity.
  - right. right. rewrite annotate_annotateBuiltIn. reflexivity.
  - right. right. rewrite annotateBuiltIn_annotate. reflexivity.
  - right. right. rewrite annotate_idempotent. reflexivity.
Qed.

Lemma annotatedOrKept_alter f e w w' :
  (f = annotateBuiltIn \/ f = annotate) ->
  propertyState w' = alter f e (propertyState w) -> annotatedOrKept w w'.
Proof.
  intros Hf Hs x. rewrite Hs, lookup_alter.
  destruct (decide (e = x)) as [->|]; [|left; reflexivity].
  destruct Hf as [->| ->]; auto.
Qed.

Lemma keepsRegistry_trans w1 w2 w3 :
  keepsRegistry w1 w2 -> keepsRegistry w2 w3 -> keepsRegistry w1 w3.
Proof.
  intros (_ & T1 & K1 & F1) (W2 & T2 & K2 & F2).
  split; [exact W2|]. split; [congruence|].
  split; [exact (objectsKept_trans _ _ _ K1 K2)|].
  intros e k Hk. rewrite F2, F1 by exact Hk. reflexivity.
Qed.

Lemma keepsRegistry_registry w w' :
  registry w' = registry w -> wellFormed w -> keepsRegistry w w'.
Proof.
  unfold keepsRegistry, wellFormed, topology, objectsKept, propertyValue,
    getProperty, objectAt.
  intros ->. auto.
Qed.

Lemma keepsRegistry_setBuiltIn e w :
  wellFormed w -> keepsRegistry w (setBuiltIn (Some e) w).
Proof.
  intros Hwf. split; [apply wellFormed_setBuiltIn, Hwf|].
  split; [apply topology_setBuiltIn|].
  split; [apply objectsKept_setBuiltIn|].
  intros e' k Hk.
  apply propertyValue_kept; [exact Hwf|apply objectsKept_setBuiltIn|].
  apply getProperty_setBuiltIn_other. right. exact Hk.
Qed.

Lemma keepsRegistry_updateOtherProperties e w :
  wellFormed w -> keepsRegistry w (updateOtherProperties (Some e) w).
Proof.
  intros Hwf. split; [apply wellFormed_updateOtherProperties, Hwf|].
  split; [apply topology_updateOtherProperties|].
  split; [apply objectsKept_updateOtherProperties|].
  intros e' k Hk.
  apply propertyValue_kept; [exact Hwf|apply objectsKept_updateOtherProperties|].
  apply getProperty_updateOtherProperties_other. right. exact Hk.
Qed.

Lemma isPCIRoot_registry x w1 w2 :
  registry w2 = registry w1 -> isPCIRoot x w2 = isPCIRoot x w1.
Proof. unfold isPCIRoot. intros ->. reflexivity. Qed.

Lemma getChildIterator_registry x plane w1 w2 :
  registry w2 = registry w1 ->
  getChildIterator x plane w2 = getChildIterator x plane w1.
Proof. unfold getChildIterator. intros ->. reflexivity. Qed.

Section QuietTraversal.

Hypothesis quietKernel : forall t ms r, external t ms r = r.

(** X8. A traversal in a kernel that does not touch the registry
    meanwhile, for every allocation outcome: when [processRoot] returns,
    no property dangles, names and links of all entries are as they were,
    every object that was there is there unchanged, and every property
    under a key that is not one of the four the driver writes has the value
    it had. *)
Theorem processRoot_keeps_registry fuel w w' :
  processRoot fuel w = Some w' -> wellFormed w -> keepsRegistry w w'.
Proof.
  intros Hrun.
  apply (traversal_processRoot
           (fun w0 w1 => wellFormed w0 -> keepsRegistry w0 w1)) with (fuel := fuel);
    [| | | | |exact Hrun].
  - intros w0. apply keepsRegistry_registry. reflexivity.
  - intros w1 w2 w3 H12 H23 Hwf.
    pose proof (H12 Hwf) as K12. destruct K12 as (Hwf2 & _).
    exact (keepsRegistry_trans _ _ _ (H12 Hwf) (H23 Hwf2)).
  - intros ms w0 _. apply keepsRegistry_registry.
    apply registry_IOSleep, quietKernel.
  - intros e w0. apply keepsRegistry_setBuiltIn.
  - intros e w0. apply keepsRegistry_updateOtherProperties.
Qed.

Lemma waitConfigured_never entry w :
  propertyIsTrue entry "IOPCIConfigured" w = false ->
  forall fuel, waitConfigured fuel entry w = None.
Proof.
  intros Hf fuel. revert w Hf.
  induction fuel as [|fuel IH]; intros w Hf; cbn [waitConfigured]; rewrite Hf;
    [reflexivity|].
  apply IH.
  rewrite (propertyIsTrue_registry entry _ w _ (registry_IOSleep quietKernel 10 w)).
  exact Hf.
Qed.

(** X9. The wait for the bus root has no bound.  In a kernel that does not
    touch the registry meanwhile, when the first child of the root whose
    name begins with [PC] has no [IOPCIConfigured] that is true,
    [processRoot] does not return, whatever number of rounds it is given:
    the loop [while (!configured) IOSleep(10)] sleeps for ever, and [start]
    with it. *)
Theorem unconfigured_root_blocks root w pre c post :
  deviceTreeRoot (registry w) = Some root ->
  getChildIterator root gIODTPlane w = pre ++ c :: post ->
  forallb (fun x => negb (isPCIRoot x w)) pre = true ->
  isPCIRoot c w = true ->
  propertyIsTrue c "IOPCIConfigured" w = false ->
  forall fuel, processRoot fuel w = None /\ start true fuel w = None.
Proof.
  intros Hroot Hit Hpre Hc Hf fuel.
  assert (Hrun : processRoot fuel w = None); [|split; [exact Hrun|]].
  2: { unfold start. cbn [negb]. rewrite Hrun. reflexivity. }
  pose proof (registry_IOSleep quietKernel 1000 w) as Hreg.
  unfold processRoot. rewrite Hroot.
  destruct fuel as [|fuel]; [reflexivity|].
  cbn [rootLoop]. rewrite Hit, (scanRoots_skip _ _ _ _ _ _ Hpre).
  cbn [scanRoots]. rewrite Hc. cbn [negb andb N.ltb N.compare].
  destruct fuel as [|fuel]; [reflexivity|].
  cbn [rootLoop].
  rewrite (getChildIterator_registry root gIODTPlane w _ Hreg), Hit.
  rewrite scanRoots_skip.
  - cbn [scanRoots]. rewrite (isPCIRoot_registry c w _ Hreg), Hc.
    rewrite waitConfigured_never; [reflexivity|].
    rewrite (propertyIsTrue_registry c _ w _ Hreg). exact Hf.
  - rewrite <- Hpre. clear - Hreg.
    induction pre as [|x pre IH]; simpl; [reflexivity|].
    rewrite IH, (isPCIRoot_registry x w _ Hreg). reflexivity.
Qed.

(** ** A traversal in a quiet kernel returns *)

Lemma keptInOrder_refl w : keptInOrder w w.
Proof. intros Hwf. apply keepsRegistry_registry; [reflexivity|exact Hwf]. Qed.

Lemma keptInOrder_trans w1 w2 w3 :
  keptInOrder w1 w2 -> keptInOrder w2 w3 -> keptInOrder w1 w3.
Proof.
  intros H12 H23 Hwf.
  exact (keepsRegistry_trans _ _ _ (H12 Hwf) (H23 (proj1 (H12 Hwf)))).
Qed.

Lemma keptInOrder_sleep ms w :
  annotationEvent (Slept ms) = true -> keptInOrder w (IOSleep ms w).
Proof.
  intros _ Hwf.
  apply keepsRegistry_registry; [apply registry_IOSleep, quietKernel|exact Hwf].
Qed.

Lemma keptInOrder_waitForFlag key entry n w :
  keptInOrder w (snd (waitForFlag key entry n w)).
Proof.
  apply (traversal_waitForFlag keptInOrder keptInOrder_refl keptInOrder_trans
           keptInOrder_sleep).
Qed.

Lemma keptInOrder_recurseBridge fuel entry w w' :
  recurseBridge fuel entry w = Some w' -> keptInOrder w w'.
Proof.
  apply (traversal_recurseBridge keptInOrder keptInOrder_refl keptInOrder_trans
           keptInOrder_sleep keepsRegistry_setBuiltIn
           keepsRegistry_updateOtherProperties).
Qed.

Lemma keptInOrder_visitChild recurse child w w' :
  (forall e w0 w1, recurse e w0 = Some w1 -> keptInOrder w0 w1) ->
  visitChild recurse child w = Some w' -> keptInOrder w w'.
Proof.
  apply (traversal_visitChild keptInOrder keptInOrder_refl keptInOrder_trans
           keptInOrder_sleep keepsRegistry_setBuiltIn
           keepsRegistry_updateOtherProperties).
Qed.

Lemma readUInt32_readable bytes :
  4 <= length bytes -> exists code, readUInt32 bytes = Some code.
Proof.
  destruct bytes as [|b0 [|b1 [|b2 [|b3 rest]]]]; simpl; try lia.
  intros _. eauto.
Qed.

Lemma classCode_readable w0 w child a bytes :
  codesReadable w0 -> keepsRegistry w0 w ->
  getProperty child "class-code" w = Some a ->
  castOSData w (Some a) = Some bytes ->
  4 <= length bytes.
Proof.
  intros Hcodes (_ & _ & _ & Hframe) Hget Hcast.
  assert (Hv : propertyValue child "class-code" w = Some (OSData bytes)).
  { unfold propertyValue. rewrite Hget. unfold castOSData in Hcast.
    destruct (objectAt w a) as [[| | |bs|]|]; try discriminate.
    congruence. }
  rewrite Hframe in Hv by reflexivity.
  unfold propertyValue, getProperty in Hv.
  destruct (entries (registry w0) !! child) as [ent|] eqn:He; [|discriminate].
  pose proof (Hcodes child ent He) as Hr. unfold codeReadable in Hr.
  destruct (propertyTable ent !! "class-code") as [a0|]; [|discriminate].
  cbn [mbind option_bind] in Hr. rewrite Hv in Hr.
  apply Nat.leb_le, Hr.
Qed.

Lemma visitChild_returns w0 recurse child w :
  codesReadable w0 -> keepsRegistry w0 w ->
  (forall w1, keepsRegistry w0 w1 -> exists w', recurse child w1 = Some w') ->
  exists w', visitChild recurse child w = Some w'.
Proof.
  intros Hcodes Hk Hrec. unfold visitChild.
  destruct (getProperty child "class-code" w) as [a|] eqn:Hget; [|eauto].
  destruct (castOSData w (Some a)) as [bytes|] eqn:Hcast; [|eauto].
  destruct (readUInt32_readable bytes
              (classCode_readable _ _ _ _ _ Hcodes Hk Hget Hcast)) as [code ->].
  destruct (isStorageCode code); [eauto|].
  destruct (code =? PCIBridge codes)%Z; [|eauto].
  pose proof (keptInOrder_waitForFlag "IOPCIConfigured" child 1000 w (proj1 Hk))
    as Hwait.
  destruct (waitForFlag "IOPCIConfigured" child 1000 w) as [timeout w1].
  cbn [snd] in Hwait.
  destruct (timeout >? 0)%Z; [|eauto].
  apply Hrec. exact (keepsRegistry_trans _ _ _ Hk Hwait).
Qed.

Lemma forEachEntry_returns w0 body iterator :
  (forall c w w', body c w = Some w' -> keptInOrder w w') ->
  (forall c, In c iterator ->
             forall w, keepsRegistry w0 w -> exists w', body c w = Some w') ->
  forall w, keepsRegistry w0 w -> exists w', forEachEntry body iterator w = Some w'.
Proof.
  intros Hkeeps. induction iterator as [|c rest IH]; intros Hbody w Hk;
    cbn [forEachEntry]; [eauto|].
  destruct (Hbody c (or_introl eq_refl) w Hk) as [w1 H1]. rewrite H1.
  apply IH.
  - intros c' Hc'. apply Hbody. right. exact Hc'.
  - exact (keepsRegistry_trans _ _ _ Hk (Hkeeps _ _ _ H1 (proj1 Hk))).
Qed.

Lemma recurseBridge_returns w0 n :
  codesReadable w0 ->
  forall fuel entry w,
    n < fuel -> keepsRegistry w0 w ->
    heightAtMost gIODTPlane w0 n entry = true ->
    exists w', recurseBridge fuel entry w = Some w'.
Proof.
  intros Hcodes. induction n as [|n IH]; intros fuel entry w Hlt Hk Hh;
    (destruct fuel as [|fuel]; [lia|]); cbn [recurseBridge];
    rewrite (getChildIterator_topology w0 w entry gIODTPlane
               (proj1 (proj2 Hk)));
    cbn [heightAtMost] in Hh.
  - destruct (getChildIterator entry gIODTPlane w0); [|discriminate].
    cbn [forEachEntry]. eauto.
  - apply (forEachEntry_returns w0); [| |exact Hk].
    + intros c w1 w2. apply keptInOrder_visitChild.
      intros e w3 w4. apply keptInOrder_recurseBridge.
    + intros c Hc w1 Hk1. apply (visitChild_returns w0); [exact Hcodes|exact Hk1|].
      intros w2 Hk2. apply IH; [lia|exact Hk2|].
      rewrite forallb_forall in Hh. apply Hh, Hc.
Qed.

(** X10. The walker returns.  In a kernel that does not touch the registry
    meanwhile, for every allocation outcome: on a registry without dangling
    property in which every class code that is data has four bytes or
    more, and below an entry that has no entry more than [n] links below it
    in the device tree, [recurseBridge] returns when it is given more than
    [n] levels of recursion, and it has kept the registry in order. *)
Theorem recurseBridge_terminates n fuel entry w :
  wellFormed w -> codesReadable w ->
  heightAtMost gIODTPlane w n entry = true ->
  n < fuel ->
  exists w', recurseBridge fuel entry w = Some w' /\ keepsRegistry w w'.
Proof.
  intros Hwf Hcodes Hh Hlt.
  destruct (recurseBridge_returns w n Hcodes fuel entry w Hlt
              (keptInOrder_refl w Hwf) Hh) as [w' Hrun].
  exists w'. split; [exact Hrun|].
  exact (keptInOrder_recurseBridge _ _ _ _ Hrun Hwf).
Qed.

Lemma isPCIRoot_topology w w' x :
  topology w' = topology w -> isPCIRoot x w' = isPCIRoot x w.
Proof.
  intros H. apply (topology_lookup w w' x) in H. unfold isPCIRoot.
  destruct (entries (registry w') !! x) as [e'|],
           (entries (registry w) !! x) as [e|]; simpl in H; try discriminate;
    [|reflexivity].
  injection H as -> _ _. reflexivity.
Qed.

Lemma propertyIsTrue_value e key w :
  propertyIsTrue e key w =
  match propertyValue e key w with Some (OSBoolean true) => true | _ => false end.
Proof.
  unfold propertyIsTrue, castOSBoolean, propertyValue.
  destruct (getProperty e key w) as [a|]; [|reflexivity].
  destruct (objectAt w a) as [[[|]| | | |]|]; reflexivity.
Qed.

Lemma scanRoots_first fuel iterator found w :
  existsb (fun x => isPCIRoot x w) iterator = true ->
  scanRoots fuel iterator false found w = Some (true, found, IOSleep 1000 w).
Proof.
  induction iterator as [|x rest IH]; cbn [existsb scanRoots]; [discriminate|].
  destruct (isPCIRoot x w); [reflexivity|exact IH].
Qed.

Lemma scanRoots_returns w0 n fuel iterator :
  codesReadable w0 -> n < fuel ->
  (forall x, In x iterator -> isPCIRoot x w0 = true ->
             propertyIsTrue x "IOPCIConfigured" w0 = true /\
             heightAtMost gIODTPlane w0 n x = true) ->
  forall found w,
    keepsRegistry w0 w ->
    exists ready' found' w',
      scanRoots fuel iterator true found w = Some (ready', found', w') /\
      keepsRegistry w0 w' /\
      (found = true \/ existsb (fun x => isPCIRoot x w0) iterator = true ->
       found' = true).
Proof.
  intros Hcodes Hlt. induction iterator as [|x rest IH]; intros Hall found w Hk;
    cbn [scanRoots existsb].
  - exists true, found, w. split; [reflexivity|]. split; [exact Hk|].
    intros [H|H]; [exact H|discriminate].
  - assert (Hrest : forall y, In y rest -> isPCIRoot y w0 = true ->
               propertyIsTrue y "IOPCIConfigured" w0 = true /\
               heightAtMost gIODTPlane w0 n y = true).
    { intros y Hy. apply Hall. right. exact Hy. }
    rewrite (isPCIRoot_topology w0 w x (proj1 (proj2 Hk))).
    destruct (isPCIRoot x w0) eqn:Hx.
    + destruct (Hall x (or_introl eq_refl) Hx) as [Hconf Hh].
      assert (Hflag : propertyIsTrue x "IOPCIConfigured" w = true).
      { rewrite propertyIsTrue_value in *.
        destruct Hk as (_ & _ & _ & Hframe). rewrite Hframe by reflexivity.
        exact Hconf. }
      assert (Hwait : waitConfigured fuel x w = Some w).
      { destruct fuel; cbn [waitConfigured]; rewrite Hflag; reflexivity. }
      rewrite Hwait.
      destruct (recurseBridge_returns w0 n Hcodes fuel x w Hlt Hk Hh) as [w2 Hrun].
      rewrite Hrun.
      pose proof (keptInOrder_recurseBridge _ _ _ _ Hrun (proj1 Hk)) as Hk2.
      destruct (IH Hrest true w2 (keepsRegistry_trans _ _ _ Hk Hk2))
        as (r & f & w' & Hscan & Hk' & Hfound).
      exists r, f, w'. split; [exact Hscan|]. split; [exact Hk'|].
      intros _. apply Hfound. left. reflexivity.
    + destruct (IH Hrest found w Hk) as (r & f & w' & Hscan & Hk' & Hfound).
      exists r, f, w'. split; [exact Hscan|]. split; [exact Hk'|]. exact Hfound.
Qed.

(** X11. The traversal returns.  In a kernel that does not touch the
    registry meanwhile, for every allocation outcome: on a registry without
    dangling property in which every class code that is data has four
    bytes or more, when the root has a child whose name begins with [PC],
    every such child has [IOPCIConfigured] true and no entry more than [n]
    links below it, [processRoot] returns after two scans, given [n] + 3
    rounds or more, and [start] registers the service and returns true. *)
Theorem processRoot_terminates n fuel root w :
  wellFormed w -> codesReadable w ->
  deviceTreeRoot (registry w) = Some root ->
  existsb (fun x => isPCIRoot x w) (getChildIterator root gIODTPlane w) = true ->
  (forall x, In x (getChildIterator root gIODTPlane w) -> isPCIRoot x w = true ->
             propertyIsTrue x "IOPCIConfigured" w = true /\
             heightAtMost gIODTPlane w n x = true) ->
  n < fuel ->
  exists w',
    processRoot (S (S fuel)) w = Some w' /\
    start true (S (S fuel)) w = Some (true, record ServiceRegistered w') /\
    keepsRegistry w w'.
Proof.
  intros Hwf Hcodes Hroot Hsome Hall Hlt.
  pose proof (registry_IOSleep quietKernel 1000 w) as Hreg.
  destruct (scanRoots_returns w n fuel (getChildIterator root gIODTPlane w)
              Hcodes Hlt Hall false (IOSleep 1000 w)
              (keepsRegistry_registry _ _ Hreg Hwf))
    as (r & f & w' & Hscan & Hk & Hfound).
  rewrite (Hfound (or_intror Hsome)) in Hscan.
  assert (Hrun : processRoot (S (S fuel)) w = Some w').
  { unfold processRoot. rewrite Hroot. cbn [rootLoop].
    rewrite (scanRoots_first _ _ _ _ Hsome). cbn [negb andb N.ltb N.compare].
    rewrite (getChildIterator_registry root gIODTPlane w _ Hreg), Hscan.
    rewrite andb_false_r. reflexivity. }
  exists w'. split; [exact Hrun|]. split; [|exact Hk].
  unfold start. cbn [negb]. rewrite Hrun. reflexivity.
Qed.

Section QuietNoAllocationFailure.

Hypothesis neverFail : forall n, allocFails n = false.

(** X12. What a traversal makes of the properties, in a kernel that does
    not touch the registry meanwhile and when no allocation fails: when
    [processRoot] returns, every entry of the registry has the properties
    it had, or these and [built-in], or these annotated as
    [updateOtherProperties] annotates them; entries are neither made nor
    removed. *)
Theorem processRoot_annotates_or_keeps fuel w w' :
  processRoot fuel w = Some w' -> wellFormed w ->
  wellFormed w' /\ annotatedOrKept w w' /\
  dom (propertyState w') = dom (propertyState w).
Proof.
  intros Hrun Hwf.
  assert (H : wellFormed w' /\ annotatedOrKept w w').
  { revert Hwf.
    apply (traversal_processRoot
             (fun w0 w1 => wellFormed w0 -> wellFormed w1 /\ annotatedOrKept w0 w1))
      with (fuel := fuel); [| | | | |exact Hrun].
    - intros w0 Hwf. split; [exact Hwf|]. intros x. left. reflexivity.
    - intros w1 w2 w3 H12 H23 Hwf.
      destruct (H12 Hwf) as [Hwf2 A12]. destruct (H23 Hwf2) as [Hwf3 A23].
      split; [exact Hwf3|exact (annotatedOrKept_trans _ _ _ A12 A23)].
    - intros ms w0 _ Hwf.
      pose proof (registry_IOSleep quietKernel ms w0) as Hreg.
      split.
      + revert Hwf. unfold wellFormed, objectAt. rewrite Hreg. auto.
      + intros x. left. unfold propertyState, propertyValues, objectAt.
        rewrite Hreg. reflexivity.
    - intros e w0 Hwf. destruct (setBuiltIn_state neverFail e w0 Hwf) as [Hs Hwf'].
      split; [exact Hwf'|]. apply (annotatedOrKept_alter _ e _ _ (or_introl eq_refl) Hs).
    - intros e w0 Hwf.
      destruct (updateOtherProperties_state neverFail e w0 Hwf) as [Hs Hwf'].
      split; [exact Hwf'|]. apply (annotatedOrKept_alter _ e _ _ (or_intror eq_refl) Hs). }
  destruct H as [Hwf' Hann]. split; [exact Hwf'|]. split; [exact Hann|].
  apply set_eq. intros x. rewrite !elem_of_dom.
  destruct (Hann x) as [E|[E|E]]; rewrite E;
    destruct (propertyState w !! x); simpl; split; intros [? ?]; eauto; discriminate.
Qed.

(** X13. What [internalizeDevice] makes of the properties, in a kernel
    that does not touch the registry meanwhile and when no allocation fails.
    When [IOPCIResourced] of the node is true, the node and every entry
    below it in the service plane end annotated as [updateOtherProperties]
    annotates an entry once, and every other entry has the properties it
    had.  When it is not true, the node has got [built-in] and nothing else
    has changed. *)
Theorem internalizeDevice_final_state e w :
  wellFormed w ->
  wellFormed (internalizeDevice e w) /\
  if propertyIsTrue e "IOPCIResourced" w then
    forall x,
      (x = e \/ descendant gIOServicePlane w e x ->
       propertyState (internalizeDevice e w) !! x = annotate <$> propertyState w !! x) /\
      (x <> e -> ~ descendant gIOServicePlane w e x ->
       propertyState (internalizeDevice e w) !! x = propertyState w !! x)
  else
    propertyState (internalizeDevice e w) = alter annotateBuiltIn e (propertyState w).
Proof.
  intros Hwf.
  destruct (refines_internalizeDevice neverFail quietKernel e w Hwf) as (Hwf' & Hs & _).
  split; [exact Hwf'|]. rewrite Hs. unfold annotateDevice.
  rewrite stateIsTrue_alter
    by (intros m; unfold annotateBuiltIn; apply lookup_insert_ne; discriminate).
  rewrite <- propertyIsTrue_state.
  destruct (propertyIsTrue e "IOPCIResourced" w); [|reflexivity].
  rewrite !annotatePass_idempotent. intros x.
  rewrite annotatePass_lookup, lookup_alter. split.
  - intros Hx. rewrite decide_True.
    + destruct (decide (e = x)) as [->|]; [|reflexivity].
      destruct (propertyState w !! x) as [m|]; simpl; [|reflexivity].
      rewrite annotate_annotateBuiltIn. reflexivity.
    + destruct Hx as [Hx|Hx]; [left; exact Hx|right].
      apply list_elem_of_In, iterateOver_descendants, Hx.
  - intros Hne Hnd. rewrite decide_False.
    + rewrite decide_False by congruence. reflexivity.
    + intros [Hx|Hx]; [contradiction|].
      apply Hnd, iterateOver_descendants, list_elem_of_In, Hx.
Qed.

(** ** Every storage controller the walker comes to ends annotated *)

Lemma annotatedInOrder_refl w : annotatedInOrder w w.
Proof.
  intros Hwf. split; [exact (keptInOrder_refl w Hwf)|]. intros x. left. reflexivity.
Qed.

Lemma annotatedInOrder_trans w1 w2 w3 :
  annotatedInOrder w1 w2 -> annotatedInOrder w2 w3 -> annotatedInOrder w1 w3.
Proof.
  intros H12 H23 Hwf.
  destruct (H12 Hwf) as [K12 A12]. destruct (H23 (proj1 K12)) as [K23 A23].
  split; [exact (keepsRegistry_trans _ _ _ K12 K23)
         |exact (annotatedOrKept_trans _ _ _ A12 A23)].
Qed.

Lemma annotatedInOrder_sleep ms w :
  annotationEvent (Slept ms) = true -> annotatedInOrder w (IOSleep ms w).
Proof.
  intros Hms Hwf. split; [exact (keptInOrder_sleep ms w Hms Hwf)|].
  intros x. left. unfold propertyState, propertyValues, objectAt.
  rewrite (registry_IOSleep quietKernel ms w). reflexivity.
Qed.

Lemma annotatedInOrder_setBuiltIn e w : annotatedInOrder w (setBuiltIn (Some e) w).
Proof.
  intros Hwf. split; [exact (keepsRegistry_setBuiltIn e w Hwf)|].
  destruct (setBuiltIn_state neverFail e w Hwf) as [Hs _].
  exact (annotatedOrKept_alter _ e _ _ (or_introl eq_refl) Hs).
Qed.

Lemma annotatedInOrder_update e w :
  annotatedInOrder w (updateOtherProperties (Some e) w).
Proof.
  intros Hwf. split; [exact (keepsRegistry_updateOtherProperties e w Hwf)|].
  destruct (updateOtherProperties_state neverFail e w Hwf) as [Hs _].
  exact (annotatedOrKept_alter _ e _ _ (or_intror eq_refl) Hs).
Qed.

Lemma annotatedInOrder_recurseBridge fuel entry w w' :
  recurseBridge fuel entry w = Some w' -> annotatedInOrder w w'.
Proof.
  apply (traversal_recurseBridge annotatedInOrder annotatedInOrder_refl
           annotatedInOrder_trans annotatedInOrder_sleep
           annotatedInOrder_setBuiltIn annotatedInOrder_update).
Qed.

Lemma annotatedInOrder_visitChild recurse child w w' :
  (forall e w0 w1, recurse e w0 = Some w1 -> annotatedInOrder w0 w1) ->
  visitChild recurse child w = Some w' -> annotatedInOrder w w'.
Proof.
  apply (traversal_visitChild annotatedInOrder annotatedInOrder_refl
           annotatedInOrder_trans annotatedInOrder_sleep
           annotatedInOrder_setBuiltIn annotatedInOrder_update).
Qed.

Lemma annotatedInOrder_forEachEntry body iterator w w' :
  (forall e w0 w1, body e w0 = Some w1 -> annotatedInOrder w0 w1) ->
  forEachEntry body iterator w = Some w' -> annotatedInOrder w w'.
Proof.
  apply (traversal_forEachEntry annotatedInOrder annotatedInOrder_refl
           annotatedInOrder_trans).
Qed.

Lemma annotatedInOrder_waitConfigured fuel entry w w' :
  waitConfigured fuel entry w = Some w' -> annotatedInOrder w w'.
Proof.
  apply (traversal_waitConfigured annotatedInOrder annotatedInOrder_refl
           annotatedInOrder_trans annotatedInOrder_sleep).
Qed.

Lemma annotatedInOrder_scanRoots fuel iterator ready found w ready' found' w' :
  scanRoots fuel iterator ready found w = Some (ready', found', w') ->
  annotatedInOrder w w'.
Proof.
  apply (traversal_scanRoots annotatedInOrder annotatedInOrder_refl
           annotatedInOrder_trans annotatedInOrder_sleep
           annotatedInOrder_setBuiltIn annotatedInOrder_update).
Qed.

Lemma annotatedInOrder_rootLoop fuel entry ready found repeat w found' w' :
  rootLoop fuel entry ready found repeat w = Some (found', w') ->
  annotatedInOrder w w'.
Proof.
  apply (traversal_rootLoop annotatedInOrder annotatedInOrder_refl
           annotatedInOrder_trans annotatedInOrder_sleep
           annotatedInOrder_setBuiltIn annotatedInOrder_update).
Qed.

Lemma annotated_after w0 w w' x :
  annotatedOrKept w0 w ->
  propertyState w' !! x = annotate <$> propertyState w !! x ->
  propertyState w' !! x = annotate <$> propertyState w0 !! x.
Proof.
  intros H ->. destruct (H x) as [E|[E|E]]; rewrite E;
    destruct (propertyState w0 !! x) as [m|]; simpl; try reflexivity.
  - rewrite annotate_annotateBuiltIn. reflexivity.
  - rewrite annotate_idempotent. reflexivity.
Qed.

Lemma annotated_kept w0 w w' x :
  propertyState w !! x = annotate <$> propertyState w0 !! x ->
  annotatedOrKept w w' ->
  propertyState w' !! x = annotate <$> propertyState w0 !! x.
Proof.
  intros Hx H. destruct (H x) as [E|[E|E]]; rewrite E, Hx;
    destruct (propertyState w0 !! x) as [m|]; simpl; try reflexivity.
  - rewrite annotateBuiltIn_annotate. reflexivity.
  - rewrite annotate_idempotent. reflexivity.
Qed.

Lemma internalizeDevice_resourced e w x :
  wellFormed w ->
  propertyIsTrue e "IOPCIResourced" w = true ->
  x = e \/ descendant gIOServicePlane w e x ->
  propertyState (internalizeDevice e w) !! x = annotate <$> propertyState w !! x.
Proof.
  intros Hwf Hflag Hx.
  destruct (refines_internalizeDevice neverFail quietKernel e w Hwf) as (_ & Hs & _).
  rewrite Hs. unfold annotateDevice.
  rewrite stateIsTrue_alter
    by (intros m; unfold annotateBuiltIn; apply lookup_insert_ne; discriminate).
  rewrite <- propertyIsTrue_state, Hflag, !annotatePass_idempotent.
  rewrite annotatePass_lookup, lookup_alter, decide_True.
  - destruct (decide (e = x)) as [->|]; [|reflexivity].
    destruct (propertyState w !! x) as [m|]; simpl; [|reflexivity].
    rewrite annotate_annotateBuiltIn. reflexivity.
  - destruct Hx as [Hx|Hx]; [left; exact Hx|right].
    apply list_elem_of_In, iterateOver_descendants, Hx.
Qed.

Lemma classCodeOf_value e w :
  classCodeOf e w =
  match propertyValue e "class-code" w with
  | Some (OSData bytes) => readUInt32 bytes
  | _ => None
  end.
Proof.
  unfold classCodeOf, castOSData, propertyValue.
  destruct (getProperty e "class-code" w) as [a|]; [|reflexivity].
  destruct (objectAt w a) as [[| | | |]|]; reflexivity.
Qed.

Lemma classCodeOf_kept w0 w e : keepsRegistry w0 w -> classCodeOf e w = classCodeOf e w0.
Proof.
  intros (_ & _ & _ & Hframe). rewrite !classCodeOf_value, Hframe by reflexivity.
  reflexivity.
Qed.

Lemma propertyIsTrue_kept w0 w e key :
  isAnnotationKey key = false -> keepsRegistry w0 w ->
  propertyIsTrue e key w = propertyIsTrue e key w0.
Proof.
  intros Hkey (_ & _ & _ & Hframe).
  rewrite !propertyIsTrue_value, Hframe by exact Hkey. reflexivity.
Qed.

Lemma forEachEntry_annotates w0 body x c iterator :
  (forall e w1 w2, body e w1 = Some w2 -> annotatedInOrder w1 w2) ->
  (forall w1 w2,
      keepsRegistry w0 w1 -> annotatedOrKept w0 w1 -> body c w1 = Some w2 ->
      propertyState w2 !! x = annotate <$> propertyState w0 !! x) ->
  In c iterator ->
  forall w w',
    keepsRegistry w0 w -> annotatedOrKept w0 w ->
    forEachEntry body iterator w = Some w' ->
    propertyState w' !! x = annotate <$> propertyState w0 !! x.
Proof.
  intros Hbody Hc. induction iterator as [|y rest IH]; intros Hin w w' Hk Ha;
    [destruct Hin|].
  cbn [forEachEntry]. destruct (body y w) as [w1|] eqn:Hy; [|discriminate].
  intros Hrest.
  destruct (Hbody _ _ _ Hy (proj1 Hk)) as [K1 A1].
  destruct Hin as [->|Hin].
  - apply (annotated_kept w0 w1 w' x (Hc _ _ Hk Ha Hy)).
    exact (proj2 (annotatedInOrder_forEachEntry _ _ _ _ Hbody Hrest (proj1 K1))).
  - exact (IH Hin w1 w' (keepsRegistry_trans _ _ _ Hk K1)
             (annotatedOrKept_trans _ _ _ Ha A1) Hrest).
Qed.

Lemma recurseBridge_annotates w0 d x :
  propertyIsTrue d "IOPCIResourced" w0 = true ->
  x = d \/ descendant gIOServicePlane w0 d x ->
  forall fuel entry,
    walked codes w0 entry d ->
    forall w w',
      keepsRegistry w0 w -> annotatedOrKept w0 w ->
      recurseBridge fuel entry w = Some w' ->
      propertyState w' !! x = annotate <$> propertyState w0 !! x.
Proof.
  intros Hres Hx fuel. induction fuel as [|fuel IH]; intros entry Hwalk w w' Hk Ha;
    cbn [recurseBridge]; [discriminate|].
  rewrite (getChildIterator_topology w0 w entry gIODTPlane (proj1 (proj2 Hk))).
  assert (Hbody : forall e w1 w2,
             visitChild (recurseBridge fuel) e w1 = Some w2 -> annotatedInOrder w1 w2).
  { intros e w1 w2. apply annotatedInOrder_visitChild.
    intros e' w3 w4. apply annotatedInOrder_recurseBridge. }
  inversion Hwalk as [bridge d' code Hin Hcode Hstorage
                     |bridge c d' Hin Hcode Hnot Hconf Hbelow]; subst.
  - apply (forEachEntry_annotates w0 _ x d _ Hbody); [|exact Hin|exact Hk|exact Ha].
    intros w1 w2 K1 A1.
    rewrite (visitChild_classCode _ _ _ code), Hstorage
      by (rewrite (classCodeOf_kept w0 w1 d K1); exact Hcode).
    intros [= <-].
    apply (annotated_after w0 w1 _ x A1).
    apply internalizeDevice_resourced; [exact (proj1 K1)| |].
    + rewrite (propertyIsTrue_kept w0 w1 d "IOPCIResourced" eq_refl K1). exact Hres.
    + destruct Hx as [Hx|Hx]; [left; exact Hx|right].
      exact (descendant_topology _ _ _ _ _ (eq_sym (proj1 (proj2 K1))) Hx).
  - apply (forEachEntry_annotates w0 _ x c _ Hbody); [|exact Hin|exact Hk|exact Ha].
    intros w1 w2 K1 A1.
    assert (Hflag : propertyIsTrue c "IOPCIConfigured" w1 = true).
    { rewrite (propertyIsTrue_kept w0 w1 c "IOPCIConfigured" eq_refl K1). exact Hconf. }
    rewrite (visitChild_classCode _ _ _ (PCIBridge codes)), Hnot, Z.eqb_refl
      by (rewrite (classCodeOf_kept w0 w1 c K1); exact Hcode).
    change (unseenFor "IOPCIConfigured" c 1000 w1) with
      (negb (propertyIsTrue c "IOPCIConfigured" w1)
       && unseenFor "IOPCIConfigured" c 999 (IOSleep 10 w1)).
    change (waitForFlag "IOPCIConfigured" c 1000 w1) with
      (if propertyIsTrue c "IOPCIConfigured" w1 then (Z.of_nat 1000, w1)
       else waitForFlag "IOPCIConfigured" c 999 (IOSleep 10 w1)).
    rewrite Hflag. cbn [negb andb snd].
    apply (IH c Hbelow w1 w2 K1 A1).
Qed.

Lemma scanRoots_annotates w0 d x c fuel iterator :
  propertyIsTrue d "IOPCIResourced" w0 = true ->
  x = d \/ descendant gIOServicePlane w0 d x ->
  isPCIRoot c w0 = true ->
  walked codes w0 c d ->
  In c iterator ->
  forall found w ready' found' w',
    keepsRegistry w0 w -> annotatedOrKept w0 w ->
    scanRoots fuel iterator true found w = Some (ready', found', w') ->
    propertyState w' !! x = annotate <$> propertyState w0 !! x.
Proof.
  intros Hres Hx Hc Hwalk.
  induction iterator as [|y rest IH]; intros Hin found w ready' found' w' Hk Ha;
    [destruct Hin|].
  cbn [scanRoots].
  rewrite (isPCIRoot_topology w0 w y (proj1 (proj2 Hk))).
  destruct (isPCIRoot y w0) eqn:Hy.
  - destruct (waitConfigured fuel y w) as [w1|] eqn:H1; [|discriminate].
    destruct (recurseBridge fuel y w1) as [w2|] eqn:H2; [|discriminate].
    intros Hrest.
    destruct (annotatedInOrder_waitConfigured _ _ _ _ H1 (proj1 Hk)) as [K1 A1].
    pose proof (keepsRegistry_trans _ _ _ Hk K1) as Hk1.
    pose proof (annotatedOrKept_trans _ _ _ Ha A1) as Ha1.
    destruct (annotatedInOrder_recurseBridge _ _ _ _ H2 (proj1 K1)) as [K2 A2].
    destruct Hin as [->|Hin].
    + apply (annotated_kept w0 w2 w' x).
      * exact (recurseBridge_annotates w0 d x Hres Hx fuel c Hwalk w1 w2 Hk1 Ha1 H2).
      * exact (proj2 (annotatedInOrder_scanRoots _ _ _ _ _ _ _ _ Hrest (proj1 K2))).
    + exact (IH Hin true w2 ready' found' w' (keepsRegistry_trans _ _ _ Hk1 K2)
               (annotatedOrKept_trans _ _ _ Ha1 A2) Hrest).
  - destruct Hin as [->|Hin]; [congruence|].
    exact (IH Hin found w ready' found' w' Hk Ha).
Qed.

(** X14. What the driver is for.  In a kernel that does not touch the
    registry meanwhile and when no allocation fails, on a registry without
    dangling property: when [processRoot] returns, every storage controller
    that the walker comes to from a child of the root whose name begins
    with [PC] (through bridges that are configured) and that is resourced
    ends annotated, and so does every entry below it in the service plane:
    their properties are those that [updateOtherProperties] makes of the
    properties they had before the traversal. *)
Theorem processRoot_annotates_storage fuel w w' root c d x :
  wellFormed w ->
  processRoot fuel w = Some w' ->
  deviceTreeRoot (registry w) = Some root ->
  In c (getChildIterator root gIODTPlane w) ->
  isPCIRoot c w = true ->
  walked codes w c d ->
  propertyIsTrue d "IOPCIResourced" w = true ->
  x = d \/ descendant gIOServicePlane w d x ->
  propertyState w' !! x = annotate <$> propertyState w !! x.
Proof.
  intros Hwf Hrun Hroot Hin Hc Hwalk Hres Hx.
  assert (Hsome : existsb (fun y => isPCIRoot y w)
                    (getChildIterator root gIODTPlane w) = true).
  { apply existsb_exists. exists c. split; [exact Hin|exact Hc]. }
  pose proof (registry_IOSleep quietKernel 1000 w) as Hreg.
  destruct (annotatedInOrder_sleep 1000 w eq_refl Hwf) as [K1 A1].
  unfold processRoot in Hrun. rewrite Hroot in Hrun.
  destruct (rootLoop fuel root false false 0%N w) as [[found w0]|] eqn:Hloop;
    [|discriminate].
  injection Hrun as ->.
  destruct fuel as [|fuel]; [discriminate|]. cbn [rootLoop] in Hloop.
  rewrite (scanRoots_first _ _ _ _ Hsome) in Hloop.
  cbn [negb andb N.ltb N.compare] in Hloop.
  destruct fuel as [|fuel]; [discriminate|]. cbn [rootLoop] in Hloop.
  rewrite (getChildIterator_registry root gIODTPlane w _ Hreg) in Hloop.
  destruct (scanRoots fuel (getChildIterator root gIODTPlane w) true false
              (IOSleep 1000 w)) as [[[ready2 found2] w2]|] eqn:Hscan;
    [|discriminate].
  pose proof (scanRoots_annotates w d x c fuel _ Hres Hx Hc Hwalk Hin
                false _ _ _ _ K1 A1 Hscan) as Hann.
  destruct (annotatedInOrder_scanRoots _ _ _ _ _ _ _ _ Hscan (proj1 K1)) as [K2 _].
  destruct ((0 + 1 <? 268435456)%N && negb found2).
  - apply (annotated_kept w w2 w' x Hann).
    exact (proj2 (annotatedInOrder_rootLoop _ _ _ _ _ _ _ _ Hloop (proj1 K2))).
  - injection Hloop as _ <-. exact Hann.
Qed.

End QuietNoAllocationFailure.

End QuietTraversal.

(** ** A driver that attaches late *)

(** X15. What the passes are for, for every kernel: when no allocation
    fails and [IOPCIResourced] is seen, every entry that is below the node
    in the service plane when the third pass begins ends annotated, also
    when it was not there at the first or the second pass; [last] is the
    world the third pass begins in, taken to have no dangling property. *)
Theorem late_driver_is_annotated e w d :
  (forall n, allocFails n = false) ->
  unseenFor "IOPCIResourced" e 2000 (setBuiltIn (Some e) w) = false ->
  let ready := snd (waitForFlag "IOPCIResourced" e 2000 (setBuiltIn (Some e) w)) in
  let last := IOSleep 100 (onePass e (IOSleep 100 (onePass e ready))) in
  wellFormed last ->
  d = e \/ descendant gIOServicePlane last e d ->
  propertyState (internalizeDevice e w) !! d = annotate <$> propertyState last !! d.
Proof.
  intros neverFail Hseen ready last Hwf Hd.
  rewrite internalizeDevice_passes, Hseen. fold ready. fold last.
  rewrite <- updateDriverEntries_onePass.
  destruct (refines_pass neverFail e last Hwf) as (_ & -> & _).
  rewrite annotatePass_lookup, decide_True; [reflexivity|].
  destruct Hd as [Hd|Hd]; [left; exact Hd|right].
  apply list_elem_of_In, iterateOver_descendants, Hd.
Qed.

(** ** A bridge with nothing to do *)

(** X16. A bridge none of whose children is a storage controller or a
    bridge: [recurseBridge] returns at once and has done nothing, no sleep
    and no write, whatever the children are otherwise (no class code, a
    class code that is not data, or another class). *)
Theorem recurseBridge_nothing_to_do fuel entry w :
  (forall child,
      In child (getChildIterator entry gIODTPlane w) ->
      castOSData w (getProperty child "class-code" w) = None \/
      exists code,
        classCodeOf child w = Some code /\
        isStorageCode code = false /\ code <> PCIBridge codes) ->
  recurseBridge (S fuel) entry w = Some w.
Proof.
  cbn [recurseBridge].
  induction (getChildIterator entry gIODTPlane w) as [|child rest IH];
    intros Hall; cbn [forEachEntry]; [reflexivity|].
  assert (Hv : visitChild (recurseBridge fuel) child w = Some w).
  { destruct (Hall child (or_introl eq_refl)) as [Hno|(code & Hcode & Hs & Hb)].
    - apply visitChild_unclassified, Hno.
    - rewrite (visitChild_classCode _ _ _ _ Hcode), Hs.
      apply Z.eqb_neq in Hb. rewrite Hb. reflexivity. }
  rewrite Hv. apply IH. intros c Hc. apply Hall. right. exact Hc.
Qed.


End Properties.






(** * The properties at concrete registries *)

Lemma wellFormed_scenario : wellFormed scenario.
Proof. apply (bool_decide_unpack _). vm_compute. exact I. Defined.

Lemma wellFormed_labelled : wellFormed labelled.
Proof. apply (bool_decide_unpack _). vm_compute. exact I. Defined.



(** With no bus root the loop gives up after [0x10000001] scans, and
    [start] registers the service and returns [true] all the same. *)
Lemma root_not_found_counterexample :
  rootLoop quiet neverFails pciCodes (N.to_nat 0x10000001) 100 false false 0%N noRoots =
    Some (false, noRoots) /\
  start quiet neverFails pciCodes true (N.to_nat 0x10000001) noRoots =
    Some (true, record ServiceRegistered noRoots).
Proof.
  assert (Hloop : rootLoop quiet neverFails pciCodes (N.to_nat 0x10000001) 100
                    false false 0%N noRoots = Some (false, noRoots)).
  { apply rootLoop_no_candidate; [vm_compute; reflexivity|lia|lia]. }
  split; [exact Hloop|].
  unfold start, processRoot.
  change (deviceTreeRoot (registry noRoots)) with (Some 100).
  cbv beta iota. rewrite Hloop. reflexivity.
Qed.

Lemma root_not_found_is_not_reported_witness :
  start quiet neverFails pciCodes true (N.to_nat 0x10000001) noRoots =
    Some (true, record ServiceRegistered noRoots) /\
  (noRoots = noRoots \/ noRoots = IOSleep quiet 1000 noRoots).
Proof.
  apply (root_not_found_is_not_reported quiet neverFails pciCodes
           (N.to_nat 0x10000001) 100 noRoots noRoots).
  - reflexivity.
  - apply rootLoop_no_candidate; [vm_compute; reflexivity|lia|lia].
Defined.

Lemma classification_routing_witness :
  recurseBridge quiet neverFails pciCodes 3 11 scenario =
    forEachEntry (visitChild quiet neverFails pciCodes
                    (recurseBridge quiet neverFails pciCodes 2)) [21]
      (internalizeDevice quiet neverFails 20 scenario) /\
  (recurseBridge quiet neverFails pciCodes 3 11 scenario =
     (if (fst (waitForFlag quiet "IOPCIConfigured" 21 1000
                 (internalizeDevice quiet neverFails 20 scenario)) >? 0)%Z
      then
        match recurseBridge quiet neverFails pciCodes 2 21
                (snd (waitForFlag quiet "IOPCIConfigured" 21 1000
                        (internalizeDevice quiet neverFails 20 scenario))) with
        | Some w2 =>
            forEachEntry (visitChild quiet neverFails pciCodes
                            (recurseBridge quiet neverFails pciCodes 2)) [] w2
        | None => None
        end
      else
        forEachEntry (visitChild quiet neverFails pciCodes
                        (recurseBridge quiet neverFails pciCodes 2)) []
          (snd (waitForFlag quiet "IOPCIConfigured" 21 1000
                  (internalizeDevice quiet neverFails 20 scenario)))) /\
   ((fst (waitForFlag quiet "IOPCIConfigured" 21 1000
            (internalizeDevice quiet neverFails 20 scenario)) >? 0)%Z = true ->
    propertyIsTrue 21 "IOPCIConfigured"
      (snd (waitForFlag quiet "IOPCIConfigured" 21 1000
              (internalizeDevice quiet neverFails 20 scenario))) = true)) /\
  recurseBridge quiet neverFails pciCodes 1 21 displayOnly =
    forEachEntry (visitChild quiet neverFails pciCodes
                    (recurseBridge quiet neverFails pciCodes 0)) [24; 25] displayOnly /\
  recurseBridge quiet neverFails pciCodes 1 21 displayOnly =
    forEachEntry (visitChild quiet neverFails pciCodes
                    (recurseBridge quiet neverFails pciCodes 0)) [25] displayOnly /\
  recurseBridge quiet neverFails pciCodes 1 21 displayOnly =
    forEachEntry (visitChild quiet neverFails pciCodes
                    (recurseBridge quiet neverFails pciCodes 0)) [] displayOnly.
Proof.
  assert (Hs1 : getChildIterator 11 gIODTPlane scenario = [] ++ 20 :: [21])
    by (vm_compute; reflexivity).
  assert (Hs2 : getChildIterator 11 gIODTPlane scenario = [20] ++ 21 :: [])
    by (vm_compute; reflexivity).
  assert (Hp2 : forEachEntry (visitChild quiet neverFails pciCodes
                                (recurseBridge quiet neverFails pciCodes 2))
                  [20] scenario =
                Some (internalizeDevice quiet neverFails 20 scenario))
    by (vm_compute; reflexivity).
  assert (Hd1 : getChildIterator 21 gIODTPlane displayOnly = [] ++ 23 :: [24; 25])
    by (vm_compute; reflexivity).
  assert (Hd2 : getChildIterator 21 gIODTPlane displayOnly = [23] ++ 24 :: [25])
    by (vm_compute; reflexivity).
  assert (Hd3 : getChildIterator 21 gIODTPlane displayOnly = [23; 24] ++ 25 :: [])
    by (vm_compute; reflexivity).
  assert (Hq2 : forEachEntry (visitChild quiet neverFails pciCodes
                                (recurseBridge quiet neverFails pciCodes 0))
                  [23] displayOnly = Some displayOnly)
    by (vm_compute; reflexivity).
  assert (Hq3 : forEachEntry (visitChild quiet neverFails pciCodes
                                (recurseBridge quiet neverFails pciCodes 0))
                  [23; 24] displayOnly = Some displayOnly)
    by (vm_compute; reflexivity).
  destruct (classification_routing quiet neverFails pciCodes 2 11 [] 20 [21]
              scenario scenario eq_refl Hs1 eq_refl) as (Hstorage & _).
  destruct (classification_routing quiet neverFails pciCodes 2 11 [20] 21 []
              scenario (internalizeDevice quiet neverFails 20 scenario)
              eq_refl Hs2 Hp2) as (_ & Hbridge & _).
  destruct (classification_routing quiet neverFails pciCodes 0 21 [] 23 [24; 25]
              displayOnly displayOnly eq_refl Hd1 eq_refl) as (_ & _ & Hother & _).
  destruct (classification_routing quiet neverFails pciCodes 0 21 [23] 24 [25]
              displayOnly displayOnly eq_refl Hd2 Hq2) as (_ & _ & _ & Hkind & _).
  destruct (classification_routing quiet neverFails pciCodes 0 21 [23; 24] 25 []
              displayOnly displayOnly eq_refl Hd3 Hq3) as (_ & _ & _ & _ & Hnone).
  split; [|split; [|split; [|split]]].
  - apply (Hstorage 0x010802%Z); vm_compute; reflexivity.
  - apply Hbridge. vm_compute. reflexivity.
  - apply (Hother 0x030000%Z); [vm_compute; reflexivity..|discriminate].
  - apply (Hkind 0); vm_compute; reflexivity.
  - apply Hnone. vm_compute. reflexivity.
Defined.

Lemma bridge_readiness_witness :
  (forall other,
      visitChild quiet neverFails pciCodes other 21 pending =
      Some (afterSleeps quiet 1000 pending)) /\
  trace (afterSleeps quiet 1000 pending) = trace pending ++ repeat (Slept 10) 1000 /\
  recurseBridge quiet neverFails pciCodes 2 11 pending =
    forEachEntry (visitChild quiet neverFails pciCodes
                    (recurseBridge quiet neverFails pciCodes 1)) [20; 23; 24]
      (afterSleeps quiet 1000 pending).
Proof.
  assert (Hit : getChildIterator 11 gIODTPlane pending = [] ++ 21 :: [20; 23; 24])
    by (vm_compute; reflexivity).
  assert (Hc : classCodeOf 21 pending = Some (PCIBridge pciCodes))
    by (vm_compute; reflexivity).
  assert (Hu : unseenFor quiet "IOPCIConfigured" 21 1000 pending = true)
    by (vm_compute; reflexivity).
  destruct (bridge_readiness quiet neverFails pciCodes 1 11 [] 21 [20; 23; 24]
              pending pending eq_refl Hit eq_refl Hc) as (_ & _ & Hskip).
  exact (Hskip Hu).
Defined.

Lemma resourcing_timeout_witness :
  internalizeDevice quiet neverFails 20 pending =
    afterSleeps quiet 2000 (setBuiltIn neverFails (Some 20) pending) /\
  trace (internalizeDevice quiet neverFails 20 pending) =
    trace (setBuiltIn neverFails (Some 20) pending) ++ repeat (Slept 10) 2000.
Proof.
  assert (He : entries (registry pending) !! 20 =
               Some (mkEntry "NVME" [("class-code", 2); ("IOPCIResourced", 0)] [] [30]))
    by (vm_compute; reflexivity).
  assert (Hu : unseenFor quiet "IOPCIResourced" 20 2000
                 (setBuiltIn neverFails (Some 20) pending) = true)
    by (vm_compute; reflexivity).
  destruct (resourcing_timeout quiet neverFails 20 _ pending He eq_refl Hu)
    as (_ & _ & Hrun & Htrace).
  split; assumption.
Defined.

Lemma three_pass_propagation_witness :
  internalizeDevice quiet neverFails 20 scenario =
    onePass neverFails 20 (IOSleep quiet 100 (onePass neverFails 20 (IOSleep quiet 100
      (onePass neverFails 20
         (snd (waitForFlag quiet "IOPCIResourced" 20 2000
                 (setBuiltIn neverFails (Some 20) scenario))))))).
Proof.
  assert (Hu : unseenFor quiet "IOPCIResourced" 20 2000
                 (setBuiltIn neverFails (Some 20) scenario) = false)
    by (vm_compute; reflexivity).
  destruct (three_pass_propagation quiet neverFails 20 scenario Hu) as [Hrun _].
  exact Hrun.
Defined.

(** A [Protocol Characteristics] that is a string is neither copied nor
    replaced by a new dictionary: it is what it was. *)
Lemma protocol_not_a_dictionary_counterexample :
  propertyValue 40 "Protocol Characteristics" mislabelled =
    Some (OSString "PCI-Express") /\
  propertyValue 40 "Protocol Characteristics"
    (updateOtherProperties neverFails (Some 40) mislabelled) =
    Some (OSString "PCI-Express").
Proof. split; vm_compute; reflexivity. Qed.

Lemma property_update_postcondition_witness :
  propertyValue 40 "Physical Interconnect Location"
    (updateOtherProperties neverFails (Some 40) labelled) = Some (OSString "Internal") /\
  propertyValue 40 "built-in"
    (updateOtherProperties neverFails (Some 40) labelled) = Some (OSData [x01]) /\
  objectsKept labelled (updateOtherProperties neverFails (Some 40) labelled).
Proof.
  assert (He : entries (registry labelled) !! 40 = Some labelledEntry)
    by (vm_compute; reflexivity).
  destruct (property_update_postcondition neverFails (fun _ => eq_refl) 40 labelledEntry
              labelled wellFormed_labelled He)
    as (Hloc & _ & _ & _ & _ & Hbuilt & Hkept).
  split; [exact Hloc|]. split; [exact Hbuilt|exact Hkept].
Defined.

Lemma annotation_idempotent_witness :
  propertyState
    (internalizeDevice quiet neverFails 20 (internalizeDevice quiet neverFails 20 scenario)) =
    propertyState (internalizeDevice quiet neverFails 20 scenario) /\
  propertyState
    (updateOtherProperties neverFails (Some 20)
       (updateOtherProperties neverFails (Some 20) scenario)) =
    propertyState (updateOtherProperties neverFails (Some 20) scenario).
Proof.
  exact (annotation_idempotent quiet neverFails (fun _ => eq_refl)
           (fun _ _ _ => eq_refl) 20 scenario wellFormed_scenario).
Defined.

(** The second string cannot be built: nothing is written, although the
    first string, the value of [Physical Interconnect Location], was built,
    and although [built-in] and the protocol characteristics need neither
    string. *)
Lemma allocation_failure_counterexample :
  secondFails 0 = false /\
  getProperty 20 "Physical Interconnect Location"
    (updateOtherProperties secondFails (Some 20) scenario) = None /\
  getProperty 20 "Protocol Characteristics"
    (updateOtherProperties secondFails (Some 20) scenario) = None /\
  getProperty 20 "built-in"
    (updateOtherProperties secondFails (Some 20) scenario) = None /\
  trace (updateOtherProperties secondFails (Some 20) scenario) = [].
Proof. repeat split; vm_compute; reflexivity. Qed.

Lemma allocation_failure_is_local_witness :
  entries (registry (updateOtherProperties secondFails (Some 20) scenario)) =
    entries (registry scenario) /\
  trace (updateOtherProperties secondFails (Some 20) scenario) = trace scenario.
Proof.
  destruct (allocation_failure_is_local secondFails 20 scenario) as [Hstrings _].
  apply Hstrings. right. reflexivity.
Defined.


(** The end-to-end scenario of the specification: both storage controllers
    end with [built-in], the interconnect location and protocol
    characteristics that say internal, and so does the driver attached to
    the NVMe controller. *)
Example end_to_end_scenario :
  option_map
    (fun w =>
       map (fun e => (propertyValue e "built-in" w,
                      propertyValue e "Physical Interconnect Location" w,
                      propertyValue e "Protocol Characteristics" w))
         [20; 22; 30])
    (processRoot quiet neverFails pciCodes 5 scenario) =
  Some
    (repeat
       (Some (OSData [x01]), Some (OSString "Internal"),
        Some (OSDictionary [("Physical Interconnect Location", OSString "Internal")]))
       3).
Proof. vm_compute. reflexivity. Qed.

(** ** More of the driver, at concrete registries *)

Lemma quiet_is_quiet : forall t ms r, quiet t ms r = r.
Proof. reflexivity. Defined.

Lemma neverFails_never : forall n, neverFails n = false.
Proof. reflexivity. Defined.

Lemma codesReadable_scenario : codesReadable scenario.
Proof. apply (bool_decide_unpack _). vm_compute. exact I. Defined.

Lemma processRoot_scenario :
  processRoot quiet neverFails pciCodes 5 scenario = Some scenarioDone.
Proof. vm_compute. reflexivity. Defined.


Lemma wellFormed_sharedIcon : wellFormed sharedIcon.
Proof. apply (bool_decide_unpack _). vm_compute. exact I. Defined.

Lemma updateOtherProperties_frame_witness :
  getProperty 41 "IOMediaIcon" (updateOtherProperties neverFails (Some 40) sharedIcon) =
    getProperty 41 "IOMediaIcon" sharedIcon /\
  propertyValue 41 "IOMediaIcon" (updateOtherProperties neverFails (Some 40) sharedIcon) =
    propertyValue 41 "IOMediaIcon" sharedIcon.
Proof.
  apply (updateOtherProperties_frame neverFails 40 sharedIcon 41 "IOMediaIcon").
  - left. lia.
  - exact wellFormed_sharedIcon.
Defined.

Lemma updateOtherProperties_invariants_witness :
  wellFormed (updateOtherProperties secondFails (Some 40) labelled) /\
  objectsKept labelled (updateOtherProperties secondFails (Some 40) labelled) /\
  topology (updateOtherProperties secondFails (Some 40) labelled) = topology labelled.
Proof.
  exact (updateOtherProperties_invariants secondFails (Some 40) labelled
           wellFormed_labelled).
Defined.

Lemma processRoot_keeps_registry_witness : keepsRegistry scenario scenarioDone.
Proof.
  exact (processRoot_keeps_registry quiet neverFails pciCodes quiet_is_quiet
           5 scenario scenarioDone processRoot_scenario wellFormed_scenario).
Defined.

Lemma unconfigured_root_blocks_witness :
  processRoot quiet neverFails pciCodes 1000 stalled = None /\
  start quiet neverFails pciCodes true 1000 stalled = None.
Proof.
  assert (H1 : deviceTreeRoot (registry stalled) = Some 100) by reflexivity.
  assert (H2 : getChildIterator 100 gIODTPlane stalled = [12] ++ 10 :: [])
    by (vm_compute; reflexivity).
  assert (H3 : forallb (fun x => negb (isPCIRoot x stalled)) [12] = true)
    by (vm_compute; reflexivity).
  assert (H4 : isPCIRoot 10 stalled = true) by (vm_compute; reflexivity).
  assert (H5 : propertyIsTrue 10 "IOPCIConfigured" stalled = false)
    by (vm_compute; reflexivity).
  exact (unconfigured_root_blocks quiet neverFails pciCodes quiet_is_quiet
           100 stalled [12] 10 [] H1 H2 H3 H4 H5 1000).
Defined.

Lemma processRoot_annotates_or_keeps_witness :
  wellFormed scenarioDone /\ annotatedOrKept scenario scenarioDone /\
  dom (propertyState scenarioDone) = dom (propertyState scenario).
Proof.
  exact (processRoot_annotates_or_keeps quiet neverFails pciCodes quiet_is_quiet
           neverFails_never 5 scenario scenarioDone processRoot_scenario
           wellFormed_scenario).
Defined.

Lemma internalizeDevice_final_state_witness :
  propertyIsTrue 20 "IOPCIResourced" scenario = true /\
  wellFormed (internalizeDevice quiet neverFails 20 scenario) /\
  if propertyIsTrue 20 "IOPCIResourced" scenario then
    forall x,
      (x = 20 \/ descendant gIOServicePlane scenario 20 x ->
       propertyState (internalizeDevice quiet neverFails 20 scenario) !! x =
         annotate <$> propertyState scenario !! x) /\
      (x <> 20 -> ~ descendant gIOServicePlane scenario 20 x ->
       propertyState (internalizeDevice quiet neverFails 20 scenario) !! x =
         propertyState scenario !! x)
  else
    propertyState (internalizeDevice quiet neverFails 20 scenario) =
      alter annotateBuiltIn 20 (propertyState scenario).
Proof.
  split; [vm_compute; reflexivity|].
  exact (internalizeDevice_final_state quiet neverFails quiet_is_quiet
           neverFails_never 20 scenario wellFormed_scenario).
Defined.

Lemma late_driver_is_annotated_witness :
  let ready :=
    snd (waitForFlag (attachesAt 150 20 30) "IOPCIResourced" 20 2000
           (setBuiltIn neverFails (Some 20) unattached)) in
  let last :=
    IOSleep (attachesAt 150 20 30) 100
      (onePass neverFails 20
         (IOSleep (attachesAt 150 20 30) 100 (onePass neverFails 20 ready))) in
  ~ In 30 (getChildIterator 20 gIOServicePlane ready) /\
  propertyState
    (internalizeDevice (attachesAt 150 20 30) neverFails 20 unattached) !! 30 =
  annotate <$> propertyState last !! 30.
Proof.
  intros ready last. split.
  - vm_compute. intros H. exact H.
  - assert (Hseen : unseenFor (attachesAt 150 20 30) "IOPCIResourced" 20 2000
                      (setBuiltIn neverFails (Some 20) unattached) = false)
      by (vm_compute; reflexivity).
    assert (Hwf : wellFormed last)
      by (apply (bool_decide_unpack _); vm_compute; exact I).
    assert (Hd : 30 = 20 \/ descendant gIOServicePlane last 20 30).
    { right. apply descendant_child. vm_compute. left. reflexivity. }
    exact (late_driver_is_annotated (attachesAt 150 20 30) neverFails 20
             unattached 30 neverFails_never Hseen Hwf Hd).
Defined.

Lemma recurseBridge_nothing_to_do_witness :
  recurseBridge quiet neverFails pciCodes 1 21 displayOnly = Some displayOnly.
Proof.
  apply (recurseBridge_nothing_to_do quiet neverFails pciCodes 0 21 displayOnly).
  intros child Hin. vm_compute in Hin.
  destruct Hin as [<-|[<-|[<-|[]]]].
  - right. exists 0x030000%Z. vm_compute. repeat split; discriminate.
  - left. vm_compute. reflexivity.
  - left. vm_compute. reflexivity.
Defined.

Lemma recurseBridge_terminates_witness :
  exists w',
    recurseBridge quiet neverFails pciCodes 3 11 scenario = Some w' /\
    keepsRegistry scenario w'.
Proof.
  assert (Hh : heightAtMost gIODTPlane scenario 2 11 = true)
    by (vm_compute; reflexivity).
  assert (Hlt : 2 < 3) by lia.
  exact (recurseBridge_terminates quiet neverFails pciCodes quiet_is_quiet
           2 3 11 scenario wellFormed_scenario codesReadable_scenario Hh Hlt).
Defined.

Lemma processRoot_terminates_witness :
  exists w',
    processRoot quiet neverFails pciCodes 5 scenario = Some w' /\
    start quiet neverFails pciCodes true 5 scenario =
      Some (true, record ServiceRegistered w') /\
    keepsRegistry scenario w'.
Proof.
  assert (Hroot : deviceTreeRoot (registry scenario) = Some 100) by reflexivity.
  assert (Hsome : existsb (fun x => isPCIRoot x scenario)
                    (getChildIterator 100 gIODTPlane scenario) = true)
    by (vm_compute; reflexivity).
  assert (Hall : forall x,
             In x (getChildIterator 100 gIODTPlane scenario) ->
             isPCIRoot x scenario = true ->
             propertyIsTrue x "IOPCIConfigured" scenario = true /\
             heightAtMost gIODTPlane scenario 2 x = true).
  { intros x Hin _. vm_compute in Hin.
    destruct Hin as [<-|[<-|[]]]; split; vm_compute; reflexivity. }
  assert (Hlt : 2 < 3) by lia.
  exact (processRoot_terminates quiet neverFails pciCodes quiet_is_quiet
           2 3 100 scenario wellFormed_scenario codesReadable_scenario
           Hroot Hsome Hall Hlt).
Defined.

Lemma processRoot_annotates_storage_witness :
  propertyState scenarioDone !! 22 = annotate <$> propertyState scenario !! 22.
Proof.
  assert (Hroot : deviceTreeRoot (registry scenario) = Some 100) by reflexivity.
  assert (Hin : In 11 (getChildIterator 100 gIODTPlane scenario))
    by (vm_compute; right; left; reflexivity).
  assert (Hc : isPCIRoot 11 scenario = true) by (vm_compute; reflexivity).
  assert (Hwalk : walked pciCodes scenario 11 22).
  { apply (walked_bridge pciCodes scenario 11 21 22).
    - vm_compute. right. left. reflexivity.
    - vm_compute. reflexivity.
    - reflexivity.
    - vm_compute. reflexivity.
    - apply (walked_storage pciCodes scenario 21 22 0x010601%Z).
      + vm_compute. left. reflexivity.
      + vm_compute. reflexivity.
      + reflexivity. }
  assert (Hres : propertyIsTrue 22 "IOPCIResourced" scenario = true)
    by (vm_compute; reflexivity).
  exact (processRoot_annotates_storage quiet neverFails pciCodes quiet_is_quiet
           neverFails_never 5 scenario scenarioDone 100 11 22 22
           wellFormed_scenario processRoot_scenario Hroot Hin Hc Hwalk Hres
           (or_introl eq_refl)).
Defined.
